(** * Amon Hen: metadata store, enrichment parser, enricher, clusterer,
      divergence detector and the dedup pass, embedded in Rocq.

    Source files embedded here:
      - [amon_hen/models.py]                 (records and enums)
      - [amon_hen/storage/sqlite.py]         (module [SQLiteStore])
      - [amon_hen/storage/vectors.py]        (module [VectorStore])
      - [amon_hen/enrichment/llm.py]         (module [LLM])
      - [amon_hen/enrichment/__init__.py]    (module [Enricher])
      - [amon_hen/intelligence/clustering.py](module [Clustering])
      - [amon_hen/intelligence/divergence.py](module [Divergence])
      - [amon_hen/sources/__init__.py]       (module [Sources])

    Conventions of the embedding.
      - A Python [str] is a [string]; a Python [int] is a [Z].
      - A [float] that the code only copies, compares and sums (sentiment,
        costs, the Jaccard ratio) is an exact rational [Q]: every finite
        binary64 value is a rational, comparison and copying are exact, and
        sums are read without rounding error.
      - The components of an embedding vector are of a type parameter [F]:
        the stores and the clusterer hand them to numpy, sklearn and Qdrant
        without looking inside.  The divergence detector, which needs a
        square root, reads them as real numbers.
      - Every [datetime] is timezone-aware and in UTC, as every datetime the
        code creates ([datetime.now(timezone.utc)]).
      - A Python exception is a value [Raise e] of the type [result]; code
        that threads a store is written in the monad [M]. *)

From Stdlib Require Import ZArith QArith Qabs Qround List String Ascii Bool Lia Arith.
From Stdlib Require Import Permutation Sorted Reals Lra.
Import ListNotations.

Set Implicit Arguments.
Set Warnings "-register-all".

(* ===================================================================== *)
(** ** Python exceptions, results, and the store-passing monad            *)
(* ===================================================================== *)

Module Py.

Inductive exn : Type :=
| KeyError
| ValueError        (* also pydantic's ValidationError, a subclass *)
| TypeError
| AttributeError
| IndexError
| IntegrityError    (* sqlite3.IntegrityError *)
| ExternalError.    (* failure of an external service (LLM, embedder, Qdrant) *)

Inductive result (A : Type) : Type :=
| Ok (a : A)
| Raise (e : exn).

Arguments Ok {A} a.
Arguments Raise {A} e.

Definition rbind {A B} (r : result A) (k : A -> result B) : result B :=
  match r with
  | Ok a => k a
  | Raise e => Raise e
  end.

Fixpoint rmap_list {A B} (f : A -> result B) (l : list A) : result (list B) :=
  match l with
  | [] => Ok []
  | a :: l' =>
      rbind (f a) (fun b => rbind (rmap_list f l') (fun bs => Ok (b :: bs)))
  end.

(** A computation over a state [S] that may raise; the state that comes
    back with a [Raise] is the state at the moment of the exception. *)
Definition M (S A : Type) : Type := S -> result A * S.

Definition ret {S A} (a : A) : M S A := fun s => (Ok a, s).

Definition raise {S A} (e : exn) : M S A := fun s => (Raise e, s).

Definition bind {S A B} (m : M S A) (k : A -> M S B) : M S B :=
  fun s =>
    match m s with
    | (Ok a, s') => k a s'
    | (Raise e, s') => (Raise e, s')
    end.

Definition lift {S A} (r : result A) : M S A := fun s => (r, s).

Definition gets {S A} (f : S -> A) : M S A := fun s => (Ok (f s), s).

Definition modify {S} (f : S -> S) : M S unit := fun s => (Ok tt, f s).

(** [for x in l: body x] *)
Fixpoint for_each {S A} (l : list A) (body : A -> M S unit) : M S unit :=
  match l with
  | [] => ret tt
  | a :: l' => bind (body a) (fun _ => for_each l' body)
  end.

End Py.

Import Py.

Declare Scope py_scope.
Delimit Scope py_scope with py.
Notation "x <- m ;; k" := (bind m (fun x => k))
  (at level 61, m at next level, right associativity) : py_scope.
Notation "m ;;; k" := (bind m (fun _ => k))
  (at level 61, right associativity) : py_scope.

(* ===================================================================== *)
(** ** UTC datetimes and [isoformat]                                      *)
(* ===================================================================== *)

Module Datetime.

Local Open Scope string_scope.
Local Open Scope Z_scope.

(** [datetime(year, month, day, hour, minute, second, microsecond,
    tzinfo=timezone.utc)] *)
Record datetime : Type := mkdt {
  year : Z; month : Z; day : Z;
  hour : Z; minute : Z; second : Z; microsecond : Z
}.

Definition is_leap (y : Z) : bool :=
  ((y mod 4 =? 0) && negb (y mod 100 =? 0)) || (y mod 400 =? 0).

Definition days_in_month (y m : Z) : Z :=
  if m =? 2 then (if is_leap y then 29 else 28)
  else if (m =? 4) || (m =? 6) || (m =? 9) || (m =? 11) then 30
  else 31.

(** The values a Python [datetime] can hold. *)
Definition valid (d : datetime) : bool :=
  (1 <=? year d) && (year d <=? 9999) &&
  (1 <=? month d) && (month d <=? 12) &&
  (1 <=? day d) && (day d <=? days_in_month (year d) (month d)) &&
  (0 <=? hour d) && (hour d <=? 23) &&
  (0 <=? minute d) && (minute d <=? 59) &&
  (0 <=? second d) && (second d <=? 59) &&
  (0 <=? microsecond d) && (microsecond d <=? 999999).

(** [dt.replace(hour=h, minute=mi, second=s, microsecond=us)] *)
Definition replace_time (d : datetime) (h mi s us : Z) : datetime :=
  mkdt (year d) (month d) (day d) h mi s us.

(** [dt.replace(hour=h, minute=mi, second=s)] keeps the microsecond. *)
Definition replace_hms (d : datetime) (h mi s : Z) : datetime :=
  mkdt (year d) (month d) (day d) h mi s (microsecond d).

(** Chronological order of UTC datetimes: field by field. *)
Definition lex (c1 c2 : comparison) : comparison :=
  match c1 with Eq => c2 | _ => c1 end.

Definition compare (a b : datetime) : comparison :=
  lex (year a ?= year b)
  (lex (month a ?= month b)
  (lex (day a ?= day b)
  (lex (hour a ?= hour b)
  (lex (minute a ?= minute b)
  (lex (second a ?= second b)
       (microsecond a ?= microsecond b)))))).

Definition leb (a b : datetime) : bool :=
  match compare a b with Gt => false | _ => true end.



(** *** Rendering *)

Definition digit (d : Z) : ascii := ascii_of_nat (48 + Z.to_nat d).

(** [w] decimal digits of [n], most significant first, zero padded. *)
Fixpoint zpad (w : nat) (n : Z) : string :=
  match w with
  | O => ""
  | S w' => String (digit ((n / 10 ^ Z.of_nat w') mod 10)) (zpad w' n)
  end.

(** [datetime.isoformat()] of a UTC-aware datetime:
    [YYYY-MM-DDTHH:MM:SS+00:00], with [.ffffff] after the seconds when the
    microsecond is not zero. *)
Definition isoformat (d : datetime) : string :=
  zpad 4 (year d) ++ "-" ++ zpad 2 (month d) ++ "-" ++ zpad 2 (day d) ++ "T"
  ++ zpad 2 (hour d) ++ ":" ++ zpad 2 (minute d) ++ ":" ++ zpad 2 (second d)
  ++ (if microsecond d =? 0 then "" else "." ++ zpad 6 (microsecond d))
  ++ "+00:00".

(** *** Parsing *)

Definition digit_val (c : ascii) : option Z :=
  let n := Z.of_nat (nat_of_ascii c) in
  if (48 <=? n) && (n <=? 57) then Some (n - 48) else None.

Fixpoint read_digits (w : nat) (acc : Z) (s : string) : option (Z * string) :=
  match w with
  | O => Some (acc, s)
  | S w' =>
      match s with
      | String c s' =>
          match digit_val c with
          | Some v => read_digits w' (acc * 10 + v) s'
          | None => None
          end
      | EmptyString => None
      end
  end.

Definition expect (c : ascii) (s : string) : option string :=
  match s with
  | String c' s' => if Ascii.eqb c c' then Some s' else None
  | EmptyString => None
  end.

Definition obind {A B} (o : option A) (k : A -> option B) : option B :=
  match o with Some a => k a | None => None end.

(** The fraction of a second: absent, or a dot and six digits. *)
Definition read_fraction (s : string) : option (Z * string) :=
  match s with
  | String "." s' => read_digits 6 0 s'
  | _ => Some (0, s)
  end.

(** [datetime.fromisoformat] on the strings [isoformat] writes for UTC
    datetimes; anything else is a [ValueError] ([None] here). *)
Definition fromisoformat (s : string) : option datetime :=
  obind (read_digits 4 0 s) (fun '(y, s) =>
  obind (expect "-" s) (fun s =>
  obind (read_digits 2 0 s) (fun '(m, s) =>
  obind (expect "-" s) (fun s =>
  obind (read_digits 2 0 s) (fun '(d, s) =>
  obind (expect "T" s) (fun s =>
  obind (read_digits 2 0 s) (fun '(h, s) =>
  obind (expect ":" s) (fun s =>
  obind (read_digits 2 0 s) (fun '(mi, s) =>
  obind (expect ":" s) (fun s =>
  obind (read_digits 2 0 s) (fun '(sec, s) =>
  obind (read_fraction s) (fun '(us, s) =>
  if String.eqb s "+00:00" then
    let dt := mkdt y m d h mi sec us in
    if valid dt then Some dt else None
  else None)))))))))))).

End Datetime.

(* ===================================================================== *)
(** ** [models.py]                                                        *)
(* ===================================================================== *)

Module Models.

Import Datetime.
Local Open Scope string_scope.

Inductive SourceType : Type := RSS | GDELT | BLUESKY | REDDIT.
Inductive EntityType : Type := PERSON | ORG | PLACE | EVENT.
Inductive EntityRole : Type := SUBJECT | TARGET | SOURCE | LOCATION | MENTIONED.
Inductive ClusterStatus : Type := EMERGING | ACTIVE | FADING | DEAD.

(** [member.value] of the [str]-valued enums. *)
Definition SourceType_value (s : SourceType) : string :=
  match s with
  | RSS => "rss" | GDELT => "gdelt" | BLUESKY => "bluesky" | REDDIT => "reddit"
  end.

Definition EntityType_value (t : EntityType) : string :=
  match t with
  | PERSON => "person" | ORG => "org" | PLACE => "place" | EVENT => "event"
  end.

Definition EntityRole_value (r : EntityRole) : string :=
  match r with
  | SUBJECT => "subject" | TARGET => "target" | SOURCE => "source"
  | LOCATION => "location" | MENTIONED => "mentioned"
  end.

Definition ClusterStatus_value (s : ClusterStatus) : string :=
  match s with
  | EMERGING => "emerging" | ACTIVE => "active"
  | FADING => "fading" | DEAD => "dead"
  end.

(** [Enum(value)]: the member with that value, or [ValueError]. *)
Definition SourceType_of (s : string) : result SourceType :=
  if s =? "rss" then Ok RSS
  else if s =? "gdelt" then Ok GDELT
  else if s =? "bluesky" then Ok BLUESKY
  else if s =? "reddit" then Ok REDDIT
  else Raise ValueError.

Definition EntityType_of (s : string) : result EntityType :=
  if s =? "person" then Ok PERSON
  else if s =? "org" then Ok ORG
  else if s =? "place" then Ok PLACE
  else if s =? "event" then Ok EVENT
  else Raise ValueError.

Definition EntityRole_of (s : string) : result EntityRole :=
  if s =? "subject" then Ok SUBJECT
  else if s =? "target" then Ok TARGET
  else if s =? "source" then Ok SOURCE
  else if s =? "location" then Ok LOCATION
  else if s =? "mentioned" then Ok MENTIONED
  else Raise ValueError.

Definition ClusterStatus_of (s : string) : result ClusterStatus :=
  if s =? "emerging" then Ok EMERGING
  else if s =? "active" then Ok ACTIVE
  else if s =? "fading" then Ok FADING
  else if s =? "dead" then Ok DEAD
  else Raise ValueError.

Definition ClusterStatus_eqb (a b : ClusterStatus) : bool :=
  match a, b with
  | EMERGING, EMERGING | ACTIVE, ACTIVE | FADING, FADING | DEAD, DEAD => true
  | _, _ => false
  end.

Record Entity : Type := mkEntity {
  ent_name : string;
  ent_type : EntityType;
  ent_role : EntityRole;
  ent_aliases : list string
}.

(** [raw_metadata] and [author] are never read by the code embedded here. *)
Record RawItem : Type := mkRawItem {
  raw_id : string;
  raw_source_type : SourceType;
  raw_source_name : string;
  raw_source_url : string;
  raw_title : option string;
  raw_content_text : string;
  raw_published_at : datetime;
  raw_ingested_at : datetime;
  raw_language : string
}.

Record EnrichmentResult : Type := mkEnrichmentResult {
  er_summary : string;
  er_entities : list Entity;
  er_claims : list string;
  er_framing : string;
  er_sentiment : Q;
  er_topic_tags : list string
}.

Record EnrichedItem : Type := mkEnrichedItem {
  item_id : string;
  item_source_type : SourceType;
  item_source_name : string;
  item_source_url : string;
  item_title : option string;
  item_published_at : datetime;
  item_ingested_at : datetime;
  item_language : string;
  item_summary : string;
  item_entities : list Entity;
  item_claims : list string;
  item_framing : string;
  item_sentiment : Q;
  item_topic_tags : list string;
  item_embedding_id : string;
  item_embedding_model : string;
  item_cluster_id : option string;
  item_cluster_label : option string;
  item_enrichment_model : string;
  item_enrichment_cost_usd : Q
}.

(** [cl_member_ids] is the attribute [_member_ids] that [run] attaches to the
    clusters it builds; a cluster read back from the store has none, and
    [getattr(c, "_member_ids", [])] is then the empty list. *)
Record NarrativeCluster (F : Type) : Type := mkCluster {
  cl_id : string;
  cl_label : string;
  cl_summary : string;
  cl_item_count : Z;
  cl_first_seen : datetime;
  cl_last_updated : datetime;
  cl_centroid : list F;
  cl_source_distribution : list (string * Z);
  cl_sentiment_distribution : list (string * Z);
  cl_key_entities : list string;
  cl_key_claims : list string;
  cl_status : ClusterStatus;
  cl_parent_cluster_id : option string;
  cl_member_ids : list string
}.

Record CostLogEntry : Type := mkCostLogEntry {
  cost_item_id : string;
  cost_model : string;
  cost_input_tokens : Z;
  cost_output_tokens : Z;
  cost_usd : Q;
  cost_timestamp : datetime
}.

End Models.

(* ===================================================================== *)
(** ** JSON values ([json.loads] results)                                 *)
(* ===================================================================== *)

Module Json.

Local Open Scope string_scope.

(** A number is kept by its exact value; an object keeps its keys in
    insertion order. *)
Inductive json : Type :=
| JNull
| JBool (b : bool)
| JNum (q : Q)
| JString (s : string)
| JList (l : list json)
| JObject (kvs : list (string * json)).

(** [d[k]] / [d.get(k)] on the pairs of a dict. *)
Fixpoint lookup (k : string) (kvs : list (string * json)) : option json :=
  match kvs with
  | [] => None
  | (k', v) :: rest => if k =? k' then Some v else lookup k rest
  end.

(** [d.get(k, default)] *)
Definition get_default (k : string) (default : json)
    (kvs : list (string * json)) : json :=
  match lookup k kvs with
  | Some v => v
  | None => default
  end.

(** pydantic's validation of a [str] field: only a string passes. *)
Definition as_str (v : json) : result string :=
  match v with
  | JString s => Ok s
  | _ => Raise ValueError
  end.

(** pydantic's validation of a [list[str]] field. *)
Definition as_str_list (v : json) : result (list string) :=
  match v with
  | JList l => rmap_list as_str l
  | _ => Raise ValueError
  end.

Definition of_str_list (l : list string) : json := JList (map JString l).

End Json.

(* ===================================================================== *)
(** ** [storage/sqlite.py]                                                *)
(* ===================================================================== *)

Module SQLiteStore.

Import Datetime Models Json.
Local Open Scope string_scope.

(** *** Tables

    A row keeps what the column holds.  A [TEXT] column written with
    [json.dumps] and read with [json.loads] is kept as the JSON value it
    encodes: the text layer of the [json] module is not modelled.  The
    tables [digests] and [source_status] are not used by the code embedded
    here. *)

Record ItemRow : Type := mkItemRow {
  col_id : string;
  col_source_type : string;
  col_source_name : string;
  col_source_url : string;
  col_title : option string;
  col_published_at : string;
  col_ingested_at : string;
  col_language : string;
  col_summary : string;
  col_entities_json : json;
  col_claims_json : json;
  col_framing : string;
  col_sentiment : Q;
  col_topic_tags_json : json;
  col_embedding_id : string;
  col_embedding_model : string;
  col_cluster_id : option string;
  col_cluster_label : option string;
  col_enrichment_model : string;
  col_enrichment_cost_usd : Q;
  col_archived : bool
}.

Record ClusterRow (F : Type) : Type := mkClusterRow {
  ccol_id : string;
  ccol_label : string;
  ccol_summary : string;
  ccol_item_count : Z;
  ccol_first_seen : string;
  ccol_last_updated : string;
  ccol_centroid_json : list F;
  ccol_source_distribution_json : list (string * Z);
  ccol_sentiment_distribution_json : list (string * Z);
  ccol_key_entities_json : list string;
  ccol_key_claims_json : list string;
  ccol_status : string;
  ccol_parent_cluster_id : option string
}.

Record MembershipRow : Type := mkMembershipRow {
  mcol_item_id : string;
  mcol_cluster_id : string;
  mcol_assigned_at : string
}.

Record CostRow : Type := mkCostRow {
  kcol_item_id : string;
  kcol_model : string;
  kcol_input_tokens : Z;
  kcol_output_tokens : Z;
  kcol_cost_usd : Q;
  kcol_timestamp : string
}.

(** The database: each table in rowid order. *)
Record Store (F : Type) : Type := mkStore {
  items : list ItemRow;
  clusters : list (ClusterRow F);
  cluster_membership : list MembershipRow;
  cost_log : list CostRow
}.

Definition empty_store (F : Type) : Store F := mkStore [] [] [] [].

Definition set_items {F} (f : list ItemRow -> list ItemRow) (st : Store F)
  : Store F :=
  mkStore (f (items st)) (clusters st) (cluster_membership st) (cost_log st).

Definition set_clusters {F} (f : list (ClusterRow F) -> list (ClusterRow F))
    (st : Store F) : Store F :=
  mkStore (items st) (f (clusters st)) (cluster_membership st) (cost_log st).

Definition set_membership {F}
    (f : list MembershipRow -> list MembershipRow) (st : Store F) : Store F :=
  mkStore (items st) (clusters st) (f (cluster_membership st)) (cost_log st).

Definition set_cost_log {F} (f : list CostRow -> list CostRow) (st : Store F)
  : Store F :=
  mkStore (items st) (clusters st) (cluster_membership st) (f (cost_log st)).

Definition _dt_to_str (dt : datetime) : string := isoformat dt.

Definition _str_to_dt (s : string) : result datetime :=
  match fromisoformat s with
  | Some dt => Ok dt
  | None => Raise ValueError
  end.

(** *** [ORDER BY key DESC]

    A stable insertion sort; SQL leaves the order among equal keys open. *)
Section Sorting.
Variable A : Type.
Variable geb : A -> A -> bool.

Fixpoint insert_desc (x : A) (l : list A) : list A :=
  match l with
  | [] => [x]
  | y :: l' => if geb x y then x :: y :: l' else y :: insert_desc x l'
  end.

Definition sort_desc (l : list A) : list A := fold_right insert_desc [] l.
End Sorting.

(** [LIMIT n]: a negative [n] is no limit. *)
Definition sql_limit {A} (n : Z) (l : list A) : list A :=
  if (n <? 0)%Z then l else firstn (Z.to_nat n) l.

Definition opt_eqb (o : option string) (s : string) : bool :=
  match o with
  | Some s' => s' =? s
  | None => false
  end.

(** *** Items *)

(** [e.model_dump()] then [json.dumps]. *)
Definition entity_to_json (e : Entity) : json :=
  JObject [ ("name", JString (ent_name e));
            ("type", JString (EntityType_value (ent_type e)));
            ("role", JString (EntityRole_value (ent_role e)));
            ("aliases", of_str_list (ent_aliases e)) ].

(** The tuple of values [insert_item] binds; [archived] takes its default. *)
Definition item_to_row (item : EnrichedItem) : ItemRow :=
  {| col_id := item_id item;
     col_source_type := SourceType_value (item_source_type item);
     col_source_name := item_source_name item;
     col_source_url := item_source_url item;
     col_title := item_title item;
     col_published_at := _dt_to_str (item_published_at item);
     col_ingested_at := _dt_to_str (item_ingested_at item);
     col_language := item_language item;
     col_summary := item_summary item;
     col_entities_json := JList (map entity_to_json (item_entities item));
     col_claims_json := of_str_list (item_claims item);
     col_framing := item_framing item;
     col_sentiment := item_sentiment item;
     col_topic_tags_json := of_str_list (item_topic_tags item);
     col_embedding_id := item_embedding_id item;
     col_embedding_model := item_embedding_model item;
     col_cluster_id := item_cluster_id item;
     col_cluster_label := item_cluster_label item;
     col_enrichment_model := item_enrichment_model item;
     col_enrichment_cost_usd := item_enrichment_cost_usd item;
     col_archived := false |}.

(** The constraints of the table [items]: [id] is the primary key and
    [source_url] is [UNIQUE]. *)
Definition item_conflicts (row : ItemRow) (rows : list ItemRow) : bool :=
  existsb (fun r => (col_id r =? col_id row)
                    || (col_source_url r =? col_source_url row)) rows.

(** [insert_item]: one transaction; a constraint violation rolls it back
    and surfaces as [sqlite3.IntegrityError]. *)
Definition insert_item {F} (item : EnrichedItem) : M (Store F) unit :=
  fun st =>
    let row := item_to_row item in
    if item_conflicts row (items st) then (Raise IntegrityError, st)
    else (Ok tt, set_items (fun rows => (rows ++ [row])%list) st).

(** One element of [entities_raw] in [_row_to_item]. *)
Definition entity_of_row_json (e : json) : result Entity :=
  match e with
  | JObject kvs =>
      match lookup "name" kvs with
      | None => Raise KeyError
      | Some n =>
          match lookup "type" kvs with
          | None => Raise KeyError
          | Some (JString t) =>
              rbind (EntityType_of t) (fun ty =>
              match lookup "role" kvs with
              | None => Raise KeyError
              | Some (JString r) =>
                  rbind (EntityRole_of r) (fun ro =>
                  rbind (as_str n) (fun name =>
                  rbind (as_str_list (get_default "aliases" (JList []) kvs))
                    (fun aliases => Ok (mkEntity name ty ro aliases))))
              | Some _ => Raise ValueError
              end)
          | Some _ => Raise ValueError
          end
      end
  | _ => Raise TypeError
  end.

(** [for e in entities_raw] *)
Definition entities_of_row_json (v : json) : result (list Entity) :=
  match v with
  | JList l => rmap_list entity_of_row_json l
  | JObject kvs => rmap_list entity_of_row_json (map (fun kv => JString (fst kv)) kvs)
  | JString s =>
      rmap_list entity_of_row_json
        (map (fun c => JString (String c "")) (list_ascii_of_string s))
  | _ => Raise TypeError
  end.

Definition _row_to_item (row : ItemRow) : result EnrichedItem :=
  rbind (entities_of_row_json (col_entities_json row)) (fun entities =>
  rbind (SourceType_of (col_source_type row)) (fun source_type =>
  rbind (_str_to_dt (col_published_at row)) (fun published_at =>
  rbind (_str_to_dt (col_ingested_at row)) (fun ingested_at =>
  rbind (as_str_list (col_claims_json row)) (fun claims =>
  rbind (as_str_list (col_topic_tags_json row)) (fun topic_tags =>
  Ok {| item_id := col_id row;
        item_source_type := source_type;
        item_source_name := col_source_name row;
        item_source_url := col_source_url row;
        item_title := col_title row;
        item_published_at := published_at;
        item_ingested_at := ingested_at;
        item_language := col_language row;
        item_summary := col_summary row;
        item_entities := entities;
        item_claims := claims;
        item_framing := col_framing row;
        item_sentiment := col_sentiment row;
        item_topic_tags := topic_tags;
        item_embedding_id := col_embedding_id row;
        item_embedding_model := col_embedding_model row;
        item_cluster_id := col_cluster_id row;
        item_cluster_label := col_cluster_label row;
        item_enrichment_model := col_enrichment_model row;
        item_enrichment_cost_usd := col_enrichment_cost_usd row |})))))).

(** [SELECT * FROM items WHERE id = ?] then [fetchone]. *)
Definition get_item {F} (id : string) : M (Store F) (option EnrichedItem) :=
  fun st =>
    match find (fun r => col_id r =? id) (items st) with
    | None => (Ok None, st)
    | Some row => (rbind (_row_to_item row) (fun it => Ok (Some it)), st)
    end.

Definition published_geb (a b : ItemRow) : bool :=
  String.leb (col_published_at b) (col_published_at a).

(** The rows the query of [get_items] selects.  [if since:] holds for every
    datetime; [if source_type:] fails for [None] and for the empty string. *)
Definition get_items_rows {F} (since : option datetime) (limit : Z)
    (source_type : option string) (st : Store F) : list ItemRow :=
  let keep r :=
    negb (col_archived r)
    && match since with
       | Some d => String.leb (_dt_to_str d) (col_published_at r)
       | None => true
       end
    && match source_type with
       | Some t => if t =? "" then true else col_source_type r =? t
       | None => true
       end in
  sql_limit limit (sort_desc published_geb (filter keep (items st))).

Definition get_items {F} (since : option datetime) (limit : Z)
    (source_type : option string) : M (Store F) (list EnrichedItem) :=
  fun st =>
    (rmap_list _row_to_item (get_items_rows since limit source_type st), st).

Definition item_url_exists {F} (url : string) : M (Store F) bool :=
  gets (fun st => existsb (fun r => col_source_url r =? url) (items st)).

Definition set_row_cluster (cluster_id cluster_label : string) (r : ItemRow)
  : ItemRow :=
  {| col_id := col_id r;
     col_source_type := col_source_type r;
     col_source_name := col_source_name r;
     col_source_url := col_source_url r;
     col_title := col_title r;
     col_published_at := col_published_at r;
     col_ingested_at := col_ingested_at r;
     col_language := col_language r;
     col_summary := col_summary r;
     col_entities_json := col_entities_json r;
     col_claims_json := col_claims_json r;
     col_framing := col_framing r;
     col_sentiment := col_sentiment r;
     col_topic_tags_json := col_topic_tags_json r;
     col_embedding_id := col_embedding_id r;
     col_embedding_model := col_embedding_model r;
     col_cluster_id := Some cluster_id;
     col_cluster_label := Some cluster_label;
     col_enrichment_model := col_enrichment_model r;
     col_enrichment_cost_usd := col_enrichment_cost_usd r;
     col_archived := col_archived r |}.

Definition update_item_cluster {F} (item_id cluster_id cluster_label : string)
  : M (Store F) unit :=
  modify (set_items (map (fun r =>
    if col_id r =? item_id then set_row_cluster cluster_id cluster_label r
    else r))).

Definition get_items_by_cluster_rows {F} (cluster_id : string) (st : Store F)
  : list ItemRow :=
  sort_desc published_geb
    (filter (fun r => opt_eqb (col_cluster_id r) cluster_id
                      && negb (col_archived r)) (items st)).

Definition get_items_by_cluster {F} (cluster_id : string)
  : M (Store F) (list EnrichedItem) :=
  fun st =>
    (rmap_list _row_to_item (get_items_by_cluster_rows cluster_id st), st).

Definition set_row_archived (r : ItemRow) : ItemRow :=
  {| col_id := col_id r;
     col_source_type := col_source_type r;
     col_source_name := col_source_name r;
     col_source_url := col_source_url r;
     col_title := col_title r;
     col_published_at := col_published_at r;
     col_ingested_at := col_ingested_at r;
     col_language := col_language r;
     col_summary := col_summary r;
     col_entities_json := col_entities_json r;
     col_claims_json := col_claims_json r;
     col_framing := col_framing r;
     col_sentiment := col_sentiment r;
     col_topic_tags_json := col_topic_tags_json r;
     col_embedding_id := col_embedding_id r;
     col_embedding_model := col_embedding_model r;
     col_cluster_id := col_cluster_id r;
     col_cluster_label := col_cluster_label r;
     col_enrichment_model := col_enrichment_model r;
     col_enrichment_cost_usd := col_enrichment_cost_usd r;
     col_archived := true |}.

Definition archive_old_items {F} (before : datetime) : M (Store F) Z :=
  fun st =>
    let hit r := String.ltb (col_published_at r) (_dt_to_str before)
                 && negb (col_archived r) in
    (Ok (Z.of_nat (List.length (filter hit (items st)))),
     set_items (map (fun r => if hit r then set_row_archived r else r)) st).

(** *** Clusters *)

Definition cluster_to_row {F} (c : NarrativeCluster F) : ClusterRow F :=
  {| ccol_id := cl_id c;
     ccol_label := cl_label c;
     ccol_summary := cl_summary c;
     ccol_item_count := cl_item_count c;
     ccol_first_seen := _dt_to_str (cl_first_seen c);
     ccol_last_updated := _dt_to_str (cl_last_updated c);
     ccol_centroid_json := cl_centroid c;
     ccol_source_distribution_json := cl_source_distribution c;
     ccol_sentiment_distribution_json := cl_sentiment_distribution c;
     ccol_key_entities_json := cl_key_entities c;
     ccol_key_claims_json := cl_key_claims c;
     ccol_status := ClusterStatus_value (cl_status c);
     ccol_parent_cluster_id := cl_parent_cluster_id c |}.

(** [INSERT OR REPLACE INTO clusters]: a row with the same primary key is
    deleted and the new row is inserted. *)
Definition upsert_cluster {F} (c : NarrativeCluster F) : M (Store F) unit :=
  modify (set_clusters (fun rows =>
    (filter (fun r => negb (ccol_id r =? cl_id c)) rows
       ++ [cluster_to_row c])%list)).

Definition _row_to_cluster {F} (row : ClusterRow F)
  : result (NarrativeCluster F) :=
  rbind (_str_to_dt (ccol_first_seen row)) (fun first_seen =>
  rbind (_str_to_dt (ccol_last_updated row)) (fun last_updated =>
  rbind (ClusterStatus_of (ccol_status row)) (fun status =>
  Ok {| cl_id := ccol_id row;
        cl_label := ccol_label row;
        cl_summary := ccol_summary row;
        cl_item_count := ccol_item_count row;
        cl_first_seen := first_seen;
        cl_last_updated := last_updated;
        cl_centroid := ccol_centroid_json row;
        cl_source_distribution := ccol_source_distribution_json row;
        cl_sentiment_distribution := ccol_sentiment_distribution_json row;
        cl_key_entities := ccol_key_entities_json row;
        cl_key_claims := ccol_key_claims_json row;
        cl_status := status;
        cl_parent_cluster_id := ccol_parent_cluster_id row;
        cl_member_ids := [] |}))).

Definition get_cluster {F} (cluster_id : string)
  : M (Store F) (option (NarrativeCluster F)) :=
  fun st =>
    match find (fun r => ccol_id r =? cluster_id) (clusters st) with
    | None => (Ok None, st)
    | Some row => (rbind (_row_to_cluster row) (fun c => Ok (Some c)), st)
    end.

Definition get_active_clusters_rows {F} (st : Store F) : list (ClusterRow F) :=
  sort_desc (fun a b => (ccol_item_count b <=? ccol_item_count a)%Z)
    (filter (fun r => (ccol_status r =? "emerging")
                      || (ccol_status r =? "active")) (clusters st)).

Definition get_active_clusters {F} : M (Store F) (list (NarrativeCluster F)) :=
  fun st => (rmap_list _row_to_cluster (get_active_clusters_rows st), st).

Definition set_row_status {F} (status : string) (r : ClusterRow F)
  : ClusterRow F :=
  {| ccol_id := ccol_id r;
     ccol_label := ccol_label r;
     ccol_summary := ccol_summary r;
     ccol_item_count := ccol_item_count r;
     ccol_first_seen := ccol_first_seen r;
     ccol_last_updated := ccol_last_updated r;
     ccol_centroid_json := ccol_centroid_json r;
     ccol_source_distribution_json := ccol_source_distribution_json r;
     ccol_sentiment_distribution_json := ccol_sentiment_distribution_json r;
     ccol_key_entities_json := ccol_key_entities_json r;
     ccol_key_claims_json := ccol_key_claims_json r;
     ccol_status := status;
     ccol_parent_cluster_id := ccol_parent_cluster_id r |}.

Definition update_cluster_status {F} (cluster_id status : string)
  : M (Store F) unit :=
  modify (set_clusters (map (fun r =>
    if ccol_id r =? cluster_id then set_row_status status r else r))).

(** *** Cluster membership

    Foreign keys are enforced ([PRAGMA foreign_keys=ON]): [item_id] must be
    the id of an item and [cluster_id] the id of a cluster.  [now] is the
    clock reading [datetime.now(timezone.utc)] of the call. *)
Definition set_cluster_membership {F} (now : datetime)
    (item_id cluster_id : string) : M (Store F) unit :=
  fun st =>
    if existsb (fun r => col_id r =? item_id) (items st)
       && existsb (fun r => ccol_id r =? cluster_id) (clusters st)
    then
      (Ok tt,
       set_membership (fun rows =>
         (filter (fun m => negb ((mcol_item_id m =? item_id)
                                 && (mcol_cluster_id m =? cluster_id))) rows
            ++ [mkMembershipRow item_id cluster_id (_dt_to_str now)])%list) st)
    else (Raise IntegrityError, st).

Definition clear_cluster_memberships {F} : M (Store F) unit :=
  modify (set_membership (fun _ => [])).

(** *** Cost tracking *)

Definition cost_to_row (entry : CostLogEntry) : CostRow :=
  {| kcol_item_id := cost_item_id entry;
     kcol_model := cost_model entry;
     kcol_input_tokens := cost_input_tokens entry;
     kcol_output_tokens := cost_output_tokens entry;
     kcol_cost_usd := cost_usd entry;
     kcol_timestamp := _dt_to_str (cost_timestamp entry) |}.

Definition log_cost {F} (entry : CostLogEntry) : M (Store F) unit :=
  modify (set_cost_log (fun rows => (rows ++ [cost_to_row entry])%list)).

(** [COALESCE(SUM(x), 0.0)] over the values in row order. *)
Definition sql_sum (xs : list Q) : Q := fold_left Qplus xs 0%Q.

Definition get_daily_cost {F} (date : datetime) : M (Store F) Q :=
  fun st =>
    let day_start := replace_time date 0 0 0 0 in
    let day_end := replace_hms day_start 23 59 59 in
    (Ok (sql_sum (map kcol_cost_usd
           (filter (fun r =>
                      String.leb (_dt_to_str day_start) (kcol_timestamp r)
                      && String.leb (kcol_timestamp r) (_dt_to_str day_end))
                   (cost_log st)))),
     st).

Definition get_total_cost {F} : M (Store F) Q :=
  gets (fun st => sql_sum (map kcol_cost_usd (cost_log st))).

(** *** Stats *)

Definition get_item_count {F} : M (Store F) Z :=
  gets (fun st =>
          Z.of_nat (List.length
                      (filter (fun r => negb (col_archived r)) (items st)))).

Definition get_cluster_count {F} : M (Store F) Z :=
  gets (fun st => Z.of_nat (List.length (clusters st))).

End SQLiteStore.

(* ===================================================================== *)
(** ** [storage/vectors.py]                                               *)
(* ===================================================================== *)

Module VectorStore.

Import Datetime.
Local Open Scope string_scope.

(** A Qdrant point; the payload is the dict the caller passed. *)
Record Point (F : Type) : Type := mkPoint {
  pt_id : string;
  pt_vector : list F;
  pt_payload : list (string * string)
}.

(** The collection [amon_hen_items]. *)
Definition Collection (F : Type) : Type := list (Point F).

Fixpoint payload_get (k : string) (p : list (string * string))
  : option string :=
  match p with
  | [] => None
  | (k', v) :: rest => if k =? k' then Some v else payload_get k rest
  end.

(** [client.upsert]: a point with the same id is overwritten. *)
Fixpoint upsert_point {F} (p : Point F) (c : Collection F) : Collection F :=
  match c with
  | [] => [p]
  | q :: c' => if pt_id q =? pt_id p then p :: c'
               else q :: upsert_point p c'
  end.

Definition upsert_item {F} (point_id : string) (vector : list F)
    (payload : list (string * string)) (c : Collection F) : Collection F :=
  upsert_point (mkPoint point_id vector payload) c.

(** [FieldCondition(key="published_at", range=DatetimeRange(gte=since))]:
    the point has a [published_at] that is a datetime not before [since]. *)
Definition published_gte (since : string) (payload : list (string * string))
  : bool :=
  match payload_get "published_at" payload, fromisoformat since with
  | Some s, Some d0 =>
      match fromisoformat s with
      | Some d => Datetime.leb d0 d
      | None => false
      end
  | _, _ => false
  end.

(** [get_all_vectors]: the scroll loop pages through every point the
    filter keeps; [if since:] fails for [None] and for the empty string. *)
Definition get_all_vectors {F} (since : option string) (c : Collection F)
  : list string * list (list F) :=
  let keep (p : Point F) :=
    match since with
    | Some s => if s =? "" then true else published_gte s (pt_payload p)
    | None => true
    end in
  let pts := filter keep c in
  (map (@pt_id F) pts, map (@pt_vector F) pts).

(** [get_vectors_by_ids]: the dict [{id: vector}] of the points found. *)
Definition get_vectors_by_ids {F} (point_ids : list string) (c : Collection F)
  : list (string * list F) :=
  match point_ids with
  | [] => []
  | _ =>
      map (fun p => (pt_id p, pt_vector p))
          (filter (fun p => existsb (String.eqb (pt_id p)) point_ids) c)
  end.

Fixpoint dict_get {V} (k : string) (d : list (string * V)) : option V :=
  match d with
  | [] => None
  | (k', v) :: rest => if k =? k' then Some v else dict_get k rest
  end.

Definition delete_points {F} (point_ids : list string) (c : Collection F)
  : Collection F :=
  filter (fun p => negb (existsb (String.eqb (pt_id p)) point_ids)) c.

End VectorStore.

(* ===================================================================== *)
(** ** [enrichment/llm.py]                                                *)
(* ===================================================================== *)

Module LLM.

Import Models Json.
Local Open Scope string_scope.

Definition Qltb (x y : Q) : bool := negb (Qle_bool y x).

(** Python's [min(a, b)] and [max(a, b)]: the first argument unless the
    second is strictly smaller (resp. larger). *)
Definition py_min (a b : Q) : Q := if Qltb b a then b else a.
Definition py_max (a b : Q) : Q := if Qltb a b then b else a.

(** [EntityType(v)] and [EntityRole(v)] on a JSON value: a value that is
    not the value of a member is a [ValueError]. *)
Definition EntityType_call (v : json) : result EntityType :=
  match v with
  | JString s => EntityType_of s
  | _ => Raise ValueError
  end.

Definition EntityRole_call (v : json) : result EntityRole :=
  match v with
  | JString s => EntityRole_of s
  | _ => Raise ValueError
  end.

(** The body of the [try] in the entity loop: subscripting ([e["name"]])
    and [.get] need a dict; [Entity(...)] validates [name] and [aliases]. *)
Definition make_entity (e : json) : result Entity :=
  match e with
  | JObject kvs =>
      match lookup "name" kvs with
      | None => Raise KeyError
      | Some n =>
          rbind (EntityType_call (get_default "type" (JString "person") kvs))
            (fun ty =>
          rbind (EntityRole_call (get_default "role" (JString "mentioned") kvs))
            (fun ro =>
          rbind (as_str n) (fun name =>
          rbind (as_str_list (get_default "aliases" (JList []) kvs))
            (fun aliases => Ok (mkEntity name ty ro aliases)))))
      end
  | _ => Raise TypeError
  end.

(** [for e in ...: try: entities.append(Entity(...))
                   except (ValueError, KeyError): continue] *)
Fixpoint entity_loop (es : list json) (entities : list Entity)
  : result (list Entity) :=
  match es with
  | [] => Ok entities
  | e :: rest =>
      match make_entity e with
      | Ok ent => entity_loop rest (entities ++ [ent])%list
      | Raise ValueError | Raise KeyError => entity_loop rest entities
      | Raise ex => Raise ex
      end
  end.

(** What [for e in v] iterates over. *)
Definition iterate (v : json) : result (list json) :=
  match v with
  | JList l => Ok l
  | JObject kvs => Ok (map (fun kv => JString (fst kv)) kvs)
  | JString s =>
      Ok (map (fun c => JString (String c "")) (list_ascii_of_string s))
  | _ => Raise TypeError
  end.

Section Parse.

(** [float(s)] on a [str]: the number it spells, or [ValueError]. *)
Variable float_of_str : string -> result Q.

(** [json.loads(_strip_code_fences(raw))]: the text layer. *)
Variable loads_cleaned : string -> result json.

(** [float(v)] *)
Definition py_float (v : json) : result Q :=
  match v with
  | JNum q => Ok q
  | JBool b => Ok (if b then 1%Q else 0%Q)
  | JString s => float_of_str s
  | _ => Raise TypeError
  end.

(** [_parse_enrichment_json] from [data = json.loads(cleaned)] on. *)
Definition parse_data (data : json) : result EnrichmentResult :=
  match data with
  | JObject kvs =>
      rbind (iterate (get_default "entities" (JList []) kvs)) (fun es =>
      rbind (entity_loop es []) (fun entities =>
      rbind (py_float (get_default "sentiment" (JNum 0%Q) kvs)) (fun s =>
      let sentiment := py_max (-1)%Q (py_min 1%Q s) in
      rbind (as_str (get_default "summary" (JString "") kvs)) (fun summary =>
      rbind (as_str_list (get_default "claims" (JList []) kvs)) (fun claims =>
      rbind (as_str (get_default "framing" (JString "") kvs)) (fun framing =>
      rbind (as_str_list (get_default "topic_tags" (JList []) kvs))
        (fun topic_tags =>
      Ok (mkEnrichmentResult summary entities claims framing sentiment
            topic_tags))))))))
  | _ => Raise AttributeError
  end.

Definition _parse_enrichment_json (raw : string) : result EnrichmentResult :=
  rbind (loads_cleaned raw) parse_data.

End Parse.

End LLM.

(* ===================================================================== *)
(** ** [enrichment/llm.py]: the providers                                 *)
(* ===================================================================== *)

Module Providers.

Import Datetime Models Json LLM.
Local Open Scope string_scope.

Definition MAX_CONTENT_CHARS : nat := 4000.

(** [AnthropicProvider.INPUT_COST_PER_TOKEN] and
    [OUTPUT_COST_PER_TOKEN], as exact quotients. *)
Definition INPUT_COST_PER_TOKEN : Q := (80 # 100) / (1000000 # 1).
Definition OUTPUT_COST_PER_TOKEN : Q := (4 # 1) / (1000000 # 1).

(** What [enrich] reads of a response of the Messages API:
    [content[0].text], [usage.input_tokens], [usage.output_tokens]. *)
Record Response : Type := mkResponse {
  resp_text : string;
  resp_input_tokens : Z;
  resp_output_tokens : Z
}.

Section Anthropic.

Variable float_of_str : string -> result Q.
Variable loads_cleaned : string -> result json.

(** [ENRICHMENT_PROMPT.format(content=content)] *)
Variable format_prompt : string -> string.

(** [self.model] *)
Variable model : string.

(** [client.messages.create(model=self.model, max_tokens=1024,
    messages=...)] on the list of (role, content) pairs, read as above:
    the response, or the exception of the call or of the reads. *)
Variable messages_create : list (string * string) -> result Response.

(** The default of [CostLogEntry.timestamp]. *)
Variable utcnow : datetime.

Definition token_cost (input_tokens output_tokens : Z) : Q :=
  (inject_Z input_tokens * INPUT_COST_PER_TOKEN
   + inject_Z output_tokens * OUTPUT_COST_PER_TOKEN)%Q.

(** [AnthropicProvider.enrich]; [s[:n]] is on bytes here, on code points
    in Python. *)
Definition anthropic_enrich (item : RawItem)
  : result (EnrichmentResult * CostLogEntry) :=
  let content := substring 0 MAX_CONTENT_CHARS (raw_content_text item) in
  let prompt := format_prompt content in
  rbind (messages_create [("user", prompt)]) (fun response =>
  let raw_text := resp_text response in
  let input_tokens := resp_input_tokens response in
  let output_tokens := resp_output_tokens response in
  let cost := token_cost input_tokens output_tokens in
  match _parse_enrichment_json float_of_str loads_cleaned raw_text with
  | Ok result =>
      Ok (result,
          mkCostLogEntry (raw_id item) model input_tokens output_tokens
            cost utcnow)
  | Raise KeyError | Raise ValueError =>
      rbind (messages_create
               [("user", prompt); ("assistant", raw_text);
                ("user",
                 "Your response was not valid JSON. "
                 ++ "Please respond with ONLY a valid JSON object.")])
        (fun retry_response =>
      let retry_text := resp_text retry_response in
      let input_tokens' :=
        (input_tokens + resp_input_tokens retry_response)%Z in
      let output_tokens' :=
        (output_tokens + resp_output_tokens retry_response)%Z in
      let cost' :=
        (cost + token_cost (resp_input_tokens retry_response)
                           (resp_output_tokens retry_response))%Q in
      rbind (_parse_enrichment_json float_of_str loads_cleaned retry_text)
        (fun result =>
      Ok (result,
          mkCostLogEntry (raw_id item) model input_tokens' output_tokens'
            cost' utcnow)))
  | Raise e => Raise e
  end).

End Anthropic.

End Providers.

(* ===================================================================== *)
(** ** [enrichment/__init__.py]                                           *)
(* ===================================================================== *)

Module Enricher.

Import Datetime Models SQLiteStore VectorStore.
Local Open Scope string_scope.

(** The settings [_process_one] reads. *)
Record Settings : Type := mkSettings {
  enrichment_daily_budget_usd : Q;
  track_costs : bool          (* settings.enrichment.track_costs *)
}.

(** The calls [_process_one] makes on the two stores, in the order made. *)
Inductive Call : Type :=
| CallLogCost (entry : CostLogEntry)
| CallInsertItem (item : EnrichedItem)
| CallUpsertItem (point_id : string).

(** Both stores, and the journal of the calls made on them. *)
Record World (F : Type) : Type := mkWorld {
  sqlite : Store F;
  vectors : Collection F;
  calls : list Call
}.

Section Enrich.

Variable F : Type.
Variable settings : Settings.

(** [llm.enrich(item)]: the provider's answer, or its exception. *)
Variable llm_enrich : RawItem -> result (EnrichmentResult * CostLogEntry).

(** [embedder.embed_enrichment(result)] and [embedder.model_name]. *)
Variable embed_enrichment : EnrichmentResult -> result (list F).
Variable embedder_model_name : string.

(** Whether Qdrant's [upsert] of that point raises. *)
Variable upsert_error : string -> option exn.

(** [datetime.now(timezone.utc)] when the item is processed. *)
Variable today : RawItem -> datetime.

Definition on_sqlite {A} (m : M (Store F) A) : M (World F) A :=
  fun w =>
    let '(r, st) := m (sqlite w) in
    (r, mkWorld st (vectors w) (calls w)).

Definition record (c : Call) : M (World F) unit :=
  modify (fun w => mkWorld (sqlite w) (vectors w) (calls w ++ [c])%list).

Definition vectors_upsert_item (point_id : string) (vector : list F)
    (payload : list (string * string)) : M (World F) unit :=
  fun w =>
    let w' := mkWorld (sqlite w) (vectors w)
                      (calls w ++ [CallUpsertItem point_id])%list in
    match upsert_error point_id with
    | Some e => (Raise e, w')
    | None =>
        (Ok tt, mkWorld (sqlite w')
                        (upsert_item point_id vector payload (vectors w'))
                        (calls w'))
    end.

(** [try: m except Exception: handler] *)
Definition try_except {A} (m : M (World F) A) (handler : M (World F) A)
  : M (World F) A :=
  fun w =>
    match m w with
    | (Ok a, w') => (Ok a, w')
    | (Raise _, w') => handler w'
    end.

Definition build_enriched (item : RawItem) (result : EnrichmentResult)
    (cost_entry : CostLogEntry) : EnrichedItem :=
  {| item_id := raw_id item;
     item_source_type := raw_source_type item;
     item_source_name := raw_source_name item;
     item_source_url := raw_source_url item;
     item_title := raw_title item;
     item_published_at := raw_published_at item;
     item_ingested_at := raw_ingested_at item;
     item_language := raw_language item;
     item_summary := er_summary result;
     item_entities := er_entities result;
     item_claims := er_claims result;
     item_framing := er_framing result;
     item_sentiment := er_sentiment result;
     item_topic_tags := er_topic_tags result;
     item_embedding_id := raw_id item;
     item_embedding_model := embedder_model_name;
     item_cluster_id := None;
     item_cluster_label := None;
     item_enrichment_model := cost_model cost_entry;
     item_enrichment_cost_usd := cost_usd cost_entry |}.

Local Open Scope py_scope.

(** [_process_one], inside the semaphore. *)
Definition _process_one (item : RawItem) : M (World F) (option EnrichedItem) :=
  daily_cost <- on_sqlite (get_daily_cost (today item)) ;;
  if Qle_bool (enrichment_daily_budget_usd settings) daily_cost
  then ret None
  else
    match llm_enrich item with
    | Raise _ => ret None
    | Ok (result, cost_entry) =>
        (if track_costs settings
         then record (CallLogCost cost_entry) ;;;
              on_sqlite (log_cost cost_entry)
         else ret tt) ;;;
        match embed_enrichment result with
        | Raise _ => ret None
        | Ok vector =>
            let enriched_item := build_enriched item result cost_entry in
            inserted <- try_except
                          (record (CallInsertItem enriched_item) ;;;
                           on_sqlite (insert_item enriched_item) ;;;
                           ret true)
                          (ret false) ;;
            if inserted : bool then
              let payload :=
                [ ("source_type", SourceType_value (raw_source_type item));
                  ("source_name", raw_source_name item);
                  ("published_at", isoformat (raw_published_at item));
                  ("title", match raw_title item with
                            | Some t => t
                            | None => ""
                            end);
                  ("summary", er_summary result) ] in
              vectors_upsert_item (raw_id item) vector payload ;;;
              ret (Some enriched_item)
            else ret None
        end
    end.

(** [enrich_items]: the tasks in list order, one at a time.  A task that
    raised is logged by the caller and contributes no item. *)
Fixpoint enrich_items (raw_items : list RawItem)
  : M (World F) (list EnrichedItem) :=
  match raw_items with
  | [] => ret []
  | item :: rest =>
      fun w =>
        let '(r, w') := _process_one item w in
        match enrich_items rest w' with
        | (Ok enriched, w'') =>
            (Ok match r with
                | Ok (Some e) => e :: enriched
                | _ => enriched
                end, w'')
        | (Raise e, w'') => (Raise e, w'')
        end
  end.

End Enrich.

End Enricher.

(* ===================================================================== *)
(** ** [intelligence/clustering.py]                                       *)
(* ===================================================================== *)

Module Clustering.

Import Datetime Models SQLiteStore VectorStore.
Local Open Scope string_scope.

Record ClusteringConfig : Type := mkClusteringConfig {
  min_cluster_size : Z;
  min_samples : Z;
  rolling_window_days : Z
}.

(** *** Python sets of strings, as duplicate-free lists *)

Definition mem (x : string) (l : list string) : bool :=
  existsb (String.eqb x) l.

Definition py_set (l : list string) : list string := nodup string_dec l.

(** [len(a & b)] and [len(a | b)] *)
Definition inter_size (a b : list string) : nat :=
  List.length (filter (fun x => mem x b) (py_set a)).

Definition union_size (a b : list string) : nat :=
  List.length (py_set (a ++ b)%list).

(** [len(a & b) / len(a | b)], for a non-empty union.  The quotient is
    exact here; the float quotient is its rounding, and the two compare
    alike with each other and with [0.7] for sets of fewer than 2^26
    members. *)
Definition jaccard (a b : list string) : Q :=
  Z.of_nat (inter_size a b) # Pos.of_nat (union_size a b).

(** *** [_bin_sentiment] *)

Definition bump (k : string) (bins : list (string * Z)) : list (string * Z) :=
  map (fun kv => if fst kv =? k then (fst kv, (snd kv + 1)%Z) else kv) bins.

Definition _bin_sentiment (values : list Q) : list (string * Z) :=
  fold_left
    (fun bins v =>
       if Qle_bool v (-(6 # 10)) then bump "very_negative" bins
       else if Qle_bool v (-(2 # 10)) then bump "negative" bins
       else if Qle_bool v (2 # 10) then bump "neutral" bins
       else if Qle_bool v (6 # 10) then bump "positive" bins
       else bump "very_positive" bins)
    values
    [ ("very_negative", 0%Z); ("negative", 0%Z); ("neutral", 0%Z);
      ("positive", 0%Z); ("very_positive", 0%Z) ].

(** *** Dicts of counters and of lists, in insertion order *)

(** [d[k] = d.get(k, 0) + 1] *)
Fixpoint count_up (k : string) (d : list (string * Z)) : list (string * Z) :=
  match d with
  | [] => [(k, 1%Z)]
  | (k', n) :: rest =>
      if k =? k' then (k', (n + 1)%Z) :: rest else (k', n) :: count_up k rest
  end.

(** [d.setdefault(label, []).append(idx)] *)
Fixpoint group_add (label : Z) (idx : nat) (d : list (Z * list nat))
  : list (Z * list nat) :=
  match d with
  | [] => [(label, [idx])]
  | (l, idxs) :: rest =>
      if (l =? label)%Z then (l, (idxs ++ [idx])%list) :: rest
      else (l, idxs) :: group_add label idx rest
  end.

(** Step 3 of [run]: group the indices by label, skipping noise. *)
Definition group_labels (labels : list Z) : list (Z * list nat) :=
  fold_left
    (fun d il => if (snd il =? -1)%Z then d else group_add (snd il) (fst il) d)
    (combine (seq 0 (List.length labels)) labels) [].

(** [list(dict.fromkeys(l))] *)
Fixpoint dedup (l : list string) (seen : list string) : list string :=
  match l with
  | [] => []
  | x :: rest => if mem x seen then dedup rest seen
                 else x :: dedup rest (x :: seen)
  end.

(** [min(dts)], for a non-empty list: the first smallest. *)
Definition min_datetime (d : datetime) (ds : list datetime) : datetime :=
  fold_left (fun m x => match Datetime.compare x m with Lt => x | _ => m end)
            ds d.

(** [[l[i] for i in idxs]] *)
Definition index_all {A} (l : list A) (idxs : list nat) : result (list A) :=
  rmap_list (fun i => match nth_error l i with
                      | Some a => Ok a
                      | None => Raise IndexError
                      end) idxs.

Section Pipeline.

Variable F : Type.
Variable config : ClusteringConfig.

(** External numerical routines.
    [fit_predict mcs ms X]:
      [HDBSCAN(min_cluster_size=mcs, min_samples=ms,
               metric="cosine").fit_predict(X)];
    [mean_axis0 vecs]: [vecs.mean(axis=0).tolist()];
    [argsort_distances vecs c]:
      [np.linalg.norm(vecs - c, axis=1).argsort()]. *)
Variable fit_predict : Z -> Z -> list (list F) -> list Z.
Variable mean_axis0 : list (list F) -> list F.
Variable argsort_distances : list (list F) -> list F -> list nat.

(** [now - timedelta(days=n)] *)
Variable minus_days : datetime -> Z -> datetime.

(** [self.llm]: [None], or the provider's answer to the labelling prompt
    written from the summaries and framings of the items shown. *)
Variable llm : option (list (string * string) -> result EnrichmentResult).

(** [new_id n]: the id [uuid4] gives the [n]-th cluster built in a run. *)
Variable new_id : nat -> string.

(** [s[:80]] (on bytes here, on code points in Python). *)
Definition prefix80 (s : string) : string := substring 0 80 s.

Definition _label_cluster (representative_items : list EnrichedItem)
  : string * string :=
  match llm with
  | None =>
      match representative_items with
      | first :: _ => (prefix80 (item_summary first), item_summary first)
      | [] => ("Unlabeled Cluster", "No representative items.")
      end
  | Some enrich =>
      match enrich (map (fun it => (item_summary it, item_framing it))
                        (firstn 5 representative_items)) with
      | Ok result => (prefix80 (er_summary result), er_summary result)
      | Raise _ =>
          match representative_items with
          | first :: _ => (prefix80 (item_summary first), item_summary first)
          | [] => ("Unlabeled Cluster", "Labeling failed.")
          end
      end
  end.

(** The Jaccard loop of [_match_clusters] over the previous clusters:
    the state is [(best_overlap, best_prev_id)]. *)
Definition best_match (nc_members : list string)
    (previous_clusters : list (NarrativeCluster F))
    (prev_members : list (string * list string))
    (used_prev : list string) : Q * option string :=
  fold_left
    (fun best pc =>
       if mem (cl_id pc) used_prev then best
       else
         let pm := match dict_get (cl_id pc) prev_members with
                   | Some s => s
                   | None => []
                   end in
         match pm with
         | [] => best
         | _ =>
             let overlap := jaccard nc_members pm in
             if LLM.Qltb (fst best) overlap then (overlap, Some (cl_id pc))
             else best
         end)
    previous_clusters (0%Q, None).

Definition inherit (nc : NarrativeCluster F) (id : string)
    (first_seen : datetime) : NarrativeCluster F :=
  {| cl_id := id;
     cl_label := cl_label nc;
     cl_summary := cl_summary nc;
     cl_item_count := cl_item_count nc;
     cl_first_seen := first_seen;
     cl_last_updated := cl_last_updated nc;
     cl_centroid := cl_centroid nc;
     cl_source_distribution := cl_source_distribution nc;
     cl_sentiment_distribution := cl_sentiment_distribution nc;
     cl_key_entities := cl_key_entities nc;
     cl_key_claims := cl_key_claims nc;
     cl_status := ACTIVE;
     cl_parent_cluster_id := cl_parent_cluster_id nc;
     cl_member_ids := cl_member_ids nc |}.

(** The loop [for nc in new_clusters] of [_match_clusters]; the new
    clusters are updated in place, so the loop returns them. *)
Fixpoint match_loop (new_clusters : list (NarrativeCluster F))
    (previous_clusters : list (NarrativeCluster F))
    (prev_members : list (string * list string))
    (used_prev : list string) : list (NarrativeCluster F) :=
  match new_clusters with
  | [] => []
  | nc :: rest =>
      let nc_members := py_set (cl_member_ids nc) in
      match nc_members with
      | [] => nc :: match_loop rest previous_clusters prev_members used_prev
      | _ =>
          let '(best_overlap, best_prev_id) :=
            best_match nc_members previous_clusters prev_members used_prev in
          match best_prev_id with
          | Some id =>
              if LLM.Qltb (7 # 10) best_overlap && negb (id =? "") then
                let first_seen :=
                  match find (fun pc => cl_id pc =? id) previous_clusters with
                  | Some pc => cl_first_seen pc
                  | None => cl_first_seen nc
                  end in
                inherit nc id first_seen
                :: match_loop rest previous_clusters prev_members
                              (id :: used_prev)
              else nc :: match_loop rest previous_clusters prev_members
                                    used_prev
          | None =>
              nc :: match_loop rest previous_clusters prev_members used_prev
          end
      end
  end.

Local Open Scope py_scope.

(** [prev_members[pc.id] = {i.id for i in get_items_by_cluster(pc.id)}] *)
Fixpoint load_prev_members (previous_clusters : list (NarrativeCluster F))
  : M (Store F) (list (string * list string)) :=
  match previous_clusters with
  | [] => ret []
  | pc :: rest =>
      its <- get_items_by_cluster (cl_id pc) ;;
      d <- load_prev_members rest ;;
      ret ((cl_id pc, py_set (map item_id its)) :: d)
  end.

Definition _match_clusters (new_clusters : list (NarrativeCluster F))
    (previous_clusters : list (NarrativeCluster F))
  : M (Store F) (list (NarrativeCluster F)) :=
  match previous_clusters with
  | [] => ret new_clusters
  | _ =>
      prev_members <- load_prev_members previous_clusters ;;
      ret (match_loop new_clusters previous_clusters prev_members [])
  end.

(** Step 4 of [run]: the dict [all_items]. *)
Fixpoint load_items (point_ids : list string)
  : M (Store F) (list (string * EnrichedItem)) :=
  match point_ids with
  | [] => ret []
  | pid :: rest =>
      item <- get_item pid ;;
      d <- load_items rest ;;
      ret match item with
          | Some it => (pid, it) :: d
          | None => d
          end
  end.

(** One turn of the loop of step 5; [None] is the [continue]. *)
Definition build_cluster (now : datetime) (point_ids : list string)
    (X : list (list F)) (all_items : list (string * EnrichedItem))
    (n : nat) (indices : list nat) : result (option (NarrativeCluster F)) :=
  rbind (index_all point_ids indices) (fun member_ids =>
  let member_items :=
    flat_map (fun mid => match dict_get mid all_items with
                         | Some it => [it]
                         | None => []
                         end) member_ids in
  match member_items with
  | [] => Ok None
  | first :: others =>
      rbind (index_all X indices) (fun cluster_vecs =>
      let centroid_list := mean_axis0 cluster_vecs in
      let closest_indices :=
        firstn 5 (argsort_distances cluster_vecs centroid_list) in
      let representative_items :=
        flat_map (fun i => match nth_error member_items i with
                           | Some it => [it]
                           | None => []
                           end) closest_indices in
      let '(label_text, summary_text) :=
        _label_cluster representative_items in
      let source_dist :=
        fold_left (fun d it =>
                     count_up (SourceType_value (item_source_type it)) d)
                  member_items [] in
      let sentiment_dist :=
        _bin_sentiment (map item_sentiment member_items) in
      let entity_counts :=
        fold_left (fun d it =>
                     fold_left (fun d e => count_up (ent_name e) d)
                               (item_entities it) d)
                  member_items [] in
      let all_claims := flat_map item_claims member_items in
      let key_entities :=
        firstn 10 (map fst
          (sort_desc (fun a b => (snd b <=? snd a)%Z) entity_counts)) in
      let key_claims := firstn 10 (dedup all_claims []) in
      Ok (Some
        {| cl_id := new_id n;
           cl_label := label_text;
           cl_summary := summary_text;
           cl_item_count := Z.of_nat (List.length member_items);
           cl_first_seen :=
             min_datetime (item_published_at first)
                          (map item_published_at others);
           cl_last_updated := now;
           cl_centroid := centroid_list;
           cl_source_distribution := source_dist;
           cl_sentiment_distribution := sentiment_dist;
           cl_key_entities := key_entities;
           cl_key_claims := key_claims;
           cl_status := EMERGING;
           cl_parent_cluster_id := None;
           cl_member_ids := member_ids |}))
  end).

(** Step 5 of [run]; [n] counts the clusters built so far. *)
Fixpoint build_clusters (now : datetime) (point_ids : list string)
    (X : list (list F)) (all_items : list (string * EnrichedItem))
    (n : nat) (groups : list (Z * list nat))
  : result (list (NarrativeCluster F)) :=
  match groups with
  | [] => Ok []
  | (_, indices) :: rest =>
      rbind (build_cluster now point_ids X all_items n indices) (fun oc =>
      match oc with
      | None => build_clusters now point_ids X all_items n rest
      | Some c =>
          rbind (build_clusters now point_ids X all_items (S n) rest)
                (fun cs => Ok (c :: cs))
      end)
  end.

(** Step 7 of [run]; [assigned_at] is stamped with the clock of the run. *)
Definition persist (now : datetime)
    (new_clusters previous_clusters : list (NarrativeCluster F))
  : M (Store F) unit :=
  clear_cluster_memberships ;;;
  for_each new_clusters (fun cluster =>
    upsert_cluster cluster ;;;
    for_each (cl_member_ids cluster) (fun mid =>
      set_cluster_membership now mid (cl_id cluster) ;;;
      update_item_cluster mid (cl_id cluster) (cl_label cluster))) ;;;
  for_each previous_clusters (fun prev =>
    if mem (cl_id prev) (map (@cl_id F) new_clusters) then ret tt
    else update_cluster_status (cl_id prev) (ClusterStatus_value FADING)).

(** [ClusteringPipeline.run]; [now] is the clock reading of the run and
    [vectors] the Qdrant collection it scrolls. *)
Definition run (now : datetime) (vectors : Collection F)
  : M (Store F) (list (NarrativeCluster F)) :=
  let since := minus_days now (rolling_window_days config) in
  let since_str := isoformat since in
  let '(point_ids, vectors_list) :=
    get_all_vectors (Some since_str) vectors in
  if (Z.of_nat (List.length point_ids) <? min_cluster_size config)%Z
  then ret []
  else
    let X := vectors_list in
    let labels :=
      fit_predict (min_cluster_size config) (min_samples config) X in
    let cluster_groups := group_labels labels in
    all_items <- load_items point_ids ;;
    new_clusters <- lift (build_clusters now point_ids X all_items 0
                                         cluster_groups) ;;
    previous_clusters <- get_active_clusters ;;
    new_clusters <- _match_clusters new_clusters previous_clusters ;;
    persist now new_clusters previous_clusters ;;;
    ret new_clusters.

End Pipeline.

End Clustering.

(* ===================================================================== *)
(** ** [intelligence/divergence.py]                                       *)
(* ===================================================================== *)

Module Divergence.

Import Datetime Models SQLiteStore VectorStore.
Local Open Scope string_scope.
Local Open Scope R_scope.

(** One dict appended to [divergences]. *)
Record Record_ : Type := mkRecord {
  d_cluster_id : string;
  d_cluster_label : string;
  d_source_a : string;
  d_source_b : string;
  d_cosine_distance : R;
  d_description : string
}.

(** *** numpy on vectors of real numbers

    binary64 arithmetic is read as arithmetic on real numbers: the
    rounding error of numpy is not modelled. *)

(** [np.dot(a, b)] *)
Fixpoint dot (a b : list R) : R :=
  match a, b with
  | x :: a', y :: b' => x * y + dot a' b'
  | _, _ => 0
  end.

(** [np.linalg.norm(a)] *)
Definition norm (a : list R) : R := sqrt (dot a a).

Fixpoint vec_add (a b : list R) : list R :=
  match a, b with
  | x :: a', y :: b' => (x + y) :: vec_add a' b'
  | _, _ => []
  end.

(** [np.mean(vecs, axis=0)] of a non-empty list of vectors of one
    dimension: the sum of the rows over their number. *)
Definition mean_axis0 (first : list R) (others : list (list R)) : list R :=
  map (fun x => x / INR (S (List.length others)))
      (fold_left vec_add others first).

(** The integer nearest to [y], ties to the even one. *)
Definition round_half_even (y : R) : Z :=
  let n := Int_part y in
  let frac := y - IZR n in
  if Rlt_dec frac (1 / 2) then n
  else if Rlt_dec (1 / 2) frac then (n + 1)%Z
  else if Z.even n then n else (n + 1)%Z.

(** [round(x, 4)] *)
Definition round4 (x : R) : R := IZR (round_half_even (x * 10000)) / 10000.

(** [d.setdefault(key, []).append(v)] *)
Fixpoint group_append (key v : string) (d : list (string * list string))
  : list (string * list string) :=
  match d with
  | [] => [(key, [v])]
  | (k, vs) :: rest =>
      if k =? key then (k, (vs ++ [v])%list) :: rest
      else (k, vs) :: group_append key v rest
  end.

Section Detector.

(** [self.threshold] *)
Variable threshold : R.

(** [f"{x:.3f}"] *)
Variable format_3f : R -> string.

Definition cos_dist (va vb : list R) : R :=
  let cos_sim := dot va vb / (norm va * norm vb + / 10000000000) in
  1 - cos_sim.

Definition make_record (cluster : NarrativeCluster R)
    (sa sb : string) (d : R) : Record_ :=
  {| d_cluster_id := cl_id cluster;
     d_cluster_label := cl_label cluster;
     d_source_a := sa;
     d_source_b := sb;
     d_cosine_distance := round4 d;
     d_description :=
       ("'" ++ sa ++ "' and '" ++ sb ++ "' sources diverge on '"
        ++ cl_label cluster ++ "' (distance=" ++ format_3f d ++ ")")%string
  |}.

(** The body of the inner loop, for one pair. *)
Definition compare_pair (cluster : NarrativeCluster R)
    (a b : string * list R) : list Record_ :=
  if Rlt_dec threshold (cos_dist (snd a) (snd b))
  then [make_record cluster (fst a) (fst b) (cos_dist (snd a) (snd b))]
  else [].

(** [for i in range(len(sources)): for j in range(i + 1, len(sources))] *)
Definition compare_all_pairs (cluster : NarrativeCluster R)
    (sub_centroids : list (string * list R)) : list Record_ :=
  let n := List.length sub_centroids in
  flat_map
    (fun i =>
       flat_map
         (fun j =>
            match nth_error sub_centroids i, nth_error sub_centroids j with
            | Some a, Some b => compare_pair cluster a b
            | _, _ => []
            end)
         (seq (S i) (n - S i)))
    (seq 0 n).

Definition source_groups (its : list EnrichedItem)
  : list (string * list string) :=
  fold_left
    (fun d it => group_append (SourceType_value (item_source_type it))
                              (item_embedding_id it) d)
    its [].

Definition sub_centroids_of (groups : list (string * list string))
    (vectors_map : list (string * list R)) : list (string * list R) :=
  flat_map
    (fun g =>
       let vecs := flat_map (fun eid => match dict_get eid vectors_map with
                                        | Some v => [v]
                                        | None => []
                                        end) (snd g) in
       match vecs with
       | [] => []
       | first :: others => [(fst g, mean_axis0 first others)]
       end)
    groups.

(** The body of [for cluster in clusters], given the cluster's items. *)
Definition detect_cluster (cluster : NarrativeCluster R)
    (its : list EnrichedItem) (vectors : Collection R) : list Record_ :=
  if (List.length its <? 3)%nat then []
  else
    let groups := source_groups its in
    if (List.length groups <? 2)%nat then []
    else
      let all_ids := flat_map snd groups in
      let vectors_map := get_vectors_by_ids all_ids vectors in
      let sub_centroids := sub_centroids_of groups vectors_map in
      if (List.length sub_centroids <? 2)%nat then []
      else compare_all_pairs cluster sub_centroids.


End Detector.

End Divergence.

(* ===================================================================== *)
(** ** [sources/__init__.py]                                              *)
(* ===================================================================== *)

Module Sources.

Import Models SQLiteStore.

(** The loop of [deduplicate]: [new] is the list built so far.
    [item_url_exists] only reads the store. *)
Fixpoint dedup_loop {F} (items : list RawItem) (store : Store F)
    (new : list RawItem) : list RawItem :=
  match items with
  | [] => new
  | item :: rest =>
      match fst (item_url_exists (raw_source_url item) store) with
      | Ok false => dedup_loop rest store (new ++ [item])
      | _ => dedup_loop rest store new
      end
  end.

Definition deduplicate {F} (items : list RawItem) (store : Store F)
  : list RawItem :=
  dedup_loop items store [].

End Sources.

(* ===================================================================== *)
(** ** [intelligence/anomalies.py]                                        *)
(* ===================================================================== *)

Module Anomalies.

Import Datetime Models SQLiteStore.
Local Open Scope string_scope.

(** The dict appended for a volume spike. *)
Record VolumeSpike : Type := mkVolumeSpike {
  vs_cluster_id : string;
  vs_cluster_label : string;
  vs_recent_6h_count : Z;
  vs_avg_hourly_7d : Q;
  vs_spike_ratio : Q;
  vs_description : string
}.

(** The dict appended for a sentiment shift. *)
Record SentimentShift : Type := mkSentimentShift {
  ss_cluster_id : string;
  ss_cluster_label : string;
  ss_sentiment_before : Q;
  ss_sentiment_after : Q;
  ss_shift : Q;
  ss_description : string
}.

(** The dict appended for an entity surge. *)
Record EntitySurge : Type := mkEntitySurge {
  es_entity_name : string;
  es_count_6h : Z;
  es_description : string
}.

(** The integer nearest to [y], ties to the even one; floats are read as
    the rationals they stand for. *)
Definition round_half_even (y : Q) : Z :=
  let n := Qfloor y in
  let frac := (y - inject_Z n)%Q in
  if LLM.Qltb frac (1 # 2) then n
  else if LLM.Qltb (1 # 2) frac then (n + 1)%Z
  else if Z.even n then n else (n + 1)%Z.

(** [round(x, digits)] *)
Definition round_to (digits : nat) (x : Q) : Q :=
  (inject_Z (round_half_even (x * inject_Z (10 ^ Z.of_nat digits)))
   / inject_Z (10 ^ Z.of_nat digits))%Q.

(** [sum(1 for i in items if i.published_at >= t)] *)
Definition count_since (t : datetime) (its : list EnrichedItem) : Z :=
  Z.of_nat (List.length
              (filter (fun i => Datetime.leb t (item_published_at i)) its)).

(** [sum(xs) / len(xs)], for a non-empty list. *)
Definition mean (xs : list Q) : Q :=
  (fold_left Qplus xs 0 / inject_Z (Z.of_nat (List.length xs)))%Q.

Section Detector.

Variable F : Type.

(** [now - timedelta(hours=n)] and [now - timedelta(days=n)] *)
Variable minus_hours : datetime -> Z -> datetime.
Variable minus_days : datetime -> Z -> datetime.

(** [str(n)] for an [int], and [f"{x:.1f}"], [f"{x:.2f}"] *)
Variable str_int : Z -> string.
Variable format_1f : Q -> string.
Variable format_2f : Q -> string.

(** The body of the loop of [detect_volume_spikes], given the items of
    the cluster. *)
Definition volume_spike_of (now : datetime) (cluster : NarrativeCluster F)
    (its : list EnrichedItem) : list VolumeSpike :=
  let six_hours_ago := minus_hours now 6 in
  let seven_days_ago := minus_days now 7 in
  match its with
  | [] => []
  | _ =>
      let recent_count := count_since six_hours_ago its in
      let week_count := count_since seven_days_ago its in
      let avg_hourly :=
        if (0 <? week_count)%Z then (inject_Z week_count / 168)%Q
        else 0%Q in
      let six_hour_rate := (inject_Z recent_count / 6)%Q in
      if LLM.Qltb 0 avg_hourly && LLM.Qltb (3 * avg_hourly) six_hour_rate
      then
        [ {| vs_cluster_id := cl_id cluster;
             vs_cluster_label := cl_label cluster;
             vs_recent_6h_count := recent_count;
             vs_avg_hourly_7d := round_to 2 avg_hourly;
             vs_spike_ratio := round_to 2 (six_hour_rate / avg_hourly);
             vs_description :=
               "Volume spike in '" ++ cl_label cluster ++ "': "
               ++ str_int recent_count ++ " items in 6h vs "
               ++ format_1f avg_hourly ++ "/h avg" |} ]
      else []
  end.

(** [AnomalyDetector.detect_volume_spikes]; [now] is read once. *)
Fixpoint detect_volume_spikes (now : datetime)
    (clusters : list (NarrativeCluster F)) (sqlite : Store F)
  : result (list VolumeSpike) :=
  match clusters with
  | [] => Ok []
  | cluster :: rest =>
      rbind (fst (get_items_by_cluster (cl_id cluster) sqlite)) (fun its =>
      rbind (detect_volume_spikes now rest sqlite) (fun anomalies =>
      Ok (volume_spike_of now cluster its ++ anomalies)%list))
  end.

(** The body of the loop of [detect_sentiment_shifts]. *)
Definition sentiment_shift_of (now : datetime) (cluster : NarrativeCluster F)
    (its : list EnrichedItem) : list SentimentShift :=
  let one_day_ago := minus_hours now 24 in
  let two_days_ago := minus_hours now 48 in
  let recent :=
    map item_sentiment
        (filter (fun i => Datetime.leb one_day_ago (item_published_at i))
                its) in
  let older :=
    map item_sentiment
        (filter (fun i =>
                   Datetime.leb two_days_ago (item_published_at i)
                   && negb (Datetime.leb one_day_ago (item_published_at i)))
                its) in
  match recent, older with
  | [], _ | _, [] => []
  | _, _ =>
      let avg_recent := mean recent in
      let avg_older := mean older in
      let shift := (avg_recent - avg_older)%Q in
      if LLM.Qltb (5 # 10) (Qabs shift)
      then
        [ {| ss_cluster_id := cl_id cluster;
             ss_cluster_label := cl_label cluster;
             ss_sentiment_before := round_to 3 avg_older;
             ss_sentiment_after := round_to 3 avg_recent;
             ss_shift := round_to 3 shift;
             ss_description :=
               "Sentiment shift in '" ++ cl_label cluster ++ "': "
               ++ format_2f avg_older ++ " -> " ++ format_2f avg_recent
               ++ " (" ++ (if LLM.Qltb 0 shift then "+" else "")
               ++ format_2f shift ++ ")" |} ]
      else []
  end.

(** [AnomalyDetector.detect_sentiment_shifts] *)
Fixpoint detect_sentiment_shifts (now : datetime)
    (clusters : list (NarrativeCluster F)) (sqlite : Store F)
  : result (list SentimentShift) :=
  match clusters with
  | [] => Ok []
  | cluster :: rest =>
      rbind (fst (get_items_by_cluster (cl_id cluster) sqlite)) (fun its =>
      rbind (detect_sentiment_shifts now rest sqlite) (fun anomalies =>
      Ok (sentiment_shift_of now cluster its ++ anomalies)%list))
  end.

(** The dict [entity_items] of [detect_entity_surges]. *)
Definition entity_items_of (recent_items : list EnrichedItem)
  : list (string * Z) :=
  fold_left (fun d it =>
               fold_left (fun d e => Clustering.count_up (ent_name e) d)
                         (item_entities it) d)
            recent_items [].

(** [AnomalyDetector.detect_entity_surges] *)
Definition detect_entity_surges (now : datetime) (sqlite : Store F)
  : result (list EntitySurge) :=
  let six_hours_ago := minus_hours now 6 in
  rbind (fst (get_items (Some six_hours_ago) 1000 None sqlite))
    (fun recent_items =>
  Ok (flat_map
        (fun kv =>
           if (10 <? snd kv)%Z
           then [ {| es_entity_name := fst kv;
                     es_count_6h := snd kv;
                     es_description :=
                       "Entity surge: '" ++ fst kv ++ "' in "
                       ++ str_int (snd kv) ++ " items in 6h" |} ]
           else [])
        (entity_items_of recent_items))).

End Detector.

End Anomalies.

(* ===================================================================== *)
(** ** Vocabulary of the specification                                    *)
(* ===================================================================== *)

Module Spec.

Import Datetime Models Json SQLiteStore.
Local Open Scope Z_scope.

(** [q] clamped to the interval from -1 to 1. *)
Definition clamp (q : Q) : Q :=
  if Qlt_le_dec q (-1) then (-1)%Q
  else if Qlt_le_dec 1 q then 1%Q
  else q.

(** The entity object has a [type], resp. a [role], that is not the value
    of a member of the enum. *)
Definition unknown_type (ekvs : list (string * json)) : Prop :=
  exists v, lookup "type" ekvs = Some v
            /\ forall t, v <> JString (EntityType_value t).

Definition unknown_role (ekvs : list (string * json)) : Prop :=
  exists v, lookup "role" ekvs = Some v
            /\ forall r, v <> JString (EntityRole_value r).


(** The table [items] holds a row with that id / with that url. *)
Definition has_id {F} (id : string) (st : Store F) : bool :=
  existsb (fun r => String.eqb (col_id r) id) (items st).

Definition has_url {F} (url : string) (st : Store F) : bool :=
  existsb (fun r => String.eqb (col_source_url r) url) (items st).

(** The constraints the schema declares on [items]: [id] is the primary
    key and [source_url] is [UNIQUE]. *)
Definition constraints_hold {F} (st : Store F) : Prop :=
  NoDup (map col_id (items st)) /\ NoDup (map col_source_url (items st)).

(** Every row of [items] decodes, as the rows [insert_item] writes do. *)
Definition rows_decodable {F} (st : Store F) : Prop :=
  Forall (fun r => exists it, _row_to_item r = Ok it) (items st).

(** The ids of the items stored under a cluster: what the next run reads
    back as the member set of that cluster. *)
Definition stored_members {F} (st : Store F) (cluster_id : string)
  : list string :=
  map col_id (get_items_by_cluster_rows cluster_id st).

(** The dict [prev_members] that [_match_clusters] builds from the store. *)
Definition members_dict {F} (st : Store F)
    (prevs : list (NarrativeCluster F)) : list (string * list string) :=
  map (fun pc => (cl_id pc,
                  Clustering.py_set (stored_members st (cl_id pc)))) prevs.

(** The unordered pairs of the elements of a list, each once, the earlier
    element first. *)
Fixpoint unordered_pairs {A} (l : list A) : list (A * A) :=
  match l with
  | [] => []
  | a :: rest => (map (pair a) rest ++ unordered_pairs rest)%list
  end.

(** A cluster as the table can hold it: without the attribute
    [_member_ids]. *)
Definition without_members {F} (c : NarrativeCluster F) : NarrativeCluster F :=
  {| cl_id := cl_id c;
     cl_label := cl_label c;
     cl_summary := cl_summary c;
     cl_item_count := cl_item_count c;
     cl_first_seen := cl_first_seen c;
     cl_last_updated := cl_last_updated c;
     cl_centroid := cl_centroid c;
     cl_source_distribution := cl_source_distribution c;
     cl_sentiment_distribution := cl_sentiment_distribution c;
     cl_key_entities := cl_key_entities c;
     cl_key_claims := cl_key_claims c;
     cl_status := cl_status c;
     cl_parent_cluster_id := cl_parent_cluster_id c;
     cl_member_ids := [] |}.

(** The row is older than [before] and not yet archived: what
    [archive_old_items] flips. *)
Definition to_archive (before : datetime) (r : ItemRow) : bool :=
  String.ltb (col_published_at r) (_dt_to_str before)
  && negb (col_archived r).

(** The relation a boolean comparison decides. *)
Definition holds {A} (cmp : A -> A -> bool) (x y : A) : Prop :=
  cmp x y = true.



(** The positions of a label in the list of labels, ascending. *)
Definition indices_of (label : Z) (labels : list Z) : list nat :=
  filter (fun i => nth i labels (-1) =? label)
         (seq 0%nat (List.length labels)).

(** Every point of the vector collection belongs to an item of the
    metadata store. *)
Definition vectors_have_items {F} (w : Enricher.World F) : Prop :=
  forall id, In id (map (@VectorStore.pt_id F) (Enricher.vectors w)) ->
             has_id id (Enricher.sqlite w) = true.

End Spec.

(* ===================================================================== *)
(** ** Concrete scenarios                                                 *)
(* ===================================================================== *)

Module Scenario.

Import Datetime Models Json SQLiteStore VectorStore.
Local Open Scope string_scope.

(** *** Three cost entries today, one yesterday *)

Definition now : datetime := mkdt 2025 6 15 12 30 0 0.

Definition cost_entry (id : string) (usd : Q) (at_ : datetime) : CostLogEntry :=
  mkCostLogEntry id "claude-haiku-4-5-20251001" 500 200 usd at_.

Definition cost_1 : CostLogEntry :=
  cost_entry "c1" (1 # 100) (mkdt 2025 6 15 12 30 0 101).


(** *** Two items with one id, two items with one url *)

Definition article (id url : string) : EnrichedItem :=
  {| item_id := id;
     item_source_type := RSS;
     item_source_name := "Test Feed";
     item_source_url := url;
     item_title := Some "Test Article";
     item_published_at := now;
     item_ingested_at := now;
     item_language := "en";
     item_summary := "A test summary.";
     item_entities := [mkEntity "Test Org" ORG SUBJECT ["TO"]];
     item_claims := ["Test claim one"; "Test claim two"];
     item_framing := "neutral reporting";
     item_sentiment := 1 # 10;
     item_topic_tags := ["testing"; "demo"];
     item_embedding_id := id;
     item_embedding_model := "all-MiniLM-L6-v2";
     item_cluster_id := None;
     item_cluster_label := None;
     item_enrichment_model := "claude-haiku-4-5-20251001";
     item_enrichment_cost_usd := 1 # 1000 |}.

Definition item_a : EnrichedItem := article "a" "https://example.com/1".

(** The id of [item_a], another url. *)
Definition item_same_id : EnrichedItem := article "a" "https://example.com/2".

(** The url of [item_a], another id. *)
Definition item_same_url : EnrichedItem := article "b" "https://example.com/1".

Definition fresh_item : EnrichedItem := article "c" "https://example.com/3".

Definition store_a : Store Q := snd (insert_item item_a (empty_store Q)).

(** *** An LLM answer with an entity of unknown type *)

Definition good_entity : json :=
  JObject [("name", JString "Good"); ("type", JString "person");
           ("role", JString "subject")].

Definition bad_entity_fields : list (string * json) :=
  [("name", JString "Bad"); ("type", JString "invalid_type");
   ("role", JString "subject")].

Definition place_entity : json :=
  JObject [("name", JString "Paris"); ("type", JString "place");
           ("role", JString "location"); ("aliases", JList [])].

Definition answer (entities : list json) (sentiment : Q)
  : list (string * json) :=
  [("summary", JString "test"); ("entities", JList entities);
   ("claims", JList [JString "a claim"]); ("framing", JString "test");
   ("sentiment", JNum sentiment); ("topic_tags", JList [])].

(** *** A model that answers with valid JSON only when asked again *)

Definition loads_good_only (raw : string) : result json :=
  if raw =? "good" then Ok (JObject (answer [] 3))
  else if raw =? "list" then Ok (JList [])
  else Raise ValueError.

Definition second_time_right (messages : list (string * string))
  : result Providers.Response :=
  match messages with
  | [_] => Ok (Providers.mkResponse "bad" 100 20)
  | _ => Ok (Providers.mkResponse "good" 150 30)
  end.

Definition answers_a_list (messages : list (string * string))
  : result Providers.Response :=
  Ok (Providers.mkResponse "list" 100 20).

(** *** One item that names the same entity eleven times *)

Definition echo_item : EnrichedItem :=
  {| item_id := "echo";
     item_source_type := RSS;
     item_source_name := "Test Feed";
     item_source_url := "https://example.com/echo";
     item_title := None;
     item_published_at := now;
     item_ingested_at := now;
     item_language := "en";
     item_summary := "A test summary.";
     item_entities := repeat (mkEntity "NATO" ORG MENTIONED []) 11;
     item_claims := [];
     item_framing := "neutral reporting";
     item_sentiment := 0;
     item_topic_tags := [];
     item_embedding_id := "echo";
     item_embedding_model := "all-MiniLM-L6-v2";
     item_cluster_id := Some "c1";
     item_cluster_label := Some "label";
     item_enrichment_model := "claude-haiku-4-5-20251001";
     item_enrichment_cost_usd := 0 |}.

Definition echo_store : Store Q :=
  snd (insert_item echo_item (empty_store Q)).

(** *** A batch with one url twice *)

Definition raw (id url : string) : RawItem :=
  mkRawItem id RSS "test" url None "test content" now now "en".

Definition raw_new_1 : RawItem := raw "r1" "https://example.com/new".
Definition raw_new_2 : RawItem := raw "r2" "https://example.com/new".
Definition raw_stored : RawItem := raw "r3" "https://example.com/1".

(** *** One item through the enricher *)

Definition llm_answer : EnrichmentResult :=
  mkEnrichmentResult "A test summary." [mkEntity "Test Org" ORG SUBJECT ["TO"]]
    ["Test claim one"] "neutral reporting" (1 # 10) ["testing"].

Definition llm_ok (item : RawItem)
  : result (EnrichmentResult * CostLogEntry) :=
  Ok (llm_answer, cost_1).

Definition embed_ok (r : EnrichmentResult) : result (list Q) :=
  Ok [1%Q; 0%Q].


Definition tracking : Enricher.Settings := Enricher.mkSettings 2 true.

Definition empty_world : Enricher.World Q :=
  Enricher.mkWorld (empty_store Q) [] [].


(** *** A window of two vectors, and a second clustering run *)

Definition two_points : Collection Q :=
  upsert_item "b" [0%Q; 1%Q] [("published_at", isoformat now)]
    (upsert_item "a" [1%Q; 0%Q] [("published_at", isoformat now)] []).

Definition default_config : Clustering.ClusteringConfig :=
  Clustering.mkClusteringConfig 5 4 30.

(** A run of the pipeline with stand-ins for the numerical routines. *)
Definition run_small_window
  : result (list (NarrativeCluster Q)) * Store Q :=
  Clustering.run default_config
    (fun _ _ X => map (fun _ => 0%Z) X) (fun _ => []) (fun _ _ => [])
    (fun d _ => mkdt 2025 5 16 12 30 0 0) None (fun _ => "fresh")
    now two_points store_a.

Definition member (id cluster_id : string) : EnrichedItem :=
  {| item_id := id;
     item_source_type := RSS;
     item_source_name := "Test Feed";
     item_source_url := "https://example.com/" ++ id;
     item_title := None;
     item_published_at := now;
     item_ingested_at := now;
     item_language := "en";
     item_summary := "A test summary.";
     item_entities := [];
     item_claims := [];
     item_framing := "neutral reporting";
     item_sentiment := 0;
     item_topic_tags := [];
     item_embedding_id := id;
     item_embedding_model := "all-MiniLM-L6-v2";
     item_cluster_id := Some cluster_id;
     item_cluster_label := Some "label";
     item_enrichment_model := "claude-haiku-4-5-20251001";
     item_enrichment_cost_usd := 0 |}.

Definition cluster (id : string) (first_seen : datetime)
    (status : ClusterStatus) (member_ids : list string) : NarrativeCluster Q :=
  {| cl_id := id;
     cl_label := "label";
     cl_summary := "summary";
     cl_item_count := Z.of_nat (List.length member_ids);
     cl_first_seen := first_seen;
     cl_last_updated := now;
     cl_centroid := [];
     cl_source_distribution := [];
     cl_sentiment_distribution := [];
     cl_key_entities := [];
     cl_key_claims := [];
     cl_status := status;
     cl_parent_cluster_id := None;
     cl_member_ids := member_ids |}.

Definition first_seen_1 : datetime := mkdt 2025 6 1 8 0 0 0.
Definition first_seen_2 : datetime := mkdt 2025 6 2 9 0 0 0.

(** The first run left two clusters, [p1] and [p2]. *)
Definition prev_1 : NarrativeCluster Q := cluster "p1" first_seen_1 EMERGING [].
Definition prev_2 : NarrativeCluster Q := cluster "p2" first_seen_2 ACTIVE [].

Definition after_first_run : Store Q :=
  fold_left (fun st it => snd (insert_item it st))
    [member "i1" "p1"; member "i2" "p1"; member "i3" "p2";
     member "i4" "p2"; member "i5" "p2"]
    (snd (upsert_cluster prev_2 (snd (upsert_cluster prev_1 (empty_store Q))))).

(** The second run builds the same two groups, largest first. *)
Definition new_1 : NarrativeCluster Q :=
  cluster "n1" now EMERGING ["i5"; "i3"; "i4"].
Definition new_2 : NarrativeCluster Q :=
  cluster "n2" now EMERGING ["i1"; "i2"].

(** A previous cluster of ten items, and a new group holding seven of
    them: an overlap of exactly 0.7. *)
Definition prev_ten : NarrativeCluster Q :=
  cluster "p10" first_seen_1 ACTIVE [].

Definition ten_ids : list string :=
  ["t0"; "t1"; "t2"; "t3"; "t4"; "t5"; "t6"; "t7"; "t8"; "t9"].

Definition after_ten : Store Q :=
  fold_left (fun st it => snd (insert_item it st))
    (map (fun id => member id "p10") ten_ids)
    (snd (upsert_cluster prev_ten (empty_store Q))).

Definition new_seven : NarrativeCluster Q :=
  cluster "n7" now EMERGING (firstn 7 ten_ids).

(** *** Five RSS items at [u], five GDELT items at [-u], one cluster *)







End Scenario.

(* ===================================================================== *)
(** * Theorems                                                            *)
(* ===================================================================== *)

(* ===================================================================== *)
(** ** [isoformat]: byte order is chronological order, and parsing inverts
       rendering                                                        *)
(* ===================================================================== *)

Module DatetimeFacts.
Import Datetime.
Local Open Scope string_scope.
Local Open Scope Z_scope.

Lemma digit_cases (x : Z) : 0 <= x < 10 ->
  x = 0 \/ x = 1 \/ x = 2 \/ x = 3 \/ x = 4 \/ x = 5 \/ x = 6 \/ x = 7 \/ x = 8 \/ x = 9.
Proof. lia. Qed.

Lemma digit_compare (x y : Z) :
  0 <= x < 10 -> 0 <= y < 10 -> Ascii.compare (digit x) (digit y) = (x ?= y).
Proof.
  intros Hx Hy.
  destruct (digit_cases Hx) as [->|[->|[->|[->|[->|[->|[->|[->|[->| ->]]]]]]]]];
  destruct (digit_cases Hy) as [->|[->|[->|[->|[->|[->|[->|[->|[->| ->]]]]]]]]];
  reflexivity.
Qed.

Lemma digit_val_digit (x : Z) : 0 <= x < 10 -> digit_val (digit x) = Some x.
Proof.
  intros Hx.
  destruct (digit_cases Hx) as [->|[->|[->|[->|[->|[->|[->|[->|[->| ->]]]]]]]]];
  reflexivity.
Qed.

Lemma lex_compare_digits (P da db ra rb : Z) :
  0 <= ra < P -> 0 <= rb < P ->
  lex (da ?= db) (ra ?= rb) = (ra + P * da ?= rb + P * db).
Proof.
  intros Ha Hb.
  destruct (Z.compare_spec da db) as [->|H|H]; simpl.
  - destruct (Z.compare_spec ra rb); symmetry;
      [apply Z.compare_eq_iff | apply Z.compare_lt_iff | apply Z.compare_gt_iff]; lia.
  - symmetry; apply Z.compare_lt_iff. nia.
  - symmetry; apply Z.compare_gt_iff. nia.
Qed.

Lemma lex_assoc (a b c : comparison) : lex (lex a b) c = lex a (lex b c).
Proof. destruct a; reflexivity. Qed.

Lemma mod_pow_succ (a : Z) (w : nat) :
  a mod 10 ^ Z.of_nat (S w)
  = a mod 10 ^ Z.of_nat w + 10 ^ Z.of_nat w * ((a / 10 ^ Z.of_nat w) mod 10).
Proof.
  rewrite Nat2Z.inj_succ, Z.pow_succ_r by lia.
  rewrite (Z.mul_comm 10).
  apply Z.rem_mul_r; [|lia].
  apply Z.pow_nonzero; lia.
Qed.

Lemma zpad_compare (w : nat) : forall (a b : Z) (s t : string),
  String.compare (zpad w a ++ s) (zpad w b ++ t)
  = lex (a mod 10 ^ Z.of_nat w ?= b mod 10 ^ Z.of_nat w) (String.compare s t).
Proof.
  induction w as [|w IH]; intros a b s t.
  - simpl. rewrite !Z.mod_1_r. reflexivity.
  - cbn [zpad append String.compare].
    rewrite digit_compare by (apply Z.mod_pos_bound; lia).
    rewrite !mod_pow_succ.
    assert (HP : 0 < 10 ^ Z.of_nat w) by (apply Z.pow_pos_nonneg; lia).
    rewrite <- lex_compare_digits
      by (apply Z.mod_pos_bound; exact HP).
    rewrite lex_assoc.
    destruct (_ mod 10 ?= _ mod 10) eqn:E; simpl; try reflexivity.
    apply IH.
Qed.

Lemma zpad_compare_small (w : nat) (a b : Z) (s t : string) :
  0 <= a < 10 ^ Z.of_nat w -> 0 <= b < 10 ^ Z.of_nat w ->
  String.compare (zpad w a ++ s) (zpad w b ++ t)
  = lex (a ?= b) (String.compare s t).
Proof.
  intros Ha Hb. rewrite zpad_compare, !Z.mod_small by assumption. reflexivity.
Qed.


Lemma lex_Eq_r (c : comparison) : lex c Eq = c.
Proof. destruct c; reflexivity. Qed.

(** The field bounds that [valid] gives, in the form the digit lemmas use. *)
Lemma valid_bounds (d : datetime) :
  valid d = true ->
  0 <= year d < 10 ^ Z.of_nat 4 /\ 0 <= month d < 10 ^ Z.of_nat 2 /\
  0 <= day d < 10 ^ Z.of_nat 2 /\ 0 <= hour d < 10 ^ Z.of_nat 2 /\
  0 <= minute d < 10 ^ Z.of_nat 2 /\ 0 <= second d < 10 ^ Z.of_nat 2 /\
  0 <= microsecond d < 10 ^ Z.of_nat 6.
Proof.
  unfold valid. intros H.
  repeat (apply andb_prop in H; destruct H as [H ?]).
  assert (Hdim : days_in_month (year d) (month d) <= 31).
  { unfold days_in_month.
    destruct (month d =? 2); [destruct (is_leap (year d)); lia|].
    destruct ((month d =? 4) || (month d =? 6) || (month d =? 9)
              || (month d =? 11))%bool; lia. }
  change (10 ^ Z.of_nat 4) with 10000. change (10 ^ Z.of_nat 2) with 100.
  change (10 ^ Z.of_nat 6) with 1000000.
  lia.
Qed.

Lemma tail_compare (ua ub : Z) :
  0 <= ua < 10 ^ Z.of_nat 6 -> 0 <= ub < 10 ^ Z.of_nat 6 ->
  String.compare
    ((if ua =? 0 then "" else "." ++ zpad 6 ua) ++ "+00:00")
    ((if ub =? 0 then "" else "." ++ zpad 6 ub) ++ "+00:00")
  = (ua ?= ub).
Proof.
  intros Ha Hb.
  destruct (Z.eqb_spec ua 0) as [->|Na], (Z.eqb_spec ub 0) as [->|Nb].
  - reflexivity.
  - cbn [append String.compare]. change (Ascii.compare "+" ".") with Lt.
    symmetry. apply Z.compare_lt_iff. lia.
  - cbn [append String.compare]. change (Ascii.compare "." "+") with Gt.
    symmetry. apply Z.compare_gt_iff. lia.
  - cbn [append String.compare]. change (Ascii.compare "." ".") with Eq.
    cbv iota.
    rewrite zpad_compare_small by assumption.
    change (String.compare "+00:00" "+00:00") with Eq.
    apply lex_Eq_r.
Qed.

(** On valid UTC datetimes the byte order of the [isoformat] strings, the
    order SQLite's [TEXT] comparison uses, is the chronological order. *)
Lemma isoformat_compare (a b : datetime) :
  valid a = true -> valid b = true ->
  String.compare (isoformat a) (isoformat b) = Datetime.compare a b.
Proof.
  intros Va Vb.
  destruct (valid_bounds a Va) as (Ya & Ma & Da & Ha & Mia & Sa & Ua).
  destruct (valid_bounds b Vb) as (Yb & Mb & Db & Hb & Mib & Sb & Ub).
  unfold isoformat, Datetime.compare.
  rewrite zpad_compare_small by assumption. f_equal.
  cbn [append String.compare]. change (Ascii.compare "-" "-") with Eq. cbv iota.
  rewrite zpad_compare_small by assumption. f_equal.
  cbn [append String.compare]. change (Ascii.compare "-" "-") with Eq. cbv iota.
  rewrite zpad_compare_small by assumption. f_equal.
  cbn [append String.compare]. change (Ascii.compare "T" "T") with Eq. cbv iota.
  rewrite zpad_compare_small by assumption. f_equal.
  cbn [append String.compare]. change (Ascii.compare ":" ":") with Eq. cbv iota.
  rewrite zpad_compare_small by assumption. f_equal.
  cbn [append String.compare]. change (Ascii.compare ":" ":") with Eq. cbv iota.
  rewrite zpad_compare_small by assumption. f_equal.
  apply tail_compare; assumption.
Qed.

Lemma isoformat_leb (a b : datetime) :
  valid a = true -> valid b = true ->
  String.leb (isoformat a) (isoformat b) = Datetime.leb a b.
Proof.
  intros Va Vb. unfold String.leb, Datetime.leb.
  rewrite isoformat_compare by assumption. reflexivity.
Qed.

(** *** [fromisoformat] inverts [isoformat] *)

Lemma read_digits_zpad (w : nat) : forall (acc n : Z) (s : string),
  read_digits w acc (zpad w n ++ s)
  = Some (acc * 10 ^ Z.of_nat w + n mod 10 ^ Z.of_nat w, s).
Proof.
  induction w as [|w IH]; intros acc n s.
  - simpl. rewrite Z.mod_1_r. do 2 f_equal. lia.
  - cbn [zpad append read_digits].
    rewrite digit_val_digit by (apply Z.mod_pos_bound; lia).
    rewrite IH, mod_pow_succ. do 2 f_equal.
    rewrite Nat2Z.inj_succ, Z.pow_succ_r by lia. ring.
Qed.

Lemma read_digits_small (w : nat) (n : Z) (s : string) :
  0 <= n < 10 ^ Z.of_nat w ->
  read_digits w 0 (zpad w n ++ s) = Some (n, s).
Proof.
  intros Hn. rewrite read_digits_zpad, Z.mod_small by assumption.
  reflexivity.
Qed.

Lemma read_fraction_tail (us : Z) :
  0 <= us < 10 ^ Z.of_nat 6 ->
  read_fraction ((if us =? 0 then "" else "." ++ zpad 6 us) ++ "+00:00")
  = Some (us, "+00:00").
Proof.
  intros Hu. destruct (Z.eqb_spec us 0) as [->|N].
  - reflexivity.
  - cbn [append read_fraction]. apply read_digits_small. exact Hu.
Qed.

Lemma expect_same (c : ascii) (s : string) : expect c (String c s) = Some s.
Proof. simpl. rewrite Ascii.eqb_refl. reflexivity. Qed.

Lemma fromisoformat_isoformat (d : datetime) :
  valid d = true -> fromisoformat (isoformat d) = Some d.
Proof.
  intros V.
  destruct (valid_bounds d V) as (Y & Mo & D & H & Mi & S & U).
  unfold fromisoformat, isoformat.
  repeat (rewrite read_digits_small by assumption;
          cbn [obind append]; rewrite ?expect_same; cbn [obind]).
  rewrite read_fraction_tail by assumption. cbn [obind].
  change ("+00:00" =? "+00:00")%string with true. cbv iota.
  destruct d; cbn [year month day hour minute second microsecond] in *.
  rewrite V. reflexivity.
Qed.

End DatetimeFacts.

(* ===================================================================== *)
(** ** The daily cost                                                     *)
(* ===================================================================== *)

Module CostFacts.
Import Datetime Models SQLiteStore Spec DatetimeFacts.
Local Open Scope string_scope.
Local Open Scope Z_scope.










End CostFacts.

(* ===================================================================== *)
(** ** The table [items]: round trip, constraints, duplicate urls         *)
(* ===================================================================== *)

Module SQLiteFacts.
Import Datetime Models Json SQLiteStore Spec DatetimeFacts.
Local Open Scope string_scope.

(** *** Decoding a row written by [insert_item] *)

Lemma SourceType_roundtrip (s : SourceType) :
  SourceType_of (SourceType_value s) = Ok s.
Proof. destruct s; reflexivity. Qed.

Lemma EntityType_roundtrip (t : EntityType) :
  EntityType_of (EntityType_value t) = Ok t.
Proof. destruct t; reflexivity. Qed.

Lemma EntityRole_roundtrip (r : EntityRole) :
  EntityRole_of (EntityRole_value r) = Ok r.
Proof. destruct r; reflexivity. Qed.

Lemma ClusterStatus_roundtrip (s : ClusterStatus) :
  ClusterStatus_of (ClusterStatus_value s) = Ok s.
Proof. destruct s; reflexivity. Qed.

Lemma as_str_list_roundtrip (l : list string) :
  as_str_list (of_str_list l) = Ok l.
Proof.
  unfold as_str_list, of_str_list.
  induction l as [|s l IH]; [reflexivity|].
  cbn [map rmap_list as_str rbind]. rewrite IH. reflexivity.
Qed.

Lemma entity_roundtrip (e : Entity) :
  entity_of_row_json (entity_to_json e) = Ok e.
Proof.
  destruct e as [n t r a]. unfold entity_of_row_json, entity_to_json.
  cbn [ent_name ent_type ent_role ent_aliases].
  cbn [lookup get_default String.eqb Ascii.eqb Bool.eqb].
  rewrite EntityType_roundtrip. cbn [rbind].
  rewrite EntityRole_roundtrip. cbn [rbind as_str].
  rewrite as_str_list_roundtrip. reflexivity.
Qed.

Lemma entities_roundtrip (es : list Entity) :
  entities_of_row_json (JList (map entity_to_json es)) = Ok es.
Proof.
  unfold entities_of_row_json.
  induction es as [|e es IH]; [reflexivity|].
  cbn [map rmap_list]. rewrite entity_roundtrip. cbn [rbind].
  rewrite IH. reflexivity.
Qed.

Lemma dt_roundtrip (d : datetime) :
  valid d = true -> _str_to_dt (_dt_to_str d) = Ok d.
Proof.
  intros V. unfold _str_to_dt, _dt_to_str.
  rewrite fromisoformat_isoformat by assumption. reflexivity.
Qed.

(** [_row_to_item] inverts [item_to_row]. *)
Lemma row_roundtrip (item : EnrichedItem) :
  valid (item_published_at item) = true ->
  valid (item_ingested_at item) = true ->
  _row_to_item (item_to_row item) = Ok item.
Proof.
  intros Vp Vi. destruct item. unfold _row_to_item, item_to_row.
  cbn -[entities_of_row_json SourceType_of _str_to_dt as_str_list
        _dt_to_str of_str_list] in *.
  rewrite entities_roundtrip, SourceType_roundtrip. cbn [rbind].
  rewrite !dt_roundtrip by assumption. cbn [rbind].
  rewrite !as_str_list_roundtrip. reflexivity.
Qed.

(** *** The constraints of the table [items] *)

Lemma item_url_exists_has_url {F} (url : string) (st : Store F) :
  item_url_exists url st = (Ok (has_url url st), st).
Proof. reflexivity. Qed.

Lemma item_conflicts_spec {F} (item : EnrichedItem) (st : Store F) :
  item_conflicts (item_to_row item) (items st)
  = has_id (item_id item) st || has_url (item_source_url item) st.
Proof.
  unfold item_conflicts, has_id, has_url. cbn [item_to_row col_id col_source_url].
  induction (items st) as [|r rows IH]; [reflexivity|].
  cbn [existsb]. rewrite IH.
  destruct (col_id r =? item_id item), (col_source_url r =? item_source_url item),
    (existsb (fun r0 => col_id r0 =? item_id item) rows),
    (existsb (fun r0 => col_source_url r0 =? item_source_url item) rows);
    reflexivity.
Qed.

Lemma get_item_None {F} (id : string) (st : Store F) :
  fst (get_item id st) = Ok None <-> has_id id st = false.
Proof.
  unfold get_item, has_id.
  destruct (find (fun r => col_id r =? id) (items st)) as [row|] eqn:E.
  - cbn [fst]. split.
    + destruct (_row_to_item row); discriminate.
    + intros H. apply find_some in E. destruct E as [Hin Hid].
      assert (existsb (fun r => col_id r =? id) (items st) = true) as X
        by (apply existsb_exists; eauto).
      congruence.
  - cbn [fst]. split; [|reflexivity]. intros _.
    destruct (existsb _ _) eqn:X; [|reflexivity].
    apply existsb_exists in X. destruct X as (r & Hin & Hid).
    apply (find_none _ _ E) in Hin. congruence.
Qed.

Lemma find_app_fresh {A} (p : A -> bool) (l : list A) (x : A) :
  existsb p l = false -> p x = true -> find p (l ++ [x]) = Some x.
Proof.
  induction l as [|a l IH]; cbn [existsb find app]; intros H Hx.
  - rewrite Hx. reflexivity.
  - apply orb_false_elim in H. destruct H as [Ha Hl]. rewrite Ha. auto.
Qed.

(** Insert then get, for an item whose id and url are both new. *)
Lemma insert_then_get {F} (st : Store F) (item : EnrichedItem) :
  valid (item_published_at item) = true ->
  valid (item_ingested_at item) = true ->
  has_id (item_id item) st = false ->
  has_url (item_source_url item) st = false ->
  exists st' : Store F,
    insert_item item st = (Ok tt, st')
    /\ get_item (item_id item) st' = (Ok (Some item), st').
Proof.
  intros Vp Vi Hid Hurl.
  unfold insert_item. rewrite item_conflicts_spec, Hid, Hurl. cbn [orb].
  eexists. split; [reflexivity|].
  unfold get_item, set_items. cbn [items].
  rewrite find_app_fresh.
  - rewrite row_roundtrip by assumption. reflexivity.
  - exact Hid.
  - cbn [item_to_row col_id]. apply String.eqb_refl.
Qed.


(** C5 (amended). For every EnrichedItem whose id and whose source_url are
    both not yet stored, inserting it and then getting it by id returns a
    value equal to the input, field for field: entities with name, type,
    role and aliases, datetimes, sentiment, claims, topic tags, cost and
    cluster fields. *)
Theorem insert_get_roundtrip
    (F : Type) (st : Store F) (item : EnrichedItem) :
  valid (item_published_at item) = true ->
  valid (item_ingested_at item) = true ->
  fst (get_item (item_id item) st) = Ok None ->
  fst (item_url_exists (item_source_url item) st) = Ok false ->
  fst (insert_item item st) = Ok tt
  /\ fst (get_item (item_id item) (snd (insert_item item st)))
     = Ok (Some item).
Proof.
  intros Vp Vi Hid Hurl.
  apply get_item_None in Hid.
  rewrite item_url_exists_has_url in Hurl. cbn [fst] in Hurl.
  assert (Hu : has_url (item_source_url item) st = false) by congruence.
  destruct (insert_then_get st item Vp Vi Hid Hu) as (st' & Hi & Hg).
  rewrite Hi. cbn [fst snd]. rewrite Hg. split; reflexivity.
Qed.

Lemma insert_get_roundtrip_witness :
  fst (insert_item Scenario.fresh_item Scenario.store_a) = Ok tt
  /\ fst (get_item (item_id Scenario.fresh_item)
            (snd (insert_item Scenario.fresh_item Scenario.store_a)))
     = Ok (Some Scenario.fresh_item).
Proof.
  apply (@insert_get_roundtrip Q Scenario.store_a Scenario.fresh_item);
    reflexivity.
Defined.

(** C5 as stated fails: the url of [item_same_id] is not stored, yet its
    insert is refused (its id is the primary key of a stored row) and the
    get returns the row stored before. *)
Lemma insert_get_roundtrip_needs_fresh_id :
  fst (item_url_exists (item_source_url Scenario.item_same_id)
         Scenario.store_a) = Ok false
  /\ fst (insert_item Scenario.item_same_id Scenario.store_a)
     = Raise IntegrityError
  /\ fst (get_item (item_id Scenario.item_same_id)
            (snd (insert_item Scenario.item_same_id Scenario.store_a)))
     = Ok (Some Scenario.item_a)
  /\ fst (get_item (item_id Scenario.item_same_id)
            (snd (insert_item Scenario.item_same_id Scenario.store_a)))
     <> Ok (Some Scenario.item_same_id).
Proof.
  split; [reflexivity|]. split; [reflexivity|].
  assert (H : fst (get_item (item_id Scenario.item_same_id)
                     (snd (insert_item Scenario.item_same_id Scenario.store_a)))
              = Ok (Some Scenario.item_a)) by (vm_compute; reflexivity).
  split; [exact H|]. rewrite H. discriminate.
Qed.

(** *** [ORDER BY] and [LIMIT] return rows of the table *)

Lemma insert_desc_perm {A} (geb : A -> A -> bool) (x : A) (l : list A) :
  Permutation (insert_desc geb x l) (x :: l).
Proof.
  induction l as [|y l IH]; cbn [insert_desc]; [reflexivity|].
  destruct (geb x y); [reflexivity|].
  rewrite IH. apply perm_swap.
Qed.

Lemma sort_desc_perm {A} (geb : A -> A -> bool) (l : list A) :
  Permutation (sort_desc geb l) l.
Proof.
  unfold sort_desc. induction l as [|x l IH]; cbn [fold_right]; [reflexivity|].
  rewrite insert_desc_perm. constructor. exact IH.
Qed.

(** [WHERE], [ORDER BY] and [LIMIT] keep the values of a key column
    distinct. *)
Lemma where_keeps_key {Row Key} (key : Row -> Key) (keep : Row -> bool)
    (rows : list Row) :
  NoDup (map key rows) -> NoDup (map key (filter keep rows)).
Proof.
  induction rows as [|r rows IH]; cbn [map filter]; intros Hkey;
    [constructor|].
  apply NoDup_cons_iff in Hkey. destruct Hkey as [Hfresh Hrest].
  destruct (keep r); cbn [map]; [|exact (IH Hrest)].
  apply NoDup_cons_iff. split; [|exact (IH Hrest)].
  intros Hin. apply Hfresh.
  apply in_map_iff in Hin. destruct Hin as (r' & Hk & Hr').
  apply filter_In in Hr'. apply in_map_iff. exists r'. tauto.
Qed.

Lemma NoDup_map_firstn {A B} (f : A -> B) (n : nat) (l : list A) :
  NoDup (map f l) -> NoDup (map f (firstn n l)).
Proof.
  intros H. rewrite <- (firstn_skipn n l), map_app in H.
  apply NoDup_app_remove_r in H. exact H.
Qed.

Lemma NoDup_map_limit {A B} (f : A -> B) (n : Z) (l : list A) :
  NoDup (map f l) -> NoDup (map f (sql_limit n l)).
Proof.
  unfold sql_limit. destruct (n <? 0)%Z; auto using NoDup_map_firstn.
Qed.

Lemma NoDup_map_sort {A B} (f : A -> B) (geb : A -> A -> bool) (l : list A) :
  NoDup (map f l) -> NoDup (map f (sort_desc geb l)).
Proof.
  intros H. eapply Permutation_NoDup; [|exact H].
  apply Permutation_map. symmetry. apply sort_desc_perm.
Qed.

Lemma In_limit {A} (n : Z) (l : list A) (x : A) :
  In x (sql_limit n l) -> In x l.
Proof.
  unfold sql_limit. destruct (n <? 0)%Z; [auto|].
  intros H. rewrite <- (firstn_skipn (Z.to_nat n) l). apply in_or_app. auto.
Qed.

Lemma get_items_rows_NoDup {F} since limit stype (st : Store F) :
  constraints_hold st ->
  NoDup (map col_source_url (get_items_rows since limit stype st)).
Proof.
  intros [_ Hu]. unfold get_items_rows.
  apply NoDup_map_limit, NoDup_map_sort, where_keeps_key. exact Hu.
Qed.

Lemma get_items_rows_In {F} since limit stype (st : Store F) (r : ItemRow) :
  In r (get_items_rows since limit stype st) -> In r (items st).
Proof.
  unfold get_items_rows. intros H. apply In_limit in H.
  apply (Permutation_in _ (sort_desc_perm _ _)) in H.
  apply filter_In in H. tauto.
Qed.

(** Under a [NoDup] key, the rows with one key value are at most one. *)
Lemma NoDup_key_filter {A} (f : A -> string) (u : string) (l : list A) :
  NoDup (map f l) ->
  (List.length (filter (fun x => (f x =? u)%string) l) <= 1)%nat.
Proof.
  induction l as [|a l IH]; cbn [map filter]; intros H; [cbn; lia|].
  inversion H as [|? ? Hn Hd]; subst.
  destruct (String.eqb_spec (f a) u) as [E|E]; [|auto].
  cbn [List.length]. 
  assert (filter (fun x => f x =? u) l = []) as ->; [|cbn; lia].
  destruct (filter (fun x => f x =? u) l) as [|b bs] eqn:Eb; [reflexivity|].
  assert (Hb : In b (filter (fun x => f x =? u) l)) by (rewrite Eb; left; reflexivity).
  apply filter_In in Hb. destruct Hb as [Hin Hfb].
  apply String.eqb_eq in Hfb. exfalso. apply Hn.
  rewrite E, <- Hfb. apply in_map. exact Hin.
Qed.

Lemma NoDup_key_unique {A} (f : A -> string) (l : list A) (x y : A) :
  NoDup (map f l) -> In x l -> In y l -> f x = f y -> x = y.
Proof.
  induction l as [|a l IH]; cbn [map]; intros H Hx Hy E; [destruct Hx|].
  inversion H as [|? ? Hn Hd]; subst.
  destruct Hx as [->|Hx], Hy as [->|Hy]; auto.
  - exfalso. apply Hn. rewrite E. apply in_map. exact Hy.
  - exfalso. apply Hn. rewrite <- E. apply in_map. exact Hx.
Qed.

(** *** Decoding a list of rows *)

Lemma rmap_list_Forall2 {A B} (f : A -> result B) (l : list A) (bs : list B) :
  rmap_list f l = Ok bs -> Forall2 (fun a b => f a = Ok b) l bs.
Proof.
  revert bs. induction l as [|a l IH]; cbn [rmap_list]; intros bs H.
  - injection H as <-. constructor.
  - destruct (f a) as [b|] eqn:Ea; cbn [rbind] in H; [|discriminate].
    destruct (rmap_list f l) as [bs'|] eqn:El; cbn [rbind] in H; [|discriminate].
    injection H as <-. constructor; auto.
Qed.

Lemma row_to_item_url (r : ItemRow) (i : EnrichedItem) :
  _row_to_item r = Ok i -> item_source_url i = col_source_url r.
Proof.
  unfold _row_to_item. intros H.
  repeat match type of H with
         | rbind ?x _ = _ => destruct x; cbn [rbind] in H; [|discriminate]
         end.
  injection H as <-. reflexivity.
Qed.

Lemma row_to_item_id (r : ItemRow) (i : EnrichedItem) :
  _row_to_item r = Ok i -> item_id i = col_id r.
Proof.
  unfold _row_to_item. intros H.
  repeat match type of H with
         | rbind ?x _ = _ => destruct x; cbn [rbind] in H; [|discriminate]
         end.
  injection H as <-. reflexivity.
Qed.

Lemma decoded_filter_length (rows : list ItemRow) (its : list EnrichedItem)
    (url : string) :
  Forall2 (fun r i => _row_to_item r = Ok i) rows its ->
  List.length (filter (fun i => item_source_url i =? url) its)
  = List.length (filter (fun r => col_source_url r =? url) rows).
Proof.
  induction 1 as [|r i rows its Hri _ IH]; [reflexivity|].
  cbn [filter]. rewrite (row_to_item_url _ Hri).
  destruct (col_source_url r =? url); cbn [List.length]; congruence.
Qed.


Lemma Forall2_In_right {A B} (P : A -> B -> Prop) (l : list A) (l' : list B)
    (b : B) :
  Forall2 P l l' -> In b l' -> exists a, In a l /\ P a b.
Proof.
  induction 1 as [|a b' l l' Hab _ IH]; intros Hin; [destruct Hin|].
  destruct Hin as [->|Hin].
  - exists a. split; [left; reflexivity|exact Hab].
  - destruct (IH Hin) as (a' & Ha' & HP). exists a'. split; [right|]; assumption.
Qed.

(** C2. For every EnrichedItem whose source_url already exists in the
    store, [insert_item] fails with a uniqueness violation
    ([IntegrityError]) and leaves the store unchanged; afterwards
    [item_url_exists] returns true, and [get_items] returns what it
    returned before: at most one item with that url, and only the decoding
    of the row stored originally. *)
Theorem insert_duplicate_url_rejected
    (F : Type) (st : Store F) (item : EnrichedItem) :
  constraints_hold st ->
  fst (item_url_exists (item_source_url item) st) = Ok true ->
  insert_item item st = (Raise IntegrityError, st)
  /\ fst (item_url_exists (item_source_url item) (snd (insert_item item st)))
     = Ok true
  /\ exists r0 : ItemRow,
       In r0 (items st)
       /\ col_source_url r0 = item_source_url item
       /\ forall since limit stype,
            get_items since limit stype (snd (insert_item item st))
            = get_items since limit stype st
            /\ forall its : list EnrichedItem,
                 fst (get_items since limit stype (snd (insert_item item st)))
                 = Ok its ->
                 (List.length
                    (filter (fun i => (item_source_url i
                                       =? item_source_url item)%string) its)
                  <= 1)%nat
                 /\ forall i, In i its ->
                      item_source_url i = item_source_url item ->
                      _row_to_item r0 = Ok i.
Proof.
  intros Hc Hex.
  rewrite item_url_exists_has_url in Hex. cbn [fst] in Hex.
  assert (Hu : has_url (item_source_url item) st = true) by congruence.
  assert (Hins : insert_item item st = (Raise IntegrityError, st)).
  { unfold insert_item. rewrite item_conflicts_spec, Hu, orb_true_r.
    reflexivity. }
  rewrite Hins. cbn [snd]. split; [reflexivity|].
  split; [rewrite item_url_exists_has_url, Hu; reflexivity|].
  unfold has_url in Hu. apply existsb_exists in Hu.
  destruct Hu as (r0 & Hin0 & Hurl0). apply String.eqb_eq in Hurl0.
  exists r0. split; [exact Hin0|]. split; [exact Hurl0|].
  intros since limit stype. split; [reflexivity|].
  intros its Hits. unfold get_items in Hits. cbn [fst] in Hits.
  apply rmap_list_Forall2 in Hits. split.
  - rewrite (decoded_filter_length _ Hits).
    apply NoDup_key_filter. apply get_items_rows_NoDup. exact Hc.
  - intros i Hi Hiu.
    destruct (Forall2_In_right i Hits Hi) as (r & Hr & Hdec).
    assert (r = r0) as <-; [|exact Hdec].
    destruct Hc as [_ Hnd].
    apply (NoDup_key_unique col_source_url (items st)); auto.
    + eapply get_items_rows_In. exact Hr.
    + rewrite <- (row_to_item_url _ Hdec). congruence.
Qed.

Lemma store_a_constraints : constraints_hold Scenario.store_a.
Proof.
  split; cbn; (constructor; [intros []|constructor]).
Qed.

Lemma insert_duplicate_url_rejected_witness :
  insert_item Scenario.item_same_url Scenario.store_a
  = (Raise IntegrityError, Scenario.store_a)
  /\ fst (item_url_exists "https://example.com/1"
            (snd (insert_item Scenario.item_same_url Scenario.store_a)))
     = Ok true
  /\ fst (get_items None 50 None
            (snd (insert_item Scenario.item_same_url Scenario.store_a)))
     = Ok [Scenario.item_a].
Proof.
  destruct (@insert_duplicate_url_rejected Q Scenario.store_a
              Scenario.item_same_url store_a_constraints eq_refl)
    as (Hins & Hex & _).
  split; [exact Hins|]. split; [exact Hex|].
  rewrite Hins. vm_compute. reflexivity.
Defined.

(** The constraints hold in the empty store and [insert_item] keeps them:
    they hold in every store the operations build. *)
Lemma empty_store_constraints (F : Type) : constraints_hold (empty_store F).
Proof. split; constructor. Qed.

Lemma existsb_false_not_in {A} (f : A -> string) (u : string) (l : list A) :
  existsb (fun r => f r =? u) l = false -> ~ In u (map f l).
Proof.
  induction l as [|a l IH]; cbn [existsb map]; intros H; [intros []|].
  apply orb_false_elim in H. destruct H as [Ha Hl].
  intros [E|Hin]; [|exact (IH Hl Hin)].
  rewrite E, String.eqb_refl in Ha. discriminate.
Qed.

Lemma NoDup_snoc {A} (l : list A) (x : A) :
  NoDup l -> ~ In x l -> NoDup (l ++ [x]).
Proof.
  intros Hl Hx. apply NoDup_app; [exact Hl|repeat constructor; intros []|].
  intros a Ha [<-|[]]. exact (Hx Ha).
Qed.

Lemma insert_item_constraints {F} (st : Store F) (item : EnrichedItem) :
  constraints_hold st -> constraints_hold (snd (insert_item item st)).
Proof.
  intros [Hi Hu]. unfold insert_item.
  rewrite item_conflicts_spec.
  destruct (has_id (item_id item) st) eqn:Eid; cbn [orb snd];
    [split; assumption|].
  destruct (has_url (item_source_url item) st) eqn:Eurl; cbn [snd];
    [split; assumption|].
  unfold constraints_hold, set_items. cbn [items].
  rewrite !map_app. cbn [map item_to_row col_id col_source_url].
  split; apply NoDup_snoc; auto using existsb_false_not_in.
Qed.

End SQLiteFacts.

(* ===================================================================== *)
(** ** The dedup pass                                                     *)
(* ===================================================================== *)

Module SourcesFacts.
Import Models SQLiteStore Sources Spec.

Lemma dedup_loop_filter {F} (store : Store F) (items new : list RawItem) :
  dedup_loop items store new
  = new ++ filter (fun i => negb (has_url (raw_source_url i) store)) items.
Proof.
  revert new. induction items as [|item rest IH]; intros new; cbn [dedup_loop filter].
  - rewrite app_nil_r. reflexivity.
  - rewrite SQLiteFacts.item_url_exists_has_url. cbn [fst].
    destruct (has_url (raw_source_url item) store); cbn [negb]; rewrite IH.
    + reflexivity.
    + rewrite <- app_assoc. reflexivity.
Qed.

(** C10. [deduplicate] returns exactly the input items whose source_url is
    absent from the store, in input order; it does not compare the items
    of the batch with each other, so two input items with one url that is
    not stored are both returned. *)
Theorem deduplicate_only_against_store
    (F : Type) (store : Store F) (items : list RawItem) :
  deduplicate items store
  = filter (fun i => negb (has_url (raw_source_url i) store)) items
  /\ forall (l1 l2 l3 : list RawItem) (a b : RawItem),
       items = l1 ++ a :: l2 ++ b :: l3 ->
       raw_source_url a = raw_source_url b ->
       fst (item_url_exists (raw_source_url a) store) = Ok false ->
       exists m1 m2 m3,
         deduplicate items store = m1 ++ a :: m2 ++ b :: m3.
Proof.
  assert (H : deduplicate items store
              = filter (fun i => negb (has_url (raw_source_url i) store)) items)
    by apply (dedup_loop_filter store items []).
  split; [exact H|].
  intros l1 l2 l3 a b -> Hab Hex.
  rewrite SQLiteFacts.item_url_exists_has_url in Hex. cbn [fst] in Hex.
  assert (Ha : has_url (raw_source_url a) store = false) by congruence.
  rewrite H, filter_app. cbn [filter]. rewrite Ha. cbn [negb].
  rewrite filter_app. cbn [filter]. rewrite <- Hab, Ha. cbn [negb].
  eauto.
Qed.

Lemma deduplicate_only_against_store_witness :
  deduplicate
    [Scenario.raw_new_1; Scenario.raw_stored; Scenario.raw_new_2]
    Scenario.store_a
  = [Scenario.raw_new_1; Scenario.raw_new_2]
  /\ exists m1 m2 m3,
       deduplicate
         [Scenario.raw_new_1; Scenario.raw_stored; Scenario.raw_new_2]
         Scenario.store_a
       = m1 ++ Scenario.raw_new_1 :: m2 ++ Scenario.raw_new_2 :: m3.
Proof.
  destruct (@deduplicate_only_against_store Q Scenario.store_a
              [Scenario.raw_new_1; Scenario.raw_stored; Scenario.raw_new_2])
    as [Hf Hboth].
  split.
  - rewrite Hf. reflexivity.
  - apply (Hboth [] [Scenario.raw_stored] []); reflexivity.
Defined.

End SourcesFacts.

(* ===================================================================== *)
(** ** The enrichment parser                                              *)
(* ===================================================================== *)

Module LLMFacts.
Import Models Json LLM Spec.
Local Open Scope string_scope.

Lemma Qltb_true (x y : Q) : Qltb x y = true <-> (x < y)%Q.
Proof.
  unfold Qltb. rewrite negb_true_iff. split.
  - intros H. apply Qnot_le_lt. intros Hle.
    apply Qle_bool_iff in Hle. congruence.
  - intros H. destruct (Qle_bool y x) eqn:E; [|reflexivity].
    apply Qle_bool_iff in E. exfalso. exact (Qlt_not_le _ _ H E).
Qed.

Lemma Qltb_false (x y : Q) : Qltb x y = false <-> (y <= x)%Q.
Proof.
  unfold Qltb. rewrite negb_false_iff. apply Qle_bool_iff.
Qed.

(** [max(-1.0, min(1.0, q))] is [q] clamped. *)
Lemma py_clamp (q : Q) : (py_max (-1) (py_min 1 q) == clamp q)%Q.
Proof.
  unfold py_max, py_min, clamp.
  destruct (Qltb q 1) eqn:E1.
  - apply Qltb_true in E1.
    destruct (Qltb (-1) q) eqn:E2.
    + apply Qltb_true in E2.
      destruct (Qlt_le_dec q (-1)) as [L|L];
        [exfalso; exact (Qlt_irrefl _ (Qlt_trans _ _ _ L E2))|].
      destruct (Qlt_le_dec 1 q) as [L'|L'];
        [exfalso; exact (Qlt_irrefl _ (Qlt_trans _ _ _ L' E1))|].
      reflexivity.
    + apply Qltb_false in E2.
      destruct (Qlt_le_dec q (-1)) as [L|L]; [reflexivity|].
      destruct (Qlt_le_dec 1 q) as [L'|L'];
        [exfalso; exact (Qlt_irrefl _ (Qlt_trans _ _ _ L' E1))|].
      apply Qle_antisym; assumption.
  - apply Qltb_false in E1.
    change (Qltb (-1) 1) with true. cbv iota.
    destruct (Qlt_le_dec q (-1)) as [L|L].
    + exfalso. apply (Qlt_irrefl 1).
      apply (Qle_lt_trans _ q); [exact E1|].
      apply (Qlt_trans _ (-1)); [exact L|reflexivity].
    + destruct (Qlt_le_dec 1 q) as [L'|L']; [reflexivity|].
      apply Qle_antisym; assumption.
Qed.

Lemma clamp_range (q : Q) : (-1 <= clamp q <= 1)%Q.
Proof.
  unfold clamp.
  destruct (Qlt_le_dec q (-1)); [split; discriminate|].
  destruct (Qlt_le_dec 1 q); [split; discriminate|].
  split; assumption.
Qed.


(** *** The entity loop *)

Lemma EntityType_call_unknown (v : json) :
  (forall t, v <> JString (EntityType_value t)) ->
  EntityType_call v = Raise ValueError.
Proof.
  intros H. destruct v; try reflexivity.
  unfold EntityType_call, EntityType_of.
  repeat match goal with
         | |- context [String.eqb s ?c] =>
             destruct (String.eqb_spec s c) as [->|_]
         end; try reflexivity.
  - exfalso. exact (H PERSON eq_refl).
  - exfalso. exact (H ORG eq_refl).
  - exfalso. exact (H PLACE eq_refl).
  - exfalso. exact (H EVENT eq_refl).
Qed.

Lemma EntityRole_call_unknown (v : json) :
  (forall r, v <> JString (EntityRole_value r)) ->
  EntityRole_call v = Raise ValueError.
Proof.
  intros H. destruct v; try reflexivity.
  unfold EntityRole_call, EntityRole_of.
  repeat match goal with
         | |- context [String.eqb s ?c] =>
             destruct (String.eqb_spec s c) as [->|_]
         end; try reflexivity.
  - exfalso. exact (H SUBJECT eq_refl).
  - exfalso. exact (H TARGET eq_refl).
  - exfalso. exact (H SOURCE eq_refl).
  - exfalso. exact (H LOCATION eq_refl).
  - exfalso. exact (H MENTIONED eq_refl).
Qed.

Lemma EntityType_call_raises (v : json) (e : exn) :
  EntityType_call v = Raise e -> e = ValueError.
Proof.
  destruct v; cbn [EntityType_call]; try (intros [= <-]; reflexivity).
  unfold EntityType_of.
  repeat match goal with
         | |- context [String.eqb s ?c] => destruct (String.eqb s c)
         end; try discriminate.
  intros [= <-]. reflexivity.
Qed.

(** An entity object with an unknown type or role raises inside the [try],
    with one of the two exceptions the loop catches. *)
Lemma make_entity_unknown (ekvs : list (string * json)) :
  unknown_type ekvs \/ unknown_role ekvs ->
  make_entity (JObject ekvs) = Raise ValueError
  \/ make_entity (JObject ekvs) = Raise KeyError.
Proof.
  intros H. unfold make_entity.
  destruct (lookup "name" ekvs) as [n|]; [|right; reflexivity].
  left. destruct H as [(v & Hv & Hbad)|(v & Hv & Hbad)].
  - unfold get_default at 1. rewrite Hv.
    rewrite (EntityType_call_unknown Hbad). reflexivity.
  - destruct (EntityType_call (get_default "type" (JString "person") ekvs))
      as [ty|e] eqn:Ety; cbn [rbind].
    + unfold get_default at 1. rewrite Hv.
      rewrite (EntityRole_call_unknown Hbad). reflexivity.
    + apply EntityType_call_raises in Ety. subst e. reflexivity.
Qed.

(** The loop skips such an entity and goes on as if it were not there. *)
Lemma entity_loop_drop (ekvs : list (string * json)) (l1 l2 : list json) :
  unknown_type ekvs \/ unknown_role ekvs ->
  forall acc : list Entity,
    entity_loop (l1 ++ JObject ekvs :: l2) acc = entity_loop (l1 ++ l2) acc.
Proof.
  intros H. induction l1 as [|e l1 IH]; intros acc; cbn [app entity_loop].
  - destruct (make_entity_unknown H) as [-> | ->]; reflexivity.
  - destruct (make_entity e) as [ent|[]]; auto.
Qed.

(** On entity objects that are all valid the loop keeps them all, in
    order. *)
Lemma entity_loop_valid (l : list json) (ents : list Entity) :
  Forall2 (fun e ent => make_entity e = Ok ent) l ents ->
  forall acc : list Entity, entity_loop l acc = Ok (acc ++ ents)%list.
Proof.
  induction 1 as [|e ent l ents He _ IH]; intros acc; cbn [entity_loop].
  - rewrite app_nil_r. reflexivity.
  - rewrite He, IH, <- app_assoc. reflexivity.
Qed.

Section Parser.

Variable float_of_str : string -> result Q.


(** C7. When the JSON of an LLM response holds an entity object whose
    type or role is outside the allowed enum values, the parser drops
    that one entity: the response parses exactly as the same response
    without that entity does, so the sibling entities and the rest of
    the record (summary, claims, framing, sentiment, topic_tags) are
    retained; with valid siblings the result holds them all, in order. *)
Theorem unknown_entity_is_dropped
    (kvs ekvs : list (string * json)) (l1 l2 : list json) :
  lookup "entities" kvs = Some (JList (l1 ++ JObject ekvs :: l2)) ->
  unknown_type ekvs \/ unknown_role ekvs ->
  parse_data float_of_str (JObject kvs)
  = parse_data float_of_str
      (JObject (("entities", JList (l1 ++ l2)) :: kvs))
  /\ forall (ents1 ents2 : list Entity) (summary framing : string)
       (claims topic_tags : list string) (s : Q),
       Forall2 (fun e ent => make_entity e = Ok ent) l1 ents1 ->
       Forall2 (fun e ent => make_entity e = Ok ent) l2 ents2 ->
       py_float float_of_str (get_default "sentiment" (JNum 0) kvs) = Ok s ->
       as_str (get_default "summary" (JString "") kvs) = Ok summary ->
       as_str_list (get_default "claims" (JList []) kvs) = Ok claims ->
       as_str (get_default "framing" (JString "") kvs) = Ok framing ->
       as_str_list (get_default "topic_tags" (JList []) kvs)
       = Ok topic_tags ->
       parse_data float_of_str (JObject kvs)
       = Ok (mkEnrichmentResult summary (ents1 ++ ents2) claims framing
               (py_max (-1) (py_min 1 s)) topic_tags).
Proof.
  intros Hent Hbad.
  assert (Hget : get_default "entities" (JList []) kvs
                 = JList (l1 ++ JObject ekvs :: l2))
    by (unfold get_default; rewrite Hent; reflexivity).
  split.
  - unfold parse_data. rewrite Hget.
    change (get_default "entities" (JList [])
              (("entities", JList (l1 ++ l2)) :: kvs))
      with (JList (l1 ++ l2)).
    cbn [iterate rbind]. rewrite (entity_loop_drop l1 l2 Hbad).
    reflexivity.
  - intros ents1 ents2 summary framing claims topic_tags s
           H1 H2 Hs Hsum Hcl Hfr Htt.
    unfold parse_data. rewrite Hget. cbn [iterate rbind].
    rewrite (entity_loop_drop l1 l2 Hbad).
    rewrite (entity_loop_valid (Forall2_app H1 H2)). cbn [rbind app].
    rewrite Hs. cbn [rbind]. rewrite Hsum. cbn [rbind].
    rewrite Hcl. cbn [rbind]. rewrite Hfr. cbn [rbind].
    rewrite Htt. reflexivity.
Qed.

End Parser.

Lemma bad_entity_unknown_type : unknown_type Scenario.bad_entity_fields.
Proof.
  exists (JString "invalid_type"). split; [reflexivity|].
  intros []; discriminate.
Qed.

Lemma unknown_entity_is_dropped_witness :
  parse_data (fun _ => Raise ValueError)
    (JObject (Scenario.answer
                [Scenario.good_entity;
                 JObject Scenario.bad_entity_fields;
                 Scenario.place_entity] 0))
  = Ok (mkEnrichmentResult "test"
          [mkEntity "Good" PERSON SUBJECT [];
           mkEntity "Paris" PLACE LOCATION []]
          ["a claim"] "test" 0 []).
Proof.
  destruct (@unknown_entity_is_dropped (fun _ => Raise ValueError)
              (Scenario.answer
                 [Scenario.good_entity;
                  JObject Scenario.bad_entity_fields;
                  Scenario.place_entity] 0)
              Scenario.bad_entity_fields
              [Scenario.good_entity] [Scenario.place_entity]
              eq_refl (or_introl bad_entity_unknown_type)) as [_ H].
  assert (F1 : Forall2 (fun e ent => make_entity e = Ok ent)
                 [Scenario.good_entity] [mkEntity "Good" PERSON SUBJECT []])
    by (constructor; [reflexivity|constructor]).
  assert (F2 : Forall2 (fun e ent => make_entity e = Ok ent)
                 [Scenario.place_entity] [mkEntity "Paris" PLACE LOCATION []])
    by (constructor; [reflexivity|constructor]).
  exact (H _ _ "test" "test" ["a claim"] [] 0%Q F1 F2
           eq_refl eq_refl eq_refl eq_refl eq_refl).
Defined.


End LLMFacts.

(* ===================================================================== *)
(** ** The order of persistence in the enricher                           *)
(* ===================================================================== *)

Module EnricherFacts.
Import Datetime Models SQLiteStore VectorStore Enricher Spec.
Local Open Scope string_scope.

Section Process.

Variable F : Type.
Variable settings : Settings.
Variable llm_enrich : RawItem -> result (EnrichmentResult * CostLogEntry).
Variable embed_enrichment : EnrichmentResult -> result (list F).
Variable embedder_model_name : string.
Variable upsert_error : string -> option exn.
Variable today : RawItem -> datetime.


End Process.



End EnricherFacts.

(* ===================================================================== *)
(** ** The clusterer on a window that is too small                        *)
(* ===================================================================== *)

Module ClusteringFacts.
Import Datetime Models SQLiteStore VectorStore Clustering Spec.
Local Open Scope string_scope.

Section Run.

Variable F : Type.
Variable config : ClusteringConfig.
Variable fit_predict : Z -> Z -> list (list F) -> list Z.
Variable mean_axis0 : list (list F) -> list F.
Variable argsort_distances : list (list F) -> list F -> list nat.
Variable minus_days : datetime -> Z -> datetime.
Variable llm : option (list (string * string) -> result EnrichmentResult).
Variable new_id : nat -> string.

(** C6. Whenever the rolling window holds fewer vector ids than
    [min_cluster_size] (an empty window included), the run returns no
    clusters and leaves the store as it was: no cluster row is written,
    no membership is cleared or set, no item's cluster fields are
    updated and no prior cluster changes status. *)
Theorem small_window_changes_nothing
    (now : datetime) (vectors : Collection F) (st : Store F) :
  let window :=
    fst (get_all_vectors
           (Some (isoformat (minus_days now (rolling_window_days config))))
           vectors) in
  (Z.of_nat (List.length window) < min_cluster_size config)%Z ->
  let out := run config fit_predict mean_axis0 argsort_distances
                 minus_days llm new_id now vectors st in
  out = (Ok [], st)
  /\ clusters (snd out) = clusters st
  /\ cluster_membership (snd out) = cluster_membership st
  /\ items (snd out) = items st
  /\ cost_log (snd out) = cost_log st.
Proof.
  intros window Hsmall out.
  assert (E : out = (Ok [], st)).
  { subst out window. unfold run.
    destruct (get_all_vectors _ vectors) as [point_ids vectors_list].
    cbn [fst] in Hsmall.
    apply Z.ltb_lt in Hsmall. rewrite Hsmall. reflexivity. }
  rewrite E. repeat split; reflexivity.
Qed.

End Run.

Lemma small_window_changes_nothing_witness :
  Scenario.run_small_window = (Ok [], Scenario.store_a)
  /\ items (snd Scenario.run_small_window) = items Scenario.store_a.
Proof.
  destruct (@small_window_changes_nothing Q Scenario.default_config
              (fun _ _ X => map (fun _ => 0%Z) X) (fun _ => [])
              (fun _ _ => []) (fun d _ => mkdt 2025 5 16 12 30 0 0) None
              (fun _ => "fresh") Scenario.now Scenario.two_points
              Scenario.store_a) as (H1 & _ & _ & H2 & _).
  - vm_compute. reflexivity.
  - split; [exact H1|exact H2].
Defined.

End ClusteringFacts.

(* ===================================================================== *)
(** ** Identity of clusters across runs                                   *)
(* ===================================================================== *)

Module MatchFacts.
Import Datetime Models SQLiteStore VectorStore Clustering Spec.
Local Open Scope string_scope.

(** *** Sets of ids *)

Lemma mem_In (x : string) (l : list string) : mem x l = true <-> In x l.
Proof.
  unfold mem. rewrite existsb_exists. split.
  - intros (y & Hy & E). apply String.eqb_eq in E. subst. exact Hy.
  - intros H. exists x. split; [exact H|apply String.eqb_refl].
Qed.

Lemma mem_false (x : string) (l : list string) : mem x l = false <-> ~ In x l.
Proof.
  rewrite <- mem_In. destruct (mem x l); split; intros H;
    congruence || (exfalso; auto).
Qed.




Lemma filter_none {A} (p : A -> bool) (l : list A) :
  (forall x, In x l -> p x = false) -> filter p l = [].
Proof.
  induction l as [|a l IH]; intros H; cbn [filter]; [reflexivity|].
  rewrite (H a (or_introl eq_refl)). apply IH. intros x Hx. apply H. right. exact Hx.
Qed.

Lemma filter_all {A} (p : A -> bool) (l : list A) :
  (forall x, In x l -> p x = true) -> filter p l = l.
Proof.
  induction l as [|a l IH]; intros H; cbn [filter]; [reflexivity|].
  rewrite (H a (or_introl eq_refl)). f_equal. apply IH.
  intros x Hx. apply H. right. exact Hx.
Qed.







(** *** Reading the previous member sets back *)

Lemma rmap_list_total {A B} (f : A -> result B) (l : list A) :
  Forall (fun a => exists b, f a = Ok b) l ->
  exists bs, rmap_list f l = Ok bs /\ Forall2 (fun a b => f a = Ok b) l bs.
Proof.
  induction 1 as [|a l [b Hb] _ (bs & Hbs & HF)]; cbn [rmap_list].
  - exists []. split; [reflexivity|constructor].
  - exists (b :: bs). rewrite Hb, Hbs. split; [reflexivity|].
    constructor; assumption.
Qed.

Lemma decoded_ids (rows : list ItemRow) (its : list EnrichedItem) :
  Forall2 (fun r i => _row_to_item r = Ok i) rows its ->
  map item_id its = map col_id rows.
Proof.
  induction 1 as [|r i rows its Hri _ IH]; [reflexivity|].
  cbn [map]. rewrite IH, (SQLiteFacts.row_to_item_id _ Hri). reflexivity.
Qed.

Lemma by_cluster_rows_In {F} (st : Store F) (id : string) (r : ItemRow) :
  In r (get_items_by_cluster_rows id st)
  <-> In r (items st) /\ col_cluster_id r = Some id /\ col_archived r = false.
Proof.
  unfold get_items_by_cluster_rows.
  split.
  - intros H.
    apply (Permutation_in _ (SQLiteFacts.sort_desc_perm _ _)) in H.
    apply filter_In in H. destruct H as [Hin Hp].
    apply andb_prop in Hp. destruct Hp as [Hc Ha].
    split; [exact Hin|]. split.
    + destruct (col_cluster_id r) as [c|]; cbn [opt_eqb] in Hc; [|discriminate].
      apply String.eqb_eq in Hc. congruence.
    + apply negb_true_iff in Ha. exact Ha.
  - intros (Hin & Hc & Ha).
    apply (Permutation_in _ (Permutation_sym (SQLiteFacts.sort_desc_perm _ _))).
    apply filter_In. split; [exact Hin|].
    rewrite Hc, Ha. cbn [opt_eqb negb]. rewrite String.eqb_refl. reflexivity.
Qed.

Lemma get_items_by_cluster_ok {F} (st : Store F) (id : string) :
  rows_decodable st ->
  exists its, get_items_by_cluster id st = (Ok its, st)
              /\ map item_id its = stored_members st id.
Proof.
  intros Hd. unfold get_items_by_cluster, stored_members.
  destruct (@rmap_list_total _ _ _row_to_item
              (get_items_by_cluster_rows id st)) as (its & Hits & HF).
  - apply Forall_forall. intros r Hr. apply by_cluster_rows_In in Hr.
    unfold rows_decodable in Hd. rewrite Forall_forall in Hd.
    apply Hd. tauto.
  - exists its. rewrite Hits. split; [reflexivity|].
    apply decoded_ids. exact HF.
Qed.



(** *** The dict [prev_members] *)

Lemma load_prev_members_ok {F} (st : Store F)
    (prevs : list (NarrativeCluster F)) :
  rows_decodable st ->
  load_prev_members prevs st = (Ok (members_dict st prevs), st).
Proof.
  intros Hd. induction prevs as [|pc prevs IH]; [reflexivity|].
  cbn [load_prev_members]. unfold bind.
  destruct (get_items_by_cluster_ok (cl_id pc) Hd) as (its & -> & Hids).
  rewrite IH. unfold ret, members_dict. cbn [map]. rewrite Hids. reflexivity.
Qed.

Lemma members_dict_get {F} (st : Store F) (prevs : list (NarrativeCluster F))
    (pc : NarrativeCluster F) :
  In pc prevs ->
  dict_get (cl_id pc) (members_dict st prevs)
  = Some (py_set (stored_members st (cl_id pc))).
Proof.
  induction prevs as [|p prevs IH]; intros Hin; [destruct Hin|].
  cbn [members_dict map dict_get].
  destruct (String.eqb_spec (cl_id pc) (cl_id p)) as [E|E].
  - rewrite E. reflexivity.
  - destruct Hin as [->|Hin]; [congruence|]. apply IH. exact Hin.
Qed.


Section Matching.

Variable F : Type.
Variable st : Store F.
Variable prevs : list (NarrativeCluster F).

Hypothesis Hconstraints : constraints_hold st.
Hypothesis Hprev_ids : NoDup (map (@cl_id F) prevs).


Hypothesis Hnonempty_ids : Forall (fun pc => cl_id pc <> "") prevs.


End Matching.











(** *** The hypotheses on the store hold in every store the operations
        build *)

Lemma empty_store_decodable (F : Type) : rows_decodable (empty_store F).
Proof. constructor. Qed.

Lemma insert_item_decodable {F} (st : Store F) (item : EnrichedItem) :
  valid (item_published_at item) = true ->
  valid (item_ingested_at item) = true ->
  rows_decodable st -> rows_decodable (snd (insert_item item st)).
Proof.
  intros Vp Vi Hd. unfold insert_item.
  destruct (item_conflicts _ _); cbn [snd]; [exact Hd|].
  unfold rows_decodable, set_items. cbn [items].
  apply Forall_app. split; [exact Hd|].
  constructor; [|constructor].
  exists item. apply SQLiteFacts.row_roundtrip; assumption.
Qed.

Lemma set_row_cluster_decodable (cid label : string) (r : ItemRow) :
  (exists it, _row_to_item r = Ok it) ->
  exists it, _row_to_item (set_row_cluster cid label r) = Ok it.
Proof.
  intros [it H]. unfold _row_to_item in *.
  cbn [set_row_cluster col_id col_source_type col_source_name col_source_url
       col_title col_published_at col_ingested_at col_language col_summary
       col_entities_json col_claims_json col_framing col_sentiment
       col_topic_tags_json col_embedding_id col_embedding_model col_cluster_id
       col_cluster_label col_enrichment_model col_enrichment_cost_usd].
  repeat match type of H with
         | rbind ?x _ = _ => destruct x; cbn [rbind] in H; [|discriminate]
         end.
  cbn [rbind]. eexists. reflexivity.
Qed.

Lemma update_item_cluster_keeps {F} (st : Store F) (id cid label : string) :
  constraints_hold st -> rows_decodable st ->
  constraints_hold (snd (update_item_cluster id cid label st))
  /\ rows_decodable (snd (update_item_cluster id cid label st)).
Proof.
  intros [Hi Hu] Hd.
  unfold update_item_cluster, modify, set_items, constraints_hold,
    rows_decodable. cbn [snd items].
  rewrite !map_map.
  assert (E1 : map (fun x => col_id (if col_id x =? id
                                     then set_row_cluster cid label x else x))
                   (items st) = map col_id (items st)).
  { apply map_ext. intros r. destruct (col_id r =? id); reflexivity. }
  assert (E2 : map (fun x => col_source_url
                               (if col_id x =? id
                                then set_row_cluster cid label x else x))
                   (items st) = map col_source_url (items st)).
  { apply map_ext. intros r. destruct (col_id r =? id); reflexivity. }
  rewrite E1, E2. split; [split; assumption|].
  apply Forall_map. unfold rows_decodable in Hd.
  eapply Forall_impl; [|exact Hd]. intros r Hr.
  destruct (col_id r =? id); [apply set_row_cluster_decodable|]; exact Hr.
Qed.

End MatchFacts.

(* ===================================================================== *)
(** ** The divergence detector                                            *)
(* ===================================================================== *)

Module DivergenceFacts.
Import Datetime Models SQLiteStore VectorStore Divergence Spec.
Local Open Scope string_scope.

(** *** The two index loops visit the unordered pairs *)

Lemma flat_map_after_map {A B C} (g : A -> B) (h : B -> list C) (xs : list A) :
  flat_map h (map g xs) = flat_map (fun x => h (g x)) xs.
Proof.
  induction xs as [|x xs IH]; cbn [map flat_map]; [reflexivity|].
  rewrite IH. reflexivity.
Qed.

(** One loop over the indices of a list is a loop over its elements. *)
Lemma index_loop {A C} (h : A -> list C) (l : list A) :
  flat_map (fun j => match nth_error l j with
                     | Some b => h b
                     | None => []
                     end) (seq 0 (List.length l))
  = flat_map h l.
Proof.
  induction l as [|b l IH]; [reflexivity|].
  cbn [List.length seq flat_map nth_error].
  rewrite <- seq_shift, flat_map_after_map. cbn [nth_error].
  rewrite IH. reflexivity.
Qed.

Lemma pair_loops {A C} (g : A -> A -> list C) (l : list A) :
  flat_map
    (fun i =>
       flat_map
         (fun j => match nth_error l i, nth_error l j with
                   | Some a, Some b => g a b
                   | _, _ => []
                   end)
         (seq (S i) (List.length l - S i)))
    (seq 0 (List.length l))
  = flat_map (fun p => g (fst p) (snd p)) (unordered_pairs l).
Proof.
  induction l as [|a rest IH]; [reflexivity|].
  cbn [List.length seq flat_map unordered_pairs].
  rewrite flat_map_app. f_equal.
  - cbn [nth_error]. rewrite Nat.sub_succ, Nat.sub_0_r.
    rewrite <- seq_shift, !flat_map_after_map. cbn [nth_error fst snd].
    apply index_loop.
  - rewrite <- IH, <- seq_shift, flat_map_after_map.
    apply flat_map_ext. intros i.
    rewrite Nat.sub_succ, <- seq_shift, flat_map_after_map.
    reflexivity.
Qed.


(** *** Vectors of real numbers *)

Local Open Scope R_scope.







(** *** The distance of a unit vector from its opposite *)



(** *** The scenario's stores *)




Section Detector.

Variable threshold : R.
Variable format_3f : R -> string.

(** The detector on one cluster, in the specification's terms. *)
Lemma detect_cluster_pairs (cluster : NarrativeCluster R)
    (its : list EnrichedItem) (vectors : Collection R) :
  (3 <= List.length its)%nat ->
  (2 <= List.length (source_groups its))%nat ->
  detect_cluster threshold format_3f cluster its vectors
  = flat_map
      (fun p => compare_pair threshold format_3f cluster (fst p) (snd p))
      (unordered_pairs
         (sub_centroids_of (source_groups its)
            (get_vectors_by_ids (flat_map snd (source_groups its)) vectors))).
Proof.
  intros H3 H2. unfold detect_cluster.
  destruct (Nat.ltb_spec (List.length its) 3) as [H|_]; [lia|].
  destruct (Nat.ltb_spec (List.length (source_groups its)) 2) as [H|_]; [lia|].
  set (subs := sub_centroids_of _ _).
  destruct (Nat.ltb_spec (List.length subs) 2) as [H|_].
  - destruct subs as [|a [|b subs']]; [reflexivity|reflexivity|].
    cbn [List.length] in H. lia.
  - unfold compare_all_pairs. apply pair_loops.
Qed.

End Detector.



End DivergenceFacts.

(* ===================================================================== *)
(** ** More of the metadata store                                         *)
(* ===================================================================== *)

Module StoreFacts.
Import Datetime Models Json SQLiteStore Spec DatetimeFacts.
Local Open Scope string_scope.

(** X1. On valid UTC datetimes [_str_to_dt] inverts [_dt_to_str], and the
    byte order of the texts [_dt_to_str] writes, which is the order the
    queries compare them in, is the chronological order. *)
Theorem datetime_text_roundtrip_and_order (a b : datetime) :
  valid a = true -> valid b = true ->
  _str_to_dt (_dt_to_str a) = Ok a
  /\ String.leb (_dt_to_str a) (_dt_to_str b) = Datetime.leb a b
  /\ String.ltb (_dt_to_str a) (_dt_to_str b)
     = negb (Datetime.leb b a).
Proof.
  intros Va Vb. split; [|split].
  - unfold _str_to_dt, _dt_to_str.
    rewrite fromisoformat_isoformat by exact Va. reflexivity.
  - apply isoformat_leb; assumption.
  - unfold String.ltb, Datetime.leb, _dt_to_str.
    rewrite isoformat_compare by assumption.
    assert (Hanti : Datetime.compare b a = CompOpp (Datetime.compare a b)).
    { rewrite <- !isoformat_compare by assumption.
      apply String.compare_antisym. }
    rewrite Hanti. destruct (Datetime.compare a b); reflexivity.
Qed.

Lemma datetime_text_roundtrip_and_order_witness :
  _str_to_dt (_dt_to_str Scenario.now) = Ok Scenario.now
  /\ String.leb (_dt_to_str Scenario.first_seen_1) (_dt_to_str Scenario.now)
     = true.
Proof.
  destruct (@datetime_text_roundtrip_and_order Scenario.now Scenario.now
              eq_refl eq_refl) as (H1 & _).
  destruct (@datetime_text_roundtrip_and_order Scenario.first_seen_1
              Scenario.now eq_refl eq_refl) as (_ & H2 & _).
  split; [exact H1|]. rewrite H2. reflexivity.
Defined.

(** *** [ORDER BY ... DESC] sorts *)

Section Sorting.

Variable A : Type.
Variable geb : A -> A -> bool.
Hypothesis geb_total : forall x y, geb x y = true \/ geb y x = true.

Lemma insert_desc_head (x : A) (l : list A) (y : A) :
  holds geb y x -> HdRel (holds geb) y l -> HdRel (holds geb) y (insert_desc geb x l).
Proof.
  unfold holds. intros Hyx Hl. destruct l as [|z l]; cbn [insert_desc].
  - constructor. exact Hyx.
  - destruct (geb x z); constructor; [exact Hyx|].
    inversion Hl; assumption.
Qed.

Lemma insert_desc_sorted (x : A) (l : list A) :
  Sorted (holds geb) l -> Sorted (holds geb) (insert_desc geb x l).
Proof.
  induction 1 as [|y l Hs IH Hh]; cbn [insert_desc].
  - repeat constructor.
  - destruct (geb x y) eqn:E.
    + constructor; [constructor; assumption|]. constructor. exact E.
    + constructor; [exact IH|].
      apply insert_desc_head; [|exact Hh].
      destruct (geb_total x y) as [H|H]; [congruence|exact H].
Qed.

Lemma sort_desc_sorted (l : list A) : Sorted (holds geb) (sort_desc geb l).
Proof.
  unfold sort_desc. induction l as [|x l IH]; cbn [fold_right].
  - constructor.
  - apply insert_desc_sorted. exact IH.
Qed.

Lemma firstn_sorted (n : nat) (l : list A) :
  Sorted (holds geb) l -> Sorted (holds geb) (firstn n l).
Proof.
  revert l. induction n as [|n IH]; intros l Hs; [constructor|].
  destruct l as [|x l]; [constructor|].
  cbn [firstn]. inversion Hs as [|? ? Hs' Hh]; subst.
  constructor; [apply IH; exact Hs'|].
  destruct n as [|n'], l as [|y l]; cbn [firstn]; constructor.
  inversion Hh; assumption.
Qed.

Lemma limit_sorted (n : Z) (l : list A) :
  Sorted (holds geb) l -> Sorted (holds geb) (sql_limit n l).
Proof.
  unfold sql_limit. destruct (n <? 0)%Z; auto using firstn_sorted.
Qed.

End Sorting.

Lemma published_geb_total (a b : ItemRow) :
  published_geb a b = true \/ published_geb b a = true.
Proof.
  unfold published_geb.
  destruct (String.leb_total (col_published_at a) (col_published_at b));
    tauto.
Qed.


Lemma filter_length_le {A} (p : A -> bool) (l : list A) :
  (List.length (filter p l) <= List.length l)%nat.
Proof.
  induction l as [|a l IH]; cbn [filter List.length]; [lia|].
  destruct (p a); cbn [List.length]; lia.
Qed.

Lemma limit_length_le {A} (n : Z) (l : list A) :
  (List.length (sql_limit n l) <= List.length l)%nat.
Proof.
  unfold sql_limit. destruct (n <? 0)%Z; [lia|].
  rewrite length_firstn. lia.
Qed.

(** X2. [get_items] selects rows of the table that are not archived, that
    are published at or after [since] and of the source type asked when
    these are given, newest first, and at most [limit] of them; a [since]
    compares chronologically with what [insert_item] wrote. *)
Theorem get_items_selects
    (F : Type) (st : Store F) (since : option datetime) (limit : Z)
    (source_type : option string) :
  let rows := get_items_rows since limit source_type st in
  get_items since limit source_type st = (rmap_list _row_to_item rows, st)
  /\ (forall r, In r rows ->
        In r (items st)
        /\ col_archived r = false
        /\ (forall t, source_type = Some t -> t <> "" ->
                      col_source_type r = t)
        /\ (forall d0, since = Some d0 ->
              String.leb (_dt_to_str d0) (col_published_at r) = true
              /\ forall d, valid d0 = true -> valid d = true ->
                           col_published_at r = _dt_to_str d ->
                           Datetime.leb d0 d = true))
  /\ Sorted (holds published_geb) rows
  /\ ((0 <= limit)%Z -> (Z.of_nat (List.length rows) <= limit)%Z)
  /\ (List.length rows <= List.length (items st))%nat.
Proof.
  intros rows. split; [reflexivity|]. split; [|split; [|split]].
  - intros r Hr. unfold rows, get_items_rows in Hr.
    apply SQLiteFacts.In_limit in Hr.
    apply (Permutation_in _ (SQLiteFacts.sort_desc_perm _ _)) in Hr.
    apply filter_In in Hr. destruct Hr as [Hin Hkeep].
    apply andb_prop in Hkeep. destruct Hkeep as [Hkeep Hty].
    apply andb_prop in Hkeep. destruct Hkeep as [Harch Hsince].
    split; [exact Hin|]. split; [apply negb_true_iff; exact Harch|].
    split.
    + intros t -> Ht. apply String.eqb_neq in Ht. rewrite Ht in Hty.
      apply String.eqb_eq. exact Hty.
    + intros d0 ->. split; [exact Hsince|].
      intros d V0 V E. rewrite E in Hsince.
      unfold _dt_to_str in Hsince.
      rewrite isoformat_leb in Hsince by assumption. exact Hsince.
  - unfold rows, get_items_rows.
    apply limit_sorted, sort_desc_sorted. exact published_geb_total.
  - intros Hlim. unfold rows, get_items_rows, sql_limit.
    destruct (Z.ltb_spec limit 0) as [H|_]; [lia|].
    rewrite length_firstn. lia.
  - unfold rows, get_items_rows.
    eapply Nat.le_trans; [apply limit_length_le|].
    rewrite (Permutation_length (SQLiteFacts.sort_desc_perm _ _)).
    apply filter_length_le.
Qed.


Lemma archive_old_items_eq {F} (st : Store F) (before : datetime) :
  archive_old_items before st
  = (Ok (Z.of_nat (List.length (filter (to_archive before) (items st)))),
     set_items (map (fun r => if to_archive before r
                              then set_row_archived r else r)) st).
Proof. reflexivity. Qed.

(** X3. [archive_old_items] returns the number of rows it flips, the
    unarchived rows published before the cutoff; afterwards every row
    published before the cutoff is archived, the count of live items has
    dropped by that number, no id or url has changed, and a second call
    flips nothing and returns 0. *)
Theorem archive_old_items_flips
    (F : Type) (st : Store F) (before : datetime) :
  let n := List.length (filter (to_archive before) (items st)) in
  let st' := snd (archive_old_items before st) in
  fst (archive_old_items before st) = Ok (Z.of_nat n)
  /\ (forall r, In r (items st') ->
        String.ltb (col_published_at r) (_dt_to_str before) = true ->
        col_archived r = true)
  /\ (forall r, In r (items st) -> col_archived r = true -> In r (items st'))
  /\ map col_id (items st') = map col_id (items st)
  /\ map col_source_url (items st') = map col_source_url (items st)
  /\ fst (get_item_count st') = rbind (fst (get_item_count st))
                                      (fun c => Ok (c - Z.of_nat n)%Z)
  /\ archive_old_items before st' = (Ok 0%Z, st').
Proof.
  intros n st'.
  set (g := fun r => if to_archive before r then set_row_archived r else r).
  assert (Hst' : items st' = map g (items st)) by reflexivity.
  assert (Hpub : forall r, col_published_at (g r) = col_published_at r).
  { intros r. unfold g. destruct (to_archive before r); reflexivity. }
  assert (Hg : forall r, to_archive before (g r) = false).
  { intros r. unfold g. destruct (to_archive before r) eqn:E; [|exact E].
    unfold to_archive. cbn [set_row_archived col_archived negb].
    apply andb_false_r. }
  split; [reflexivity|]. split; [|split; [|split; [|split; [|split]]]].
  - intros r Hr Hold. rewrite Hst' in Hr. apply in_map_iff in Hr.
    destruct Hr as (r0 & <- & _).
    specialize (Hg r0). unfold to_archive in Hg. rewrite Hold in Hg.
    cbn [andb] in Hg. apply negb_false_iff in Hg. exact Hg.
  - intros r Hr Harch. rewrite Hst'. apply in_map_iff. exists r.
    split; [|exact Hr]. unfold g, to_archive. rewrite Harch.
    cbn [negb]. rewrite andb_false_r. reflexivity.
  - rewrite Hst', map_map. apply map_ext. intros r. unfold g.
    destruct (to_archive before r); reflexivity.
  - rewrite Hst', map_map. apply map_ext. intros r. unfold g.
    destruct (to_archive before r); reflexivity.
  - unfold get_item_count, gets. cbn [fst rbind]. rewrite Hst'. f_equal.
    subst n. clear Hst' st'.
    induction (items st) as [|r rows IH]; [reflexivity|].
    cbn [map filter]. unfold g at 1.
    destruct (to_archive before r) eqn:E.
    + cbn [set_row_archived col_archived negb List.length].
      unfold to_archive in E. apply andb_prop in E. destruct E as [_ E].
      rewrite E. cbn [List.length]. lia.
    + unfold to_archive in E.
      destruct (col_archived r); cbn [negb List.length]; lia.
  - rewrite archive_old_items_eq.
    assert (Hnone : filter (to_archive before) (items st') = []).
    { rewrite Hst'. apply MatchFacts.filter_none. intros r Hr.
      apply in_map_iff in Hr. destruct Hr as (r0 & <- & _). apply Hg. }
    assert (Hsame : map (fun r => if to_archive before r
                                  then set_row_archived r else r)
                        (items st') = items st').
    { rewrite <- (map_id (items st')) at 2. apply map_ext_in.
      intros r Hr. rewrite Hst' in Hr. apply in_map_iff in Hr.
      destruct Hr as (r0 & <- & _). rewrite Hg. reflexivity. }
    rewrite Hnone. unfold set_items. rewrite Hsame.
    destruct st'; reflexivity.
Qed.


Lemma map_unchanged {A} (f : A -> A) (l : list A) :
  (forall a, In a l -> f a = a) -> map f l = l.
Proof.
  intros H. rewrite <- (map_id l) at 2. apply map_ext_in. exact H.
Qed.

(** X4. [update_item_cluster] never raises: on an id that is not stored it
    changes nothing; on a stored id it sets the cluster id and label of that
    row and of no other, keeps every id, and the item, when not archived, is
    then among the items [get_items_by_cluster] selects for that cluster. *)
Theorem update_item_cluster_sets
    (F : Type) (st : Store F) (id cluster_id cluster_label : string) :
  let st' := snd (update_item_cluster id cluster_id cluster_label st) in
  fst (update_item_cluster id cluster_id cluster_label st) = Ok tt
  /\ (has_id id st = false -> st' = st)
  /\ (forall r, In r (items st) -> col_id r <> id -> In r (items st'))
  /\ (forall r, In r (items st') -> col_id r = id ->
        col_cluster_id r = Some cluster_id
        /\ col_cluster_label r = Some cluster_label)
  /\ map col_id (items st') = map col_id (items st)
  /\ (forall r, In r (items st) -> col_id r = id ->
        col_archived r = false ->
        In id (stored_members st' cluster_id)).
Proof.
  intros st'.
  set (g := fun r => if col_id r =? id
                     then set_row_cluster cluster_id cluster_label r else r).
  assert (Hst' : items st' = map g (items st)) by reflexivity.
  assert (Hgid : forall r, col_id (g r) = col_id r).
  { intros r. unfold g. destruct (col_id r =? id); reflexivity. }
  split; [reflexivity|]. split; [|split; [|split; [|split]]].
  - intros Hno. subst st'.
    unfold update_item_cluster, modify, set_items. cbn [snd].
    fold g. rewrite map_unchanged; [destruct st; reflexivity|].
    intros r Hr. unfold g.
    destruct (String.eqb_spec (col_id r) id) as [E|_]; [|reflexivity].
    exfalso. unfold has_id in Hno.
    assert (X : existsb (fun r0 => col_id r0 =? id) (items st) = true).
    { apply existsb_exists. exists r. split; [exact Hr|].
      apply String.eqb_eq. exact E. }
    congruence.
  - intros r Hr Hne. rewrite Hst'. apply in_map_iff. exists r.
    split; [|exact Hr]. unfold g.
    apply String.eqb_neq in Hne. rewrite Hne. reflexivity.
  - intros r Hr Hid. rewrite Hst' in Hr. apply in_map_iff in Hr.
    destruct Hr as (r0 & <- & _). rewrite Hgid in Hid. unfold g.
    apply String.eqb_eq in Hid. rewrite Hid. split; reflexivity.
  - rewrite Hst', map_map. apply map_ext. exact Hgid.
  - intros r Hr Hid Harch. unfold stored_members.
    apply in_map_iff. exists (g r). split; [rewrite Hgid; exact Hid|].
    apply MatchFacts.by_cluster_rows_In. split; [|split].
    + rewrite Hst'. apply in_map. exact Hr.
    + unfold g. apply String.eqb_eq in Hid. rewrite Hid. reflexivity.
    + unfold g. destruct (col_id r =? id); exact Harch.
Qed.

(** *** Clusters *)

Lemma cluster_row_roundtrip {F} (c : NarrativeCluster F) :
  valid (cl_first_seen c) = true ->
  valid (cl_last_updated c) = true ->
  _row_to_cluster (cluster_to_row c) = Ok (without_members c).
Proof.
  intros Vf Vl. unfold _row_to_cluster, cluster_to_row.
  cbn [ccol_id ccol_label ccol_summary ccol_item_count ccol_first_seen
       ccol_last_updated ccol_centroid_json ccol_source_distribution_json
       ccol_sentiment_distribution_json ccol_key_entities_json
       ccol_key_claims_json ccol_status ccol_parent_cluster_id].
  rewrite !SQLiteFacts.dt_roundtrip by assumption. cbn [rbind].
  rewrite SQLiteFacts.ClusterStatus_roundtrip. reflexivity.
Qed.

Lemma find_after_filter {A} (p keep : A -> bool) (l : list A) (x : A) :
  (forall a, keep a = true -> p a = false) -> p x = true ->
  find p (filter keep l ++ [x]) = Some x.
Proof.
  intros Hk Hx. induction l as [|a l IH]; cbn [filter app find].
  - rewrite Hx. reflexivity.
  - destruct (keep a) eqn:E; [|exact IH].
    cbn [app find]. rewrite (Hk a E). exact IH.
Qed.

Lemma find_filter_other {A} (p keep : A -> bool) (l : list A) (x : A) :
  (forall a, p a = true -> keep a = true) -> p x = false ->
  find p (filter keep l ++ [x]) = find p l.
Proof.
  intros Hk Hx. induction l as [|a l IH]; cbn [filter app find].
  - rewrite Hx. reflexivity.
  - destruct (p a) eqn:Ep.
    + rewrite (Hk a Ep). cbn [app find]. rewrite Ep. reflexivity.
    + destruct (keep a); [cbn [app find]; rewrite Ep|]; exact IH.
Qed.

(** X5. [upsert_cluster] then [get_cluster] returns the cluster, field for
    field (the attribute [_member_ids] is not stored); the clusters with
    another id read as before; ids stay unique and the table grows by at
    most one row, by exactly one for a new id. *)
Theorem upsert_get_cluster
    (F : Type) (st : Store F) (c : NarrativeCluster F) :
  valid (cl_first_seen c) = true ->
  valid (cl_last_updated c) = true ->
  let st' := snd (upsert_cluster c st) in
  fst (get_cluster (cl_id c) st') = Ok (Some (without_members c))
  /\ (forall id, id <> cl_id c ->
        fst (get_cluster id st') = fst (get_cluster id st))
  /\ (NoDup (map (@ccol_id F) (clusters st)) ->
      NoDup (map (@ccol_id F) (clusters st')))
  /\ (List.length (clusters st') <= S (List.length (clusters st)))%nat
  /\ (fst (get_cluster (cl_id c) st) = Ok None ->
      List.length (clusters st') = S (List.length (clusters st))).
Proof.
  intros Vf Vl st'.
  assert (Hst' : clusters st'
                 = (filter (fun r => negb (ccol_id r =? cl_id c)) (clusters st)
                    ++ [cluster_to_row c])%list) by reflexivity.
  split; [|split; [|split; [|split]]].
  - unfold get_cluster. rewrite Hst'.
    rewrite find_after_filter.
    + rewrite cluster_row_roundtrip by assumption. reflexivity.
    + intros a Ha. apply negb_true_iff in Ha. exact Ha.
    + cbn [cluster_to_row ccol_id]. apply String.eqb_refl.
  - intros id Hne. unfold get_cluster. rewrite Hst'.
    rewrite find_filter_other;
      [destruct (find (fun r => ccol_id r =? id) (clusters st)); reflexivity
      | |].
    + intros a Ha. apply String.eqb_eq in Ha. apply negb_true_iff.
      apply String.eqb_neq. congruence.
    + cbn [cluster_to_row ccol_id]. apply String.eqb_neq.
      intros E. apply Hne. symmetry. exact E.
  - intros Hnd. rewrite Hst', map_app. cbn [map cluster_to_row ccol_id].
    apply SQLiteFacts.NoDup_snoc.
    + apply SQLiteFacts.where_keeps_key. exact Hnd.
    + intros Hin. apply in_map_iff in Hin. destruct Hin as (r & Hr & Hin).
      apply filter_In in Hin. destruct Hin as [_ Hk].
      apply negb_true_iff, String.eqb_neq in Hk. exact (Hk Hr).
  - rewrite Hst', length_app. cbn [List.length].
    pose proof (filter_length_le (fun r => negb (ccol_id r =? cl_id c))
                                 (clusters st)). lia.
  - intros Hnone. rewrite Hst', length_app. cbn [List.length].
    rewrite MatchFacts.filter_all; [lia|].
    intros r Hr. apply negb_true_iff.
    destruct (ccol_id r =? cl_id c) eqn:E; [|reflexivity].
    exfalso. unfold get_cluster in Hnone.
    destruct (find (fun r0 => ccol_id r0 =? cl_id c) (clusters st))
      as [row|] eqn:Ef.
    + cbn [fst] in Hnone. destruct (_row_to_cluster row); discriminate.
    + apply (find_none _ _ Ef) in Hr. congruence.
Qed.

Lemma upsert_get_cluster_witness :
  fst (get_cluster "n1"
         (snd (upsert_cluster Scenario.new_1 Scenario.after_first_run)))
  = Ok (Some (without_members Scenario.new_1))
  /\ List.length
       (clusters (snd (upsert_cluster Scenario.new_1
                         Scenario.after_first_run))) = 3%nat.
Proof.
  destruct (@upsert_get_cluster Q Scenario.after_first_run Scenario.new_1
              eq_refl eq_refl) as (H1 & _ & _ & _ & H5).
  split; [exact H1|]. rewrite H5; reflexivity.
Defined.


(** X6. [get_active_clusters] selects exactly the rows whose status is
    emerging or active, largest [item_count] first; after
    [update_cluster_status id "fading"] no selected row has that id, and the
    rows with another id are as before. *)
Theorem active_clusters_and_fading (F : Type) (st : Store F) :
  (forall r, In r (get_active_clusters_rows st)
             <-> In r (clusters st)
                 /\ (ccol_status r = "emerging" \/ ccol_status r = "active"))
  /\ Sorted (holds (fun a b : ClusterRow F =>
                      (ccol_item_count b <=? ccol_item_count a)%Z))
            (get_active_clusters_rows st)
  /\ forall id : string,
       let st' := snd (update_cluster_status id
                         (ClusterStatus_value FADING) st) in
       (forall r, In r (get_active_clusters_rows st') -> ccol_id r <> id)
       /\ (forall r, In r (clusters st) -> ccol_id r <> id ->
                     In r (clusters st'))
       /\ map (@ccol_id F) (clusters st') = map (@ccol_id F) (clusters st).
Proof.
  assert (Hsel : forall (s : Store F) r,
             In r (get_active_clusters_rows s)
             <-> In r (clusters s)
                 /\ (ccol_status r = "emerging"
                     \/ ccol_status r = "active")).
  { intros s r. unfold get_active_clusters_rows. split.
    - intros H.
      apply (Permutation_in _ (SQLiteFacts.sort_desc_perm _ _)) in H.
      apply filter_In in H. destruct H as [Hin Hs].
      split; [exact Hin|]. apply orb_prop in Hs.
      destruct Hs as [Hs|Hs]; apply String.eqb_eq in Hs; tauto.
    - intros [Hin Hs].
      apply (Permutation_in _
               (Permutation_sym (SQLiteFacts.sort_desc_perm _ _))).
      apply filter_In. split; [exact Hin|].
      destruct Hs as [-> | ->]; reflexivity. }
  split; [apply Hsel|]. split.
  - unfold get_active_clusters_rows. apply sort_desc_sorted.
    intros x y. unfold holds.
    destruct (Z.leb_spec (ccol_item_count y) (ccol_item_count x));
      [left; reflexivity|right; apply Z.leb_le; lia].
  - intros id st'.
    set (g := fun r : ClusterRow F =>
                if ccol_id r =? id
                then set_row_status (ClusterStatus_value FADING) r else r).
    assert (Hst' : clusters st' = map g (clusters st)) by reflexivity.
    split; [|split].
    + intros r Hr Hid. apply Hsel in Hr. destruct Hr as [Hin Hs].
      rewrite Hst' in Hin. apply in_map_iff in Hin.
      destruct Hin as (r0 & <- & _). unfold g in Hid, Hs.
      destruct (String.eqb_spec (ccol_id r0) id) as [E|E].
      * cbn [set_row_status ccol_status ClusterStatus_value] in Hs.
        destruct Hs; discriminate.
      * exact (E Hid).
    + intros r Hr Hne. rewrite Hst'. apply in_map_iff. exists r.
      split; [|exact Hr]. unfold g. apply String.eqb_neq in Hne.
      rewrite Hne. reflexivity.
    + rewrite Hst', map_map. apply map_ext. intros r. unfold g.
      destruct (ccol_id r =? id); reflexivity.
Qed.

(** X7. The cost log is append-only: [log_cost] adds one row after the
    rows there, touches no other table, and raises [get_total_cost] by the
    cost of the entry; the total of an empty log is 0. *)
Theorem log_cost_accumulates
    (F : Type) (st : Store F) (entry : CostLogEntry) :
  let st' := snd (log_cost entry st) in
  fst (log_cost entry st) = Ok tt
  /\ cost_log st' = (cost_log st ++ [cost_to_row entry])%list
  /\ items st' = items st
  /\ clusters st' = clusters st
  /\ cluster_membership st' = cluster_membership st
  /\ fst (get_total_cost st')
     = rbind (fst (get_total_cost st))
             (fun total => Ok (total + cost_usd entry)%Q)
  /\ fst (get_total_cost (empty_store F)) = Ok 0%Q.
Proof.
  intros st'. repeat split.
  unfold get_total_cost, gets. cbn [fst rbind]. f_equal.
  change (cost_log st') with (cost_log st ++ [cost_to_row entry])%list.
  unfold sql_sum. rewrite map_app, fold_left_app. reflexivity.
Qed.

(** X8. [set_cluster_membership] enforces both foreign keys: with an
    unknown item or an unknown cluster it raises [IntegrityError] and
    changes nothing; otherwise it leaves exactly one membership row for the
    pair, whatever was there, and keeps the rows of every other pair.
    [clear_cluster_memberships] empties the table and nothing else. *)
Theorem membership_foreign_keys
    (F : Type) (st : Store F) (now : datetime) (item_id cluster_id : string) :
  let known :=
    has_id item_id st
    && existsb (fun r => ccol_id r =? cluster_id) (clusters st) in
  let is_pair m := (mcol_item_id m =? item_id)
                   && (mcol_cluster_id m =? cluster_id) in
  let st' := snd (set_cluster_membership now item_id cluster_id st) in
  (known = false ->
   set_cluster_membership now item_id cluster_id st
   = (Raise IntegrityError, st))
  /\ (known = true ->
      fst (set_cluster_membership now item_id cluster_id st) = Ok tt
      /\ filter is_pair (cluster_membership st')
         = [mkMembershipRow item_id cluster_id (_dt_to_str now)]
      /\ (forall m, In m (cluster_membership st) -> is_pair m = false ->
                    In m (cluster_membership st'))
      /\ items st' = items st /\ clusters st' = clusters st)
  /\ cluster_membership (snd (clear_cluster_memberships st)) = []
  /\ items (snd (clear_cluster_memberships st)) = items st
  /\ clusters (snd (clear_cluster_memberships st)) = clusters st.
Proof.
  intros known is_pair st'. subst known st'.
  unfold set_cluster_membership, has_id.
  split; [|split].
  - intros ->. reflexivity.
  - intros ->. cbn [fst snd set_membership cluster_membership items clusters].
    split; [reflexivity|]. split; [|split; [|split; reflexivity]].
    + rewrite filter_app. cbn [filter].
      assert (Hp : is_pair (mkMembershipRow item_id cluster_id
                              (_dt_to_str now)) = true).
      { unfold is_pair. cbn [mcol_item_id mcol_cluster_id].
        rewrite !String.eqb_refl. reflexivity. }
      rewrite Hp.
      rewrite MatchFacts.filter_none; [reflexivity|].
      intros m Hm. apply filter_In in Hm. destruct Hm as [_ Hm].
      apply negb_true_iff in Hm. exact Hm.
    + intros m Hm Hnp. apply in_or_app. left. apply filter_In.
      split; [exact Hm|]. apply negb_true_iff. exact Hnp.
  - repeat split.
Qed.

(** X9. [insert_item] either appends the row of the item or raises
    [IntegrityError] and changes nothing, the latter exactly when the id or
    the url is already stored; it keeps every row there, keeps ids and urls
    unique, and touches no other table. *)
Theorem insert_item_keeps_table
    (F : Type) (st : Store F) (item : EnrichedItem) :
  constraints_hold st ->
  let taken := has_id (item_id item) st
               || has_url (item_source_url item) st in
  let st' := snd (insert_item item st) in
  constraints_hold st'
  /\ (taken = true -> insert_item item st = (Raise IntegrityError, st))
  /\ (taken = false ->
      fst (insert_item item st) = Ok tt
      /\ items st' = (items st ++ [item_to_row item])%list
      /\ has_id (item_id item) st' = true
      /\ has_url (item_source_url item) st' = true)
  /\ (forall r, In r (items st) -> In r (items st'))
  /\ clusters st' = clusters st
  /\ cluster_membership st' = cluster_membership st
  /\ cost_log st' = cost_log st.
Proof.
  intros Hc taken st'.
  split; [apply SQLiteFacts.insert_item_constraints; exact Hc|].
  subst st' taken. unfold insert_item.
  rewrite SQLiteFacts.item_conflicts_spec.
  destruct (has_id (item_id item) st || has_url (item_source_url item) st).
  - split; [reflexivity|]. split; [discriminate|].
    cbn [snd]. repeat split. intros r Hr. exact Hr.
  - split; [discriminate|]. cbn [fst snd set_items items clusters
                                 cluster_membership cost_log].
    split.
    + intros _. split; [reflexivity|]. split; [reflexivity|].
      unfold has_id, has_url. unfold set_items. cbn [items].
      rewrite !existsb_app. cbn [existsb].
      split; apply orb_true_iff; right; apply orb_true_iff; left;
        apply String.eqb_refl.
    + repeat split. intros r Hr. apply in_or_app. left. exact Hr.
Qed.

Lemma insert_item_keeps_table_witness :
  constraints_hold (snd (insert_item Scenario.fresh_item Scenario.store_a))
  /\ List.length
       (items (snd (insert_item Scenario.fresh_item Scenario.store_a)))
     = 2%nat
  /\ insert_item Scenario.item_same_id Scenario.store_a
     = (Raise IntegrityError, Scenario.store_a).
Proof.
  destruct (@insert_item_keeps_table Q Scenario.store_a Scenario.fresh_item
              SQLiteFacts.store_a_constraints) as (H1 & _ & H3 & _).
  destruct (@insert_item_keeps_table Q Scenario.store_a Scenario.item_same_id
              SQLiteFacts.store_a_constraints) as (_ & H2 & _).
  split; [exact H1|]. split.
  - destruct (H3 eq_refl) as (_ & -> & _). reflexivity.
  - exact (H2 eq_refl).
Defined.

End StoreFacts.

(* ===================================================================== *)
(** ** The enricher and the two stores                                    *)
(* ===================================================================== *)

Module EnrichFacts.
Import Datetime Models SQLiteStore VectorStore Enricher Sources Spec.
Local Open Scope string_scope.

Lemma upsert_point_ids {F} (p : Point F) (c : Collection F) (id : string) :
  In id (map (@pt_id F) (upsert_point p c))
  <-> id = pt_id p \/ In id (map (@pt_id F) c).
Proof.
  induction c as [|q c IH]; cbn [upsert_point map In].
  - split; [intros [H|[]]; left; symmetry; exact H
           |intros [H|[]]; left; symmetry; exact H].
  - destruct (String.eqb_spec (pt_id q) (pt_id p)) as [E|E]; cbn [map In].
    + split; [intros [H|H]; [left; symmetry; exact H|right; right; exact H]|].
      intros [H|[H|H]]; [left; symmetry; exact H| |right; exact H].
      left. congruence.
    + rewrite IH. tauto.
Qed.

Lemma has_id_app {F} (st : Store F) (rows : list ItemRow) (id : string) :
  existsb (fun r => col_id r =? id) (items st ++ rows)
  = has_id id st || existsb (fun r => col_id r =? id) rows.
Proof. unfold has_id. apply existsb_app. Qed.

Lemma has_url_app {F} (st : Store F) (rows : list ItemRow) (url : string) :
  existsb (fun r => col_source_url r =? url) (items st ++ rows)
  = has_url url st || existsb (fun r => col_source_url r =? url) rows.
Proof. unfold has_url. apply existsb_app. Qed.

Section Process.

Variable F : Type.
Variable settings : Settings.
Variable llm_enrich : RawItem -> result (EnrichmentResult * CostLogEntry).
Variable embed_enrichment : EnrichmentResult -> result (list F).
Variable embedder_model_name : string.
Variable upsert_error : string -> option exn.
Variable today : RawItem -> datetime.

(** What one [_process_one] can do to the two stores: nothing to the
    items and the vectors, with no item reported; or one row appended, and
    then either the vector upserted and the item returned, or the
    exception of Qdrant let through with the vectors as they were. *)
Lemma process_one_cases (item : RawItem) (w : World F) :
  let r := fst (_process_one settings llm_enrich embed_enrichment
                  embedder_model_name upsert_error today item w) in
  let w' := snd (_process_one settings llm_enrich embed_enrichment
                   embedder_model_name upsert_error today item w) in
  (r = Ok None
   /\ items (sqlite w') = items (sqlite w) /\ vectors w' = vectors w)
  \/ (exists res cost vector,
        llm_enrich item = Ok (res, cost)
        /\ embed_enrichment res = Ok vector
        /\ has_id (raw_id item) (sqlite w) = false
        /\ has_url (raw_source_url item) (sqlite w) = false
        /\ items (sqlite w')
           = (items (sqlite w)
              ++ [item_to_row
                    (build_enriched embedder_model_name item res cost)])%list
        /\ ((r = Ok (Some (build_enriched embedder_model_name item res cost))
             /\ upsert_error (raw_id item) = None
             /\ exists payload,
                  vectors w'
                  = upsert_item (raw_id item) vector payload (vectors w))
            \/ (exists ex, r = Raise ex
                           /\ upsert_error (raw_id item) = Some ex
                           /\ vectors w' = vectors w))).
Proof.
  intros r w'. subst r w'. destruct w as [st vs cs].
  unfold _process_one, bind, on_sqlite, get_daily_cost.
  cbn [sqlite vectors calls].
  destruct (Qle_bool _ _); [left; repeat split|].
  destruct (llm_enrich item) as [[res cost]|e] eqn:Ellm;
    [|left; repeat split].
  destruct (track_costs settings);
    unfold record, modify, log_cost, ret;
    cbn [sqlite vectors calls];
    (destruct (embed_enrichment res) as [vector|e] eqn:Eemb;
     [|left; repeat split]);
    unfold try_except, bind, record, modify, on_sqlite, ret;
    cbn [sqlite vectors calls]; unfold insert_item;
    rewrite SQLiteFacts.item_conflicts_spec;
    cbn [build_enriched item_id item_source_url];
    unfold has_id, has_url; cbn [items set_cost_log];
    (destruct (existsb (fun r => col_id r =? raw_id item) (items st)
               || existsb (fun r => col_source_url r =? raw_source_url item)
                          (items st)) eqn:Econf;
     [left; repeat split|]);
    right; apply orb_false_elim in Econf; destruct Econf as [Eid Eurl];
    exists res, cost, vector;
    (split; [reflexivity|]); (split; [exact Eemb|]);
    (split; [exact Eid|]); (split; [exact Eurl|]);
    unfold vectors_upsert_item; cbn [sqlite vectors calls];
    (destruct (upsert_error (raw_id item)) as [ex|] eqn:Eup;
     cbn [fst snd sqlite vectors set_items items set_cost_log];
     (split; [reflexivity|]);
     [right; exists ex; repeat split
     |left; split; [reflexivity|]; split; [reflexivity|];
      eexists; reflexivity]).
Qed.

Lemma process_one_keeps (item : RawItem) (w : World F) :
  let r := fst (_process_one settings llm_enrich embed_enrichment
                  embedder_model_name upsert_error today item w) in
  let w' := snd (_process_one settings llm_enrich embed_enrichment
                   embedder_model_name upsert_error today item w) in
  (constraints_hold (sqlite w) -> constraints_hold (sqlite w'))
  /\ (vectors_have_items w -> vectors_have_items w')
  /\ (forall id, has_id id (sqlite w) = true -> has_id id (sqlite w') = true)
  /\ (forall url, has_url url (sqlite w) = true ->
                  has_url url (sqlite w') = true)
  /\ (forall id, In id (map (@pt_id F) (vectors w)) ->
                 In id (map (@pt_id F) (vectors w')))
  /\ (forall e, r = Ok (Some e) ->
        has_id (item_id e) (sqlite w) = false
        /\ has_url (item_source_url e) (sqlite w) = false
        /\ has_id (item_id e) (sqlite w') = true
        /\ has_url (item_source_url e) (sqlite w') = true
        /\ In (item_id e) (map (@pt_id F) (vectors w'))
        /\ exists res cost,
             llm_enrich item = Ok (res, cost)
             /\ e = build_enriched embedder_model_name item res cost).
Proof.
  intros r w'.
  destruct (process_one_cases item w)
    as [(Hr & Hit & Hv)
       |(res & cost & vector & Hllm & Hemb & Hid & Hurl & Hit & Hout)];
    fold r in Hr || fold r in Hout; fold w' in Hit.
  - fold w' in Hv.
    assert (Hsame_id : forall id, has_id id (sqlite w') = has_id id (sqlite w)).
    { intros id. unfold has_id. rewrite Hit. reflexivity. }
    assert (Hsame_url : forall u,
               has_url u (sqlite w') = has_url u (sqlite w)).
    { intros u. unfold has_url. rewrite Hit. reflexivity. }
    split; [intros [Hids Hurls]; split; rewrite Hit; assumption|].
    split; [intros Hvec id Hin; rewrite Hv in Hin; rewrite Hsame_id;
            exact (Hvec id Hin)|].
    split; [intros id H; rewrite Hsame_id; exact H|].
    split; [intros u H; rewrite Hsame_url; exact H|].
    split; [intros id H; rewrite Hv; exact H|].
    intros e He. rewrite Hr in He. discriminate.
  - set (e0 := build_enriched embedder_model_name item res cost) in *.
    assert (Hnew_id : forall id,
               has_id id (sqlite w')
               = has_id id (sqlite w) || (raw_id item =? id)).
    { intros id. unfold has_id at 1. rewrite Hit, has_id_app.
      cbn [existsb item_to_row col_id e0 build_enriched item_id].
      rewrite orb_false_r. reflexivity. }
    assert (Hnew_url : forall u,
               has_url u (sqlite w')
               = has_url u (sqlite w) || (raw_source_url item =? u)).
    { intros u. unfold has_url at 1. rewrite Hit, has_url_app.
      cbn [existsb item_to_row col_source_url e0 build_enriched
           item_source_url].
      rewrite orb_false_r. reflexivity. }
    assert (Hgrow : forall id, In id (map (@pt_id F) (vectors w)) ->
                               In id (map (@pt_id F) (vectors w'))).
    { intros id Hin.
      destruct Hout as [(_ & _ & payload & Hv)|(ex & _ & _ & Hv)];
        fold w' in Hv; rewrite Hv; [|exact Hin].
      apply upsert_point_ids. right. exact Hin. }
    split.
    { intros [Hids Hurls].
      split; rewrite Hit, map_app; cbn [map]; apply SQLiteFacts.NoDup_snoc;
        try assumption.
      - apply SQLiteFacts.existsb_false_not_in. exact Hid.
      - apply SQLiteFacts.existsb_false_not_in. exact Hurl. }
    split.
    { intros Hvec id Hin. rewrite Hnew_id.
      destruct Hout as [(_ & _ & payload & Hv)|(ex & _ & _ & Hv)];
        fold w' in Hv; rewrite Hv in Hin.
      - apply upsert_point_ids in Hin. cbn [pt_id] in Hin.
        destruct Hin as [->|Hin];
          [rewrite String.eqb_refl; apply orb_true_r|].
        rewrite (Hvec id Hin). reflexivity.
      - rewrite (Hvec id Hin). reflexivity. }
    split; [intros id H; rewrite Hnew_id, H; reflexivity|].
    split; [intros u H; rewrite Hnew_url, H; reflexivity|].
    split; [exact Hgrow|].
    intros e He.
    destruct Hout as [(Hr & _ & payload & Hv)|(ex & Hr & _ & _)];
      rewrite Hr in He; [|discriminate].
    injection He as <-. fold w' in Hv.
    cbn [e0 build_enriched item_id item_source_url].
    split; [exact Hid|]. split; [exact Hurl|].
    split; [rewrite Hnew_id, String.eqb_refl; apply orb_true_r|].
    split; [rewrite Hnew_url, String.eqb_refl; apply orb_true_r|].
    split; [rewrite Hv; apply upsert_point_ids; left; reflexivity|].
    exists res, cost. split; [exact Hllm|reflexivity].
Qed.

(** The invariant of the batch loop: the table constraints and the link
    from vectors to items are kept, nothing stored is lost, and every
    item returned was new to the store when its turn came, is stored
    afterwards and has its vector. *)
Lemma enrich_items_inv (raw_items : list RawItem) :
  forall w : World F,
  exists enriched,
    fst (enrich_items settings llm_enrich embed_enrichment
           embedder_model_name upsert_error today raw_items w) = Ok enriched
    /\ let w' := snd (enrich_items settings llm_enrich embed_enrichment
                        embedder_model_name upsert_error today raw_items w) in
       (constraints_hold (sqlite w) -> constraints_hold (sqlite w'))
       /\ (vectors_have_items w -> vectors_have_items w')
       /\ (forall id, has_id id (sqlite w) = true ->
                      has_id id (sqlite w') = true)
       /\ (forall url, has_url url (sqlite w) = true ->
                       has_url url (sqlite w') = true)
       /\ (forall id, In id (map (@pt_id F) (vectors w)) ->
                      In id (map (@pt_id F) (vectors w')))
       /\ (forall e, In e enriched ->
             has_id (item_id e) (sqlite w) = false
             /\ has_url (item_source_url e) (sqlite w) = false
             /\ has_id (item_id e) (sqlite w') = true
             /\ has_url (item_source_url e) (sqlite w') = true
             /\ In (item_id e) (map (@pt_id F) (vectors w'))
             /\ exists item res cost,
                  In item raw_items
                  /\ llm_enrich item = Ok (res, cost)
                  /\ e = build_enriched embedder_model_name item res cost)
       /\ NoDup (map item_id enriched)
       /\ NoDup (map item_source_url enriched)
       /\ (List.length enriched <= List.length raw_items)%nat.
Proof.
  induction raw_items as [|item rest IH]; intros w.
  - exists []. split; [reflexivity|]. cbn [enrich_items ret snd].
    split; [intros H; exact H|]. split; [intros H; exact H|].
    repeat split; try constructor; try (intros; assumption);
      match goal with H : In _ [] |- _ => destruct H end.
  - destruct (process_one_keeps item w)
      as (Hc1 & Hv1 & Hid1 & Hurl1 & Hvec1 & Hret1).
    cbn [enrich_items].
    destruct (_process_one settings llm_enrich embed_enrichment
                embedder_model_name upsert_error today item w)
      as [r w1] eqn:E1.
    cbn [fst snd] in Hc1, Hv1, Hid1, Hurl1, Hvec1, Hret1.
    destruct (IH w1)
      as (enriched & Hres & Hc2 & Hv2 & Hid2 & Hurl2 & Hvec2 & Hret2
          & Hnd_id & Hnd_url & Hlen).
    destruct (enrich_items settings llm_enrich embed_enrichment
                embedder_model_name upsert_error today rest w1)
      as [r2 w2] eqn:E2.
    cbn [fst snd] in Hres, Hc2, Hv2, Hid2, Hurl2, Hvec2, Hret2.
    subst r2.
    assert (Hold : forall e, In e enriched ->
              has_id (item_id e) (sqlite w) = false
              /\ has_url (item_source_url e) (sqlite w) = false
              /\ has_id (item_id e) (sqlite w2) = true
              /\ has_url (item_source_url e) (sqlite w2) = true
              /\ In (item_id e) (map (@pt_id F) (vectors w2))
              /\ exists it res cost,
                   In it (item :: rest)
                   /\ llm_enrich it = Ok (res, cost)
                   /\ e = build_enriched embedder_model_name it res cost).
    { intros e He.
      destruct (Hret2 e He)
        as (A & B & C & D & E & it & res & cost & Hin & Hl & He').
      split.
      { destruct (has_id (item_id e) (sqlite w)) eqn:X; [|reflexivity].
        rewrite (Hid1 _ X) in A. discriminate. }
      split.
      { destruct (has_url (item_source_url e) (sqlite w)) eqn:X;
          [|reflexivity].
        rewrite (Hurl1 _ X) in B. discriminate. }
      split; [exact C|]. split; [exact D|]. split; [exact E|].
      exists it, res, cost. split; [right; exact Hin|].
      split; assumption. }
    eexists. split; [reflexivity|]. cbn [snd].
    split; [intros H; exact (Hc2 (Hc1 H))|].
    split; [intros H; exact (Hv2 (Hv1 H))|].
    split; [intros id H; exact (Hid2 _ (Hid1 _ H))|].
    split; [intros u H; exact (Hurl2 _ (Hurl1 _ H))|].
    split; [intros id H; exact (Hvec2 _ (Hvec1 _ H))|].
    destruct r as [[e|]|ex]; try (split; [exact Hold|];
      split; [exact Hnd_id|]; split; [exact Hnd_url|];
      cbn [List.length]; lia).
    destruct (Hret1 e eq_refl)
      as (A & B & C & D & E & res & cost & Hl & He').
    split.
    { intros e' [<-|Hin']; [|exact (Hold e' Hin')].
      split; [exact A|]. split; [exact B|].
      split; [exact (Hid2 _ C)|]. split; [exact (Hurl2 _ D)|].
      split; [exact (Hvec2 _ E)|].
      exists item, res, cost. split; [left; reflexivity|].
      split; assumption. }
    split.
    { cbn [map]. constructor; [|exact Hnd_id].
      intros Hin. apply in_map_iff in Hin. destruct Hin as (e' & Eq & Hin).
      destruct (Hret2 e' Hin) as (A' & _). rewrite Eq, C in A'.
      discriminate. }
    split.
    { cbn [map]. constructor; [|exact Hnd_url].
      intros Hin. apply in_map_iff in Hin. destruct Hin as (e' & Eq & Hin).
      destruct (Hret2 e' Hin) as (_ & B' & _). rewrite Eq, D in B'.
      discriminate. }
    cbn [List.length]. lia.
Qed.

(** X10. [enrich_items] never raises and keeps the two stores in step:
    from a store whose ids and urls are unique and a collection whose
    points all belong to stored items, it leads to such a pair again;
    no stored item and no vector is lost, and every item it returns is
    stored in SQLite and has its point in the collection. *)
Theorem enrich_items_keeps_stores_consistent
    (raw_items : list RawItem) (w : World F) :
  constraints_hold (sqlite w) -> vectors_have_items w ->
  exists enriched,
    fst (enrich_items settings llm_enrich embed_enrichment
           embedder_model_name upsert_error today raw_items w) = Ok enriched
    /\ let w' := snd (enrich_items settings llm_enrich embed_enrichment
                        embedder_model_name upsert_error today raw_items w) in
       constraints_hold (sqlite w') /\ vectors_have_items w'
       /\ (forall id, has_id id (sqlite w) = true ->
                      has_id id (sqlite w') = true)
       /\ (forall id, In id (map (@pt_id F) (vectors w)) ->
                      In id (map (@pt_id F) (vectors w')))
       /\ (forall e, In e enriched ->
             has_id (item_id e) (sqlite w') = true
             /\ In (item_id e) (map (@pt_id F) (vectors w'))).
Proof.
  intros Hc Hv.
  destruct (enrich_items_inv raw_items w)
    as (enriched & Hres & Hc' & Hv' & Hid & _ & Hvec & Hret & _).
  exists enriched. split; [exact Hres|]. cbn zeta.
  split; [exact (Hc' Hc)|]. split; [exact (Hv' Hv)|].
  split; [exact Hid|]. split; [exact Hvec|].
  intros e He. destruct (Hret e He) as (_ & _ & A & _ & B & _).
  split; assumption.
Qed.

(** X11. Every item [enrich_items] returns is built from an item of the
    batch and the answer of the LLM to it, and neither its id nor its url
    was stored before the call; no two returned items share an id or a
    url, even when the batch repeats one; at most as many items come back
    as went in. *)
Theorem enrich_items_returns_new_distinct
    (raw_items : list RawItem) (w : World F) :
  exists enriched,
    fst (enrich_items settings llm_enrich embed_enrichment
           embedder_model_name upsert_error today raw_items w) = Ok enriched
    /\ (forall e, In e enriched ->
          has_id (item_id e) (sqlite w) = false
          /\ has_url (item_source_url e) (sqlite w) = false
          /\ exists item res cost,
               In item raw_items
               /\ llm_enrich item = Ok (res, cost)
               /\ e = build_enriched embedder_model_name item res cost)
    /\ NoDup (map item_id enriched)
    /\ NoDup (map item_source_url enriched)
    /\ (List.length enriched <= List.length raw_items)%nat.
Proof.
  destruct (enrich_items_inv raw_items w)
    as (enriched & Hres & _ & _ & _ & _ & _ & Hret & Hn1 & Hn2 & Hlen).
  exists enriched. split; [exact Hres|].
  split; [|split; [exact Hn1|split; [exact Hn2|exact Hlen]]].
  intros e He. destruct (Hret e He) as (A & B & _ & _ & _ & C).
  split; [exact A|]. split; [exact B|exact C].
Qed.

(** X12. The only exception that leaves [_process_one] is the one Qdrant's
    upsert raises, and it comes after the insert: the row of the item is
    then in SQLite with no vector for it, and [enrich_items] does not
    return the item. *)
Theorem only_upsert_errors_escape
    (item : RawItem) (w : World F) (ex : exn) :
  fst (_process_one settings llm_enrich embed_enrichment
         embedder_model_name upsert_error today item w) = Raise ex ->
  let w' := snd (_process_one settings llm_enrich embed_enrichment
                   embedder_model_name upsert_error today item w) in
  upsert_error (raw_id item) = Some ex
  /\ has_id (raw_id item) (sqlite w) = false
  /\ has_id (raw_id item) (sqlite w') = true
  /\ vectors w' = vectors w
  /\ enrich_items settings llm_enrich embed_enrichment
       embedder_model_name upsert_error today [item] w = (Ok [], w').
Proof.
  intros Hr w'.
  destruct (process_one_cases item w)
    as [(Hr' & _)
       |(res & cost & vector & _ & _ & Hid & _ & Hit & Hout)].
  { rewrite Hr in Hr'. discriminate. }
  destruct Hout as [(Hr' & _)|(ex' & Hr' & Hup & Hv)].
  { rewrite Hr in Hr'. discriminate. }
  rewrite Hr in Hr'. injection Hr' as <-.
  split; [exact Hup|]. split; [exact Hid|].
  split.
  { unfold has_id. fold w' in Hit. rewrite Hit, has_id_app.
    cbn [existsb item_to_row col_id build_enriched item_id].
    rewrite String.eqb_refl. rewrite orb_true_r. reflexivity. }
  split; [exact Hv|].
  cbn [enrich_items]. subst w'.
  destruct (_process_one settings llm_enrich embed_enrichment
              embedder_model_name upsert_error today item w) as [r w1].
  cbn [fst snd] in *. subst r. reflexivity.
Qed.

(** X13. The budget gate: when the cost logged for the day has reached
    [enrichment_daily_budget_usd] at the time of every item of the batch,
    [enrich_items] returns no item and leaves both stores, and the
    journal of calls made on them, exactly as they were. *)
Theorem over_budget_batch_untouched
    (raw_items : list RawItem) (w : World F) :
  (forall item, In item raw_items ->
     exists c, fst (get_daily_cost (today item) (sqlite w)) = Ok c
               /\ Qle_bool (enrichment_daily_budget_usd settings) c = true) ->
  enrich_items settings llm_enrich embed_enrichment
    embedder_model_name upsert_error today raw_items w = (Ok [], w).
Proof.
  induction raw_items as [|item rest IH]; intros Hover; [reflexivity|].
  cbn [enrich_items].
  assert (Hone : _process_one settings llm_enrich embed_enrichment
                   embedder_model_name upsert_error today item w
                 = (Ok None, w)).
  { destruct (Hover item (or_introl eq_refl)) as (c & Hc & Hle).
    unfold _process_one, bind, on_sqlite.
    unfold get_daily_cost in *. cbn [fst] in Hc. injection Hc as Hc.
    rewrite Hc, Hle. destruct w; reflexivity. }
  rewrite Hone, IH; [reflexivity|].
  intros it Hin. apply Hover. right. exact Hin.
Qed.

(** X14. Enriching and ingesting again: an item that [deduplicate] lets
    through after [enrich_items] was let through before it as well, and
    its url is the url of none of the items [enrich_items] returned. *)
Theorem reingestion_drops_enriched
    (raw_items batch : list RawItem) (w : World F) (item : RawItem) :
  In item (deduplicate batch
             (sqlite (snd (enrich_items settings llm_enrich embed_enrichment
                             embedder_model_name upsert_error today
                             raw_items w)))) ->
  In item (deduplicate batch (sqlite w))
  /\ forall enriched e,
       fst (enrich_items settings llm_enrich embed_enrichment
              embedder_model_name upsert_error today raw_items w)
       = Ok enriched ->
       In e enriched -> item_source_url e <> raw_source_url item.
Proof.
  intros Hin.
  destruct (enrich_items_inv raw_items w)
    as (enriched & Hres & _ & _ & _ & Hurl & _ & Hret & _).
  cbn zeta in Hurl, Hret.
  unfold deduplicate in *.
  rewrite SourcesFacts.dedup_loop_filter in Hin |- *.
  cbn [app] in *. apply filter_In in Hin. destruct Hin as [Hb Hnew].
  apply negb_true_iff in Hnew.
  split.
  - apply filter_In. split; [exact Hb|]. apply negb_true_iff.
    destruct (has_url (raw_source_url item) (sqlite w)) eqn:X;
      [|reflexivity].
    rewrite (Hurl _ X) in Hnew. discriminate.
  - intros enriched' e Hres' He Heq. rewrite Hres in Hres'.
    injection Hres' as <-.
    destruct (Hret e He) as (_ & _ & _ & D & _).
    rewrite Heq, Hnew in D. discriminate.
Qed.

End Process.

Lemma empty_world_consistent :
  constraints_hold (sqlite Scenario.empty_world)
  /\ vectors_have_items Scenario.empty_world.
Proof.
  split; [split; constructor|]. intros id [].
Defined.

Lemma enrich_items_keeps_stores_consistent_witness :
  exists enriched,
    fst (enrich_items Scenario.tracking Scenario.llm_ok Scenario.embed_ok
           "all-MiniLM-L6-v2" (fun _ => None) (fun _ => Scenario.now)
           [Scenario.raw_new_1; Scenario.raw_new_2] Scenario.empty_world)
    = Ok enriched
    /\ forall e, In e enriched ->
         has_id (item_id e)
           (sqlite (snd (enrich_items Scenario.tracking Scenario.llm_ok
                           Scenario.embed_ok "all-MiniLM-L6-v2"
                           (fun _ => None) (fun _ => Scenario.now)
                           [Scenario.raw_new_1; Scenario.raw_new_2]
                           Scenario.empty_world))) = true.
Proof.
  destruct (@enrich_items_keeps_stores_consistent Q Scenario.tracking
              Scenario.llm_ok Scenario.embed_ok "all-MiniLM-L6-v2"
              (fun _ => None) (fun _ => Scenario.now)
              [Scenario.raw_new_1; Scenario.raw_new_2] Scenario.empty_world
              (proj1 empty_world_consistent) (proj2 empty_world_consistent))
    as (enriched & Hres & _ & _ & _ & _ & Hret).
  exists enriched. split; [exact Hres|].
  intros e He. exact (proj1 (Hret e He)).
Defined.

Lemma only_upsert_errors_escape_witness :
  has_id "r1"
    (sqlite (snd (_process_one Scenario.tracking Scenario.llm_ok
                    Scenario.embed_ok "all-MiniLM-L6-v2"
                    (fun _ => Some ExternalError) (fun _ => Scenario.now)
                    Scenario.raw_new_1 Scenario.empty_world))) = true
  /\ vectors (snd (_process_one Scenario.tracking Scenario.llm_ok
                     Scenario.embed_ok "all-MiniLM-L6-v2"
                     (fun _ => Some ExternalError) (fun _ => Scenario.now)
                     Scenario.raw_new_1 Scenario.empty_world)) = [].
Proof.
  destruct (@only_upsert_errors_escape Q Scenario.tracking Scenario.llm_ok
              Scenario.embed_ok "all-MiniLM-L6-v2"
              (fun _ => Some ExternalError) (fun _ => Scenario.now)
              Scenario.raw_new_1 Scenario.empty_world ExternalError eq_refl)
    as (_ & _ & H1 & H2 & _).
  split; [exact H1|exact H2].
Defined.

Lemma over_budget_batch_untouched_witness :
  enrich_items (mkSettings 0 true) Scenario.llm_ok Scenario.embed_ok
    "all-MiniLM-L6-v2" (fun _ => None) (fun _ => Scenario.now)
    [Scenario.raw_new_1; Scenario.raw_new_2] Scenario.empty_world
  = (Ok [], Scenario.empty_world).
Proof.
  apply (@over_budget_batch_untouched Q (mkSettings 0 true) Scenario.llm_ok
           Scenario.embed_ok "all-MiniLM-L6-v2" (fun _ => None)
           (fun _ => Scenario.now)).
  intros item _. exists 0%Q. split; reflexivity.
Defined.

Lemma reingestion_drops_enriched_witness :
  In Scenario.raw_stored
     (deduplicate [Scenario.raw_new_1; Scenario.raw_stored]
                  (sqlite Scenario.empty_world)).
Proof.
  refine (proj1 (@reingestion_drops_enriched Q Scenario.tracking
                   Scenario.llm_ok Scenario.embed_ok "all-MiniLM-L6-v2"
                   (fun _ => None) (fun _ => Scenario.now)
                   [Scenario.raw_new_1]
                   [Scenario.raw_new_1; Scenario.raw_stored]
                   Scenario.empty_world Scenario.raw_stored _)).
  vm_compute. left. reflexivity.
Defined.

End EnrichFacts.

(* ===================================================================== *)
(** ** The steps of a clustering run                                      *)
(* ===================================================================== *)

Module RunFacts.
Import Datetime Models SQLiteStore VectorStore Clustering Spec.
Local Open Scope string_scope.

(** *** Sentiment bins *)

Lemma bin_fold (values : list Q) (a b c d e : Z) :
  fold_left
    (fun bins v =>
       if Qle_bool v (-(6 # 10)) then bump "very_negative" bins
       else if Qle_bool v (-(2 # 10)) then bump "negative" bins
       else if Qle_bool v (2 # 10) then bump "neutral" bins
       else if Qle_bool v (6 # 10) then bump "positive" bins
       else bump "very_positive" bins)
    values
    [ ("very_negative", a); ("negative", b); ("neutral", c);
      ("positive", d); ("very_positive", e) ]
  = [ ("very_negative",
       (a + Z.of_nat (List.length
              (filter (fun v => Qle_bool v (-(6 # 10))) values)))%Z);
      ("negative",
       (b + Z.of_nat (List.length
              (filter (fun v => negb (Qle_bool v (-(6 # 10)))
                                && Qle_bool v (-(2 # 10))) values)))%Z);
      ("neutral",
       (c + Z.of_nat (List.length
              (filter (fun v => negb (Qle_bool v (-(2 # 10)))
                                && Qle_bool v (2 # 10)) values)))%Z);
      ("positive",
       (d + Z.of_nat (List.length
              (filter (fun v => negb (Qle_bool v (2 # 10))
                                && Qle_bool v (6 # 10)) values)))%Z);
      ("very_positive",
       (e + Z.of_nat (List.length
              (filter (fun v => negb (Qle_bool v (6 # 10))) values)))%Z) ].
Proof.
  revert a b c d e.
  induction values as [|v values IH]; intros a b c d e.
  - cbn [fold_left filter List.length Z.of_nat]. rewrite !Z.add_0_r.
    reflexivity.
  - cbn [fold_left filter].
    assert (M1 : Qle_bool v (-(6 # 10)) = true ->
                 Qle_bool v (-(2 # 10)) = true
                 /\ Qle_bool v (2 # 10) = true
                 /\ Qle_bool v (6 # 10) = true).
    { intros H. apply Qle_bool_iff in H.
      repeat split; apply Qle_bool_iff;
        (eapply Qle_trans; [exact H|]); unfold Qle; cbn; lia. }
    assert (M2 : Qle_bool v (-(2 # 10)) = true ->
                 Qle_bool v (2 # 10) = true /\ Qle_bool v (6 # 10) = true).
    { intros H. apply Qle_bool_iff in H.
      repeat split; apply Qle_bool_iff;
        (eapply Qle_trans; [exact H|]); unfold Qle; cbn; lia. }
    assert (M3 : Qle_bool v (2 # 10) = true -> Qle_bool v (6 # 10) = true).
    { intros H. apply Qle_bool_iff in H. apply Qle_bool_iff.
      eapply Qle_trans; [exact H|]. unfold Qle; cbn; lia. }
    destruct (Qle_bool v (-(6 # 10))) eqn:E1.
    { destruct (M1 eq_refl) as (-> & -> & ->).
      cbn [negb andb]. unfold bump. cbn [map fst snd String.eqb Ascii.eqb
                                         Bool.eqb].
      rewrite IH. cbn [List.length]. rewrite Nat2Z.inj_succ.
      repeat (f_equal; try lia). }
    destruct (Qle_bool v (-(2 # 10))) eqn:E2.
    { destruct (M2 eq_refl) as (-> & ->).
      cbn [negb andb]. unfold bump. cbn [map fst snd String.eqb Ascii.eqb
                                         Bool.eqb].
      rewrite IH. cbn [List.length]. rewrite Nat2Z.inj_succ.
      repeat (f_equal; try lia). }
    destruct (Qle_bool v (2 # 10)) eqn:E3.
    { rewrite (M3 eq_refl).
      cbn [negb andb]. unfold bump. cbn [map fst snd String.eqb Ascii.eqb
                                         Bool.eqb].
      rewrite IH. cbn [List.length]. rewrite Nat2Z.inj_succ.
      repeat (f_equal; try lia). }
    destruct (Qle_bool v (6 # 10)) eqn:E4;
      cbn [negb andb]; unfold bump;
      cbn [map fst snd String.eqb Ascii.eqb Bool.eqb];
      rewrite IH; cbn [List.length]; rewrite Nat2Z.inj_succ;
      repeat (f_equal; try lia).
Qed.

(** X15. [_bin_sentiment] counts every value in exactly one of the five
    bins: a value is very negative up to -0.6, negative up to -0.2,
    neutral up to 0.2, positive up to 0.6 (each bound included) and very
    positive above; the five counts add up to the number of values. *)
Theorem bin_sentiment_counts (values : list Q) :
  let count p := Z.of_nat (List.length (filter p values)) in
  _bin_sentiment values
  = [ ("very_negative", count (fun v => Qle_bool v (-(6 # 10))));
      ("negative", count (fun v => negb (Qle_bool v (-(6 # 10)))
                                   && Qle_bool v (-(2 # 10))));
      ("neutral", count (fun v => negb (Qle_bool v (-(2 # 10)))
                                  && Qle_bool v (2 # 10)));
      ("positive", count (fun v => negb (Qle_bool v (2 # 10))
                                   && Qle_bool v (6 # 10)));
      ("very_positive", count (fun v => negb (Qle_bool v (6 # 10)))) ]
  /\ fold_right Z.add 0%Z (map snd (_bin_sentiment values))
     = Z.of_nat (List.length values).
Proof.
  intros count.
  assert (H : _bin_sentiment values
              = [ ("very_negative", count (fun v => Qle_bool v (-(6 # 10))));
                  ("negative", count (fun v => negb (Qle_bool v (-(6 # 10)))
                                               && Qle_bool v (-(2 # 10))));
                  ("neutral", count (fun v => negb (Qle_bool v (-(2 # 10)))
                                              && Qle_bool v (2 # 10)));
                  ("positive", count (fun v => negb (Qle_bool v (2 # 10))
                                               && Qle_bool v (6 # 10)));
                  ("very_positive",
                   count (fun v => negb (Qle_bool v (6 # 10)))) ]).
  { unfold _bin_sentiment. rewrite bin_fold. reflexivity. }
  split; [exact H|]. rewrite H. cbn [map snd fold_right]. subst count.
  cbn beta. clear H.
  induction values as [|v values IH]; [reflexivity|].
  cbn [filter].
  assert (M1 : Qle_bool v (-(6 # 10)) = true ->
               Qle_bool v (-(2 # 10)) = true).
  { intros H. apply Qle_bool_iff in H. apply Qle_bool_iff.
    eapply Qle_trans; [exact H|]. unfold Qle; cbn; lia. }
  assert (M2 : Qle_bool v (-(2 # 10)) = true -> Qle_bool v (2 # 10) = true).
  { intros H. apply Qle_bool_iff in H. apply Qle_bool_iff.
    eapply Qle_trans; [exact H|]. unfold Qle; cbn; lia. }
  assert (M3 : Qle_bool v (2 # 10) = true -> Qle_bool v (6 # 10) = true).
  { intros H. apply Qle_bool_iff in H. apply Qle_bool_iff.
    eapply Qle_trans; [exact H|]. unfold Qle; cbn; lia. }
  destruct (Qle_bool v (-(6 # 10))) eqn:E1.
  { rewrite (M1 eq_refl), (M2 (M1 eq_refl)), (M3 (M2 (M1 eq_refl))).
    cbn [negb andb List.length]. lia. }
  destruct (Qle_bool v (-(2 # 10))) eqn:E2.
  { rewrite (M2 eq_refl), (M3 (M2 eq_refl)). cbn [negb andb List.length].
    lia. }
  destruct (Qle_bool v (2 # 10)) eqn:E3.
  { rewrite (M3 eq_refl). cbn [negb andb List.length]. lia. }
  destruct (Qle_bool v (6 # 10)) eqn:E4; cbn [negb andb List.length]; lia.
Qed.

(** *** Grouping the labels *)

Lemma find_group_add (l x : Z) (i : nat) (d : list (Z * list nat)) :
  option_map snd (find (fun g => (fst g =? l)%Z) (group_add x i d))
  = if (x =? l)%Z
    then Some (match option_map snd (find (fun g => (fst g =? x)%Z) d) with
               | Some old => old ++ [i]
               | None => [i]
               end)%list
    else option_map snd (find (fun g => (fst g =? l)%Z) d).
Proof.
  induction d as [|[k idxs] d IH]; cbn [group_add find fst snd option_map].
  - destruct (x =? l)%Z; reflexivity.
  - destruct (Z.eqb_spec k x) as [->|Hkx]; cbn [find fst snd option_map].
    + rewrite ?Z.eqb_refl. destruct (x =? l)%Z; reflexivity.
    + destruct (Z.eqb_spec k l) as [->|Hkl]; cbn [option_map snd].
      * destruct (Z.eqb_spec x l) as [E|_]; [congruence|reflexivity].
      * exact IH.
Qed.

Lemma keys_group_add (x : Z) (i : nat) (d : list (Z * list nat)) (k : Z) :
  In k (map fst (group_add x i d)) <-> k = x \/ In k (map fst d).
Proof.
  induction d as [|[k' idxs] d IH]; cbn [group_add map fst In].
  - split; [intros [H|[]]; left; symmetry; exact H
           |intros [H|[]]; left; symmetry; exact H].
  - destruct (Z.eqb_spec k' x) as [->|Hne]; cbn [map fst In].
    + intuition congruence.
    + rewrite IH. tauto.
Qed.

Lemma NoDup_group_add (x : Z) (i : nat) (d : list (Z * list nat)) :
  NoDup (map fst d) -> NoDup (map fst (group_add x i d)).
Proof.
  induction d as [|[k idxs] d IH]; cbn [group_add map fst]; intros Hnd.
  - constructor; [intros []|constructor].
  - inversion Hnd as [|? ? Hk Hd]; subst.
    destruct (Z.eqb_spec k x) as [->|Hne]; cbn [map fst].
    + constructor; assumption.
    + constructor; [|exact (IH Hd)].
      intros Hin. apply keys_group_add in Hin.
      destruct Hin as [E|Hin]; [exact (Hne E)|exact (Hk Hin)].
Qed.

Lemma group_fold (l : Z) (ils : list (nat * Z)) :
  l <> (-1)%Z ->
  forall d : list (Z * list nat),
    option_map snd
      (find (fun g => (fst g =? l)%Z)
         (fold_left
            (fun d il => if (snd il =? -1)%Z then d
                         else group_add (snd il) (fst il) d) ils d))
    = match option_map snd (find (fun g => (fst g =? l)%Z) d),
            map fst (filter (fun il => (snd il =? l)%Z) ils) with
      | Some old, sel => Some (old ++ sel)%list
      | None, [] => None
      | None, sel => Some sel
      end.
Proof.
  intros Hl. induction ils as [|[i x] ils IH]; intros d;
    cbn [fold_left filter map fst snd].
  - destruct (option_map snd (find _ d)); [rewrite app_nil_r|]; reflexivity.
  - rewrite IH. clear IH.
    destruct (Z.eqb_spec x (-1)) as [->|Hx].
    + destruct (Z.eqb_spec (-1) l) as [E|_]; [congruence|reflexivity].
    + rewrite find_group_add.
      destruct (Z.eqb_spec x l) as [->|Hxl]; cbn [map fst]; [|reflexivity].
      destruct (option_map snd (find (fun g => (fst g =? l)%Z) d));
        [rewrite <- app_assoc|]; reflexivity.
Qed.

Lemma group_fold_keys (ils : list (nat * Z)) :
  forall d : list (Z * list nat),
    NoDup (map fst d) -> ~ In (-1)%Z (map fst d) ->
    let d' := fold_left
                (fun d il => if (snd il =? -1)%Z then d
                             else group_add (snd il) (fst il) d) ils d in
    NoDup (map fst d') /\ ~ In (-1)%Z (map fst d').
Proof.
  induction ils as [|[i x] ils IH]; intros d Hnd Hno; cbn [fold_left];
    [split; assumption|].
  cbn [fst snd]. destruct (Z.eqb_spec x (-1)) as [->|Hx];
    [apply IH; assumption|].
  apply IH; [apply NoDup_group_add; exact Hnd|].
  intros Hin. apply keys_group_add in Hin.
  destruct Hin as [E|Hin]; [exact (Hx (eq_sym E))|exact (Hno Hin)].
Qed.

Lemma positions_of (l : Z) (labels : list Z) :
  forall a : nat,
    map fst (filter (fun il : nat * Z => (snd il =? l)%Z)
               (combine (seq a (List.length labels)) labels))
    = filter (fun i => (nth (i - a) labels (-1)%Z =? l)%Z)
             (seq a (List.length labels)).
Proof.
  induction labels as [|x labels IH]; intros a; [reflexivity|].
  cbn [List.length seq combine filter snd].
  rewrite Nat.sub_diag. change (nth 0 (x :: labels) (-1)%Z) with x.
  assert (Htail :
    filter (fun i => (nth (i - a) (x :: labels) (-1)%Z =? l)%Z)
           (seq (S a) (List.length labels))
    = filter (fun i => (nth (i - S a) labels (-1)%Z =? l)%Z)
             (seq (S a) (List.length labels))).
  { apply filter_ext_in. intros i Hi. apply in_seq in Hi.
    replace (i - a)%nat with (S (i - S a)) by lia. reflexivity. }
  destruct (x =? l)%Z; cbn [map fst]; rewrite IH, Htail; reflexivity.
Qed.

(** X18. Step 3 of [run] groups the positions by label: the noise label
    -1 gets no group, no label gets two groups, and the group of any
    other label is the ascending list of the positions that carry it,
    absent when there is none. *)
Theorem group_labels_partition (labels : list Z) :
  NoDup (map fst (group_labels labels))
  /\ ~ In (-1)%Z (map fst (group_labels labels))
  /\ forall l : Z,
       l <> (-1)%Z ->
       option_map snd (find (fun g => (fst g =? l)%Z) (group_labels labels))
       = match indices_of l labels with
         | [] => None
         | idxs => Some idxs
         end.
Proof.
  unfold group_labels.
  destruct (@group_fold_keys
              (combine (seq 0 (List.length labels)) labels) []
              (NoDup_nil _) (fun H => H)) as [Hnd Hno].
  split; [exact Hnd|]. split; [exact Hno|].
  intros l Hl. rewrite (group_fold _ Hl). cbn [find option_map].
  rewrite positions_of. unfold indices_of.
  assert (E : filter (fun i => (nth (i - 0) labels (-1)%Z =? l)%Z)
                     (seq 0 (List.length labels))
              = filter (fun i => (nth i labels (-1)%Z =? l)%Z)
                       (seq 0 (List.length labels))).
  { apply filter_ext. intros i. rewrite Nat.sub_0_r. reflexivity. }
  rewrite E. reflexivity.
Qed.

(** *** Matching against the previous run *)

Section Matching.

Variable F : Type.
Variable prevs : list (NarrativeCluster F).
Variable prev_members : list (string * list string).

Lemma mem_cons_false (x y : string) (l : list string) :
  mem x (y :: l) = false -> x <> y /\ mem x l = false.
Proof.
  unfold mem. cbn [existsb]. intros H. apply orb_false_elim in H.
  destruct H as [H1 H2]. split; [|exact H2].
  apply String.eqb_neq. exact H1.
Qed.

(** The Jaccard loop either keeps the best it started from, or ends on a
    previous cluster that is not used yet, has a non-empty member set
    and overlaps more than that best. *)
Lemma best_loop_inv (nc_members used : list string)
    (l : list (NarrativeCluster F)) :
  forall best : Q * option string,
    let r :=
      fold_left
        (fun best pc =>
           if mem (cl_id pc) used then best
           else
             let pm := match dict_get (cl_id pc) prev_members with
                       | Some s => s
                       | None => []
                       end in
             match pm with
             | [] => best
             | _ =>
                 let overlap := jaccard nc_members pm in
                 if LLM.Qltb (fst best) overlap
                 then (overlap, Some (cl_id pc))
                 else best
             end) l best in
    r = best
    \/ exists pc s,
         In pc l /\ mem (cl_id pc) used = false
         /\ dict_get (cl_id pc) prev_members = Some s
         /\ r = (jaccard nc_members s, Some (cl_id pc))
         /\ (fst best < jaccard nc_members s)%Q.
Proof.
  induction l as [|pc l IH]; intros best; cbn [fold_left];
    [left; reflexivity|].
  set (step := if mem (cl_id pc) used then best else _).
  assert (Hstep :
    step = best
    \/ exists s, mem (cl_id pc) used = false
                 /\ dict_get (cl_id pc) prev_members = Some s
                 /\ step = (jaccard nc_members s, Some (cl_id pc))
                 /\ (fst best < jaccard nc_members s)%Q).
  { subst step. destruct (mem (cl_id pc) used) eqn:Eu; [left; reflexivity|].
    destruct (dict_get (cl_id pc) prev_members) as [s|] eqn:Ed;
      [|left; reflexivity].
    destruct s as [|x s]; [left; reflexivity|]. cbn zeta.
    destruct (LLM.Qltb (fst best) (jaccard nc_members (x :: s))) eqn:Eq;
      [|left; reflexivity].
    right. exists (x :: s). apply LLMFacts.Qltb_true in Eq.
    repeat split; assumption. }
  specialize (IH step). cbn zeta in IH.
  destruct IH as [IH|(pc' & s' & Hin & Hu & Hd & Hr & Hlt)].
  - rewrite IH. destruct Hstep as [->|(s & Hu & Hd & -> & Hlt)];
      [left; reflexivity|].
    right. exists pc, s. split; [left; reflexivity|].
    repeat split; assumption.
  - right. exists pc', s'. split; [right; exact Hin|].
    split; [exact Hu|]. split; [exact Hd|]. split; [exact Hr|].
    destruct Hstep as [E|(s & _ & _ & E & Hlt')].
    + rewrite <- E. exact Hlt.
    + rewrite E in Hlt. cbn [fst] in Hlt.
      eapply Qlt_trans; eassumption.
Qed.

Lemma best_match_some (nc_members used : list string) (q : Q) (id : string) :
  best_match nc_members prevs prev_members used = (q, Some id) ->
  exists pc s,
    In pc prevs /\ cl_id pc = id /\ mem id used = false
    /\ dict_get id prev_members = Some s
    /\ q = jaccard nc_members s.
Proof.
  intros H. unfold best_match in H.
  destruct (best_loop_inv nc_members used prevs (0%Q, None))
    as [E|(pc & s & Hin & Hu & Hd & E & _)];
    cbn zeta in E; rewrite E in H; [discriminate|].
  injection H as <- <-. exists pc, s. repeat split; assumption.
Qed.

(** What the loop over the new clusters does to each of them. *)
Lemma match_loop_shape (news : list (NarrativeCluster F)) :
  forall used : list string,
    Forall2
      (fun nc o =>
         o = nc
         \/ exists pc s,
              In pc prevs /\ mem (cl_id pc) used = false
              /\ o = inherit nc (cl_id pc) (cl_first_seen pc)
              /\ dict_get (cl_id pc) prev_members = Some s
              /\ (7 # 10 < jaccard (py_set (cl_member_ids nc)) s)%Q)
      news (match_loop news prevs prev_members used).
Proof.
  induction news as [|nc news IH]; intros used; cbn [match_loop];
    [constructor|].
  assert (Hweak : forall id,
    Forall2
      (fun nc o =>
         o = nc
         \/ exists pc s,
              In pc prevs /\ mem (cl_id pc) used = false
              /\ o = inherit nc (cl_id pc) (cl_first_seen pc)
              /\ dict_get (cl_id pc) prev_members = Some s
              /\ (7 # 10 < jaccard (py_set (cl_member_ids nc)) s)%Q)
      news (match_loop news prevs prev_members (id :: used))).
  { intros id. eapply Forall2_impl; [|apply (IH (id :: used))].
    intros a b [E|(pc & s & H1 & H2 & H3)]; [left; exact E|].
    right. exists pc, s. split; [exact H1|].
    split; [exact (proj2 (mem_cons_false _ _ _ H2))|exact H3]. }
  destruct (py_set (cl_member_ids nc)) as [|m ms] eqn:Enm;
    [constructor; [left; reflexivity|apply IH]|].
  destruct (best_match (m :: ms) prevs prev_members used)
    as [q [id|]] eqn:Eb;
    [|constructor; [left; reflexivity|apply IH]].
  destruct (LLM.Qltb (7 # 10) q && negb (id =? "")) eqn:Ecmp;
    [|constructor; [left; reflexivity|apply IH]].
  apply andb_prop in Ecmp. destruct Ecmp as [Eq _].
  apply LLMFacts.Qltb_true in Eq.
  destruct (best_match_some _ _ Eb) as (pc & s & Hin & Hid & Hu & Hd & Hq).
  constructor; [|apply Hweak].
  right.
  destruct (find (fun pc0 => cl_id pc0 =? id) prevs) as [pc'|] eqn:Ef.
  - apply find_some in Ef. destruct Ef as [Hin' Hid'].
    apply String.eqb_eq in Hid'.
    exists pc', s. rewrite Hid'. split; [exact Hin'|].
    split; [exact Hu|]. split; [reflexivity|]. split; [exact Hd|].
    rewrite Enm, <- Hq. exact Eq.
  - exfalso. apply (find_none _ _ Ef) in Hin.
    rewrite Hid, String.eqb_refl in Hin. discriminate.
Qed.

Lemma match_loop_ids (news : list (NarrativeCluster F)) :
  NoDup (map (@cl_id F) news) ->
  (forall nc pc, In nc news -> In pc prevs -> cl_id nc <> cl_id pc) ->
  forall used : list string,
    NoDup (map (@cl_id F) (match_loop news prevs prev_members used))
    /\ forall id,
         In id (map (@cl_id F) (match_loop news prevs prev_members used)) ->
         In id (map (@cl_id F) news)
         \/ (In id (map (@cl_id F) prevs) /\ mem id used = false).
Proof.
  induction news as [|nc news IH]; intros Hnd Hfresh used.
  { cbn [match_loop map]. split; [constructor|intros id []]. }
  cbn [map] in Hnd. inversion Hnd as [|? ? Hnotin Hnd']; subst.
  assert (Hfresh' : forall nc0 pc, In nc0 news -> In pc prevs ->
                                   cl_id nc0 <> cl_id pc).
  { intros nc0 pc H1 H2. apply Hfresh; [right; exact H1|exact H2]. }
  specialize (IH Hnd' Hfresh').
  assert (Hkeep :
    NoDup (map (@cl_id F) (nc :: match_loop news prevs prev_members used))
    /\ forall id,
         In id (map (@cl_id F)
                    (nc :: match_loop news prevs prev_members used)) ->
         In id (map (@cl_id F) (nc :: news))
         \/ (In id (map (@cl_id F) prevs) /\ mem id used = false)).
  { destruct (IH used) as [Hn Hids]. cbn [map]. split.
    - constructor; [|exact Hn]. intros Hin.
      destruct (Hids _ Hin) as [H|[H _]]; [exact (Hnotin H)|].
      apply in_map_iff in H. destruct H as (pc & E & Hpc).
      exact (Hfresh nc pc (or_introl eq_refl) Hpc (eq_sym E)).
    - intros id [<-|Hin]; [left; left; reflexivity|].
      destruct (Hids _ Hin) as [H|H]; [left; right; exact H|right; exact H]. }
  cbn [match_loop].
  destruct (py_set (cl_member_ids nc)) as [|m ms] eqn:Enm; [exact Hkeep|].
  destruct (best_match (m :: ms) prevs prev_members used)
    as [q [id|]] eqn:Eb; [|exact Hkeep].
  destruct (LLM.Qltb (7 # 10) q && negb (id =? "")); [|exact Hkeep].
  destruct (best_match_some _ _ Eb) as (pc & s & Hin & Hid & Hu & _).
  destruct (IH (id :: used)) as [Hn Hids].
  cbn [map inherit cl_id]. split.
  - constructor; [|exact Hn]. intros Hin'.
    destruct (Hids _ Hin') as [H|[_ H]].
    + apply in_map_iff in H. destruct H as (nc0 & E & Hnc0).
      apply (Hfresh nc0 pc (or_intror Hnc0) Hin). congruence.
    + apply mem_cons_false in H. destruct H as [H _]. exact (H eq_refl).
  - intros id' [<-|Hin'].
    + right. split; [|exact Hu]. apply in_map_iff. exists pc.
      split; assumption.
    + destruct (Hids _ Hin') as [H|[H1 H2]]; [left; right; exact H|].
      right. split; [exact H1|exact (proj2 (mem_cons_false _ _ _ H2))].
Qed.

End Matching.

(** X16. [_match_clusters] only reads the store and keeps cluster ids
    unique: when the new clusters carry distinct fresh ids, the clusters
    it returns have distinct ids too, no previous id being inherited
    twice; each returned cluster is the new one unchanged, or the new
    one with the id and first_seen of a previous cluster and status
    active. *)
Theorem match_clusters_keeps_ids_unique
    (F : Type) (st : Store F)
    (news prevs out : list (NarrativeCluster F)) :
  NoDup (map (@cl_id F) news) ->
  (forall nc pc, In nc news -> In pc prevs -> cl_id nc <> cl_id pc) ->
  fst (_match_clusters news prevs st) = Ok out ->
  snd (_match_clusters news prevs st) = st
  /\ NoDup (map (@cl_id F) out)
  /\ Forall2 (fun nc o =>
                o = nc
                \/ exists pc, In pc prevs
                              /\ o = inherit nc (cl_id pc) (cl_first_seen pc))
             news out.
Proof.
  intros Hnd Hfresh Hout. unfold _match_clusters in *.
  destruct prevs as [|p prevs'] eqn:Eprevs.
  { cbn [ret fst snd] in *. injection Hout as <-.
    split; [reflexivity|]. split; [exact Hnd|].
    clear. induction news; constructor; [left; reflexivity|assumption]. }
  rewrite <- Eprevs in *. clear Eprevs p prevs'.
  unfold bind, ret in *.
  assert (Hst : snd (load_prev_members prevs st) = st).
  { clear. induction prevs as [|pc l IH]; [reflexivity|].
    cbn [load_prev_members]. unfold bind, get_items_by_cluster, ret.
    destruct (rmap_list _row_to_item _); [|reflexivity].
    destruct (load_prev_members l st) as [[d|e] s']; cbn [snd] in *;
      exact IH. }
  destruct (load_prev_members prevs st) as [[d|e] st1];
    cbn [fst snd] in *; [|discriminate].
  injection Hout as <-.
  split; [exact Hst|].
  split; [exact (proj1 (@match_loop_ids F prevs d news Hnd Hfresh []))|].
  eapply Forall2_impl; [|apply (@match_loop_shape F prevs d news [])].
  intros nc o [E|(pc & s & Hin & _ & E & _)]; [left; exact E|].
  right. exists pc. split; assumption.
Qed.

Lemma match_clusters_keeps_ids_unique_witness :
  NoDup (map (@cl_id Q)
           (match_loop [Scenario.new_1; Scenario.new_2]
              [Scenario.prev_1; Scenario.prev_2]
              (members_dict Scenario.after_first_run
                 [Scenario.prev_1; Scenario.prev_2]) [])).
Proof.
  refine (proj1 (proj2 (@match_clusters_keeps_ids_unique Q
            Scenario.after_first_run [Scenario.new_1; Scenario.new_2]
            [Scenario.prev_1; Scenario.prev_2] _ _ _ eq_refl))).
  - cbn. repeat constructor; cbn; intuition discriminate.
  - intros nc pc Hn Hp. cbn in Hn, Hp.
    destruct Hn as [<-|[<-|[]]]; destruct Hp as [<-|[<-|[]]];
      cbn; discriminate.
Defined.

(** X17. The threshold is strict: when no new cluster overlaps the
    stored members of a previous cluster by more than 0.7 (Jaccard),
    [_match_clusters] returns the new clusters as they are, an overlap of
    exactly 0.7 included. *)
Theorem match_needs_overlap_above_threshold
    (F : Type) (st : Store F) (news prevs : list (NarrativeCluster F)) :
  rows_decodable st ->
  (forall nc pc, In nc news -> In pc prevs ->
     (jaccard (py_set (cl_member_ids nc))
              (py_set (stored_members st (cl_id pc))) <= 7 # 10)%Q) ->
  _match_clusters news prevs st = (Ok news, st).
Proof.
  intros Hd Hlow. unfold _match_clusters.
  destruct prevs as [|p prevs'] eqn:Eprevs; [reflexivity|].
  rewrite <- Eprevs in *. clear Eprevs p prevs'.
  unfold bind. rewrite (@MatchFacts.load_prev_members_ok F st prevs Hd).
  unfold ret. f_equal. f_equal.
  assert (H : Forall2 (fun nc o => o = nc) news
                (match_loop news prevs (members_dict st prevs) [])).
  { assert (Haux : forall l l',
      Forall2
        (fun nc o =>
           o = nc
           \/ exists pc s,
                In pc prevs /\ mem (cl_id pc) [] = false
                /\ o = inherit nc (cl_id pc) (cl_first_seen pc)
                /\ dict_get (cl_id pc) (members_dict st prevs) = Some s
                /\ (7 # 10 < jaccard (py_set (cl_member_ids nc)) s)%Q)
        l l' ->
      (forall nc, In nc l -> In nc news) ->
      Forall2 (fun nc o : NarrativeCluster F => o = nc) l l').
    { intros l l' HF.
      induction HF as [|nc o l l' Hrel HF IH]; intros Hall; constructor.
      - destruct Hrel as [E|(pc & s & Hin & _ & _ & Hget & Hgt)];
          [exact E|].
        exfalso.
        rewrite (@MatchFacts.members_dict_get F st prevs pc Hin) in Hget.
        injection Hget as <-.
        apply (Qlt_not_le _ _ Hgt).
        apply Hlow; [apply Hall; left; reflexivity|exact Hin].
      - apply IH. intros nc' H'. apply Hall. right. exact H'. }
    apply Haux; [|auto].
    apply (@match_loop_shape F prevs (members_dict st prevs) news []). }
  clear Hlow. induction H as [|nc o l l' E _ IH]; [reflexivity|].
  rewrite E, IH. reflexivity.
Qed.

Lemma after_ten_decodable : rows_decodable Scenario.after_ten.
Proof.
  unfold rows_decodable. vm_compute items.
  repeat (constructor; [eexists; vm_compute; reflexivity|]). constructor.
Qed.

Lemma match_needs_overlap_above_threshold_witness :
  (jaccard (py_set (cl_member_ids Scenario.new_seven))
           (py_set (stored_members Scenario.after_ten "p10")) == 7 # 10)%Q
  /\ _match_clusters [Scenario.new_seven] [Scenario.prev_ten]
       Scenario.after_ten
     = (Ok [Scenario.new_seven], Scenario.after_ten).
Proof.
  split; [vm_compute; reflexivity|].
  apply (@match_needs_overlap_above_threshold Q Scenario.after_ten
           [Scenario.new_seven] [Scenario.prev_ten] after_ten_decodable).
  intros nc pc [<-|[]] [<-|[]]. vm_compute. discriminate.
Defined.

(** *** Persisting the clusters *)

Lemma for_each_cons {S A} (a : A) (l : list A) (body : A -> M S unit)
    (s : S) :
  for_each (a :: l) body s
  = match body a s with
    | (Ok _, s') => for_each l body s'
    | (Raise e, s') => (Raise e, s')
    end.
Proof. reflexivity. Qed.

Section Persist.

Variable F : Type.
Variable now : datetime.

Lemma has_id_ids (st st' : Store F) (id : string) :
  map col_id (items st') = map col_id (items st) ->
  has_id id st' = has_id id st.
Proof.
  intros H. unfold has_id.
  assert (E : forall rows : list ItemRow,
             existsb (fun r => col_id r =? id) rows
             = existsb (fun x => x =? id) (map col_id rows)).
  { induction rows as [|r rows IH]; [reflexivity|].
    cbn [existsb map]. rewrite IH. reflexivity. }
  rewrite !E, H. reflexivity.
Qed.

(** One turn of the loop over the member ids of a cluster. *)
Lemma member_step (mid cid label : string) (st : Store F) :
  existsb (fun r => ccol_id r =? cid) (clusters st) = true ->
  (forall m, In m (cluster_membership st) ->
             mcol_assigned_at m = _dt_to_str now) ->
  let r := fst (bind (set_cluster_membership now mid cid)
                     (fun _ => update_item_cluster mid cid label) st) in
  let st' := snd (bind (set_cluster_membership now mid cid)
                       (fun _ => update_item_cluster mid cid label) st) in
  map col_id (items st') = map col_id (items st)
  /\ clusters st' = clusters st
  /\ (forall m, In m (cluster_membership st') ->
                mcol_assigned_at m = _dt_to_str now)
  /\ ((has_id mid st = false /\ r = Raise IntegrityError
       /\ cluster_membership st' = cluster_membership st)
      \/ (has_id mid st = true /\ r = Ok tt
          /\ forall m, In m (cluster_membership st')
                       <-> In m (cluster_membership st)
                           \/ m = mkMembershipRow mid cid (_dt_to_str now))).
Proof.
  intros Hc Hstamp r st'. subst r st'.
  unfold bind, set_cluster_membership. fold (has_id mid st). rewrite Hc.
  destruct (has_id mid st) eqn:Eid; cbn [andb fst snd].
  - unfold update_item_cluster, modify, set_items, set_membership.
    cbn [fst snd items clusters cluster_membership].
    split.
    { rewrite map_map. apply map_ext. intros a.
      destruct (col_id a =? mid); reflexivity. }
    split; [reflexivity|].
    assert (Hiff : forall m,
      In m (filter (fun m0 => negb ((mcol_item_id m0 =? mid)
                                    && (mcol_cluster_id m0 =? cid)))
              (cluster_membership st)
            ++ [mkMembershipRow mid cid (_dt_to_str now)])
      <-> In m (cluster_membership st)
          \/ m = mkMembershipRow mid cid (_dt_to_str now)).
    { intros m. rewrite in_app_iff, filter_In. cbn [In]. split.
      - intros [[H _]|[H|[]]]; [left; exact H|right; symmetry; exact H].
      - intros [H|H]; [|right; left; symmetry; exact H].
        destruct ((mcol_item_id m =? mid) && (mcol_cluster_id m =? cid))
          eqn:Ep; [|left; split; [exact H|reflexivity]].
        right. left. apply andb_prop in Ep. destruct Ep as [E1 E2].
        apply String.eqb_eq in E1. apply String.eqb_eq in E2.
        specialize (Hstamp m H). destruct m as [a b c].
        cbn in E1, E2, Hstamp. subst. reflexivity. }
    split.
    { intros m Hm. apply Hiff in Hm. destruct Hm as [Hm| ->];
        [exact (Hstamp m Hm)|reflexivity]. }
    right. split; [reflexivity|]. split; [reflexivity|exact Hiff].
  - split; [reflexivity|]. split; [reflexivity|].
    split; [exact Hstamp|]. left. repeat split.
Qed.

Lemma member_loop (cid label : string) (mids : list string) :
  forall st : Store F,
  existsb (fun r => ccol_id r =? cid) (clusters st) = true ->
  (forall m, In m (cluster_membership st) ->
             mcol_assigned_at m = _dt_to_str now) ->
  let r := fst (for_each mids (fun mid =>
                  bind (set_cluster_membership now mid cid)
                       (fun _ => update_item_cluster mid cid label)) st) in
  let st' := snd (for_each mids (fun mid =>
                    bind (set_cluster_membership now mid cid)
                         (fun _ => update_item_cluster mid cid label)) st) in
  map col_id (items st') = map col_id (items st)
  /\ clusters st' = clusters st
  /\ (forall m, In m (cluster_membership st') ->
                mcol_assigned_at m = _dt_to_str now)
  /\ ((r = Raise IntegrityError
       /\ exists mid, In mid mids /\ has_id mid st = false)
      \/ (r = Ok tt
          /\ (forall mid, In mid mids -> has_id mid st = true)
          /\ forall m, In m (cluster_membership st')
                       <-> In m (cluster_membership st)
                           \/ exists mid,
                                In mid mids
                                /\ m = mkMembershipRow mid cid
                                         (_dt_to_str now))).
Proof.
  induction mids as [|mid mids IH]; intros st Hc Hstamp.
  - cbn [for_each ret fst snd]. split; [reflexivity|].
    split; [reflexivity|]. split; [exact Hstamp|]. right.
    split; [reflexivity|]. split; [intros ? []|].
    intros m. split; [intros H; left; exact H|].
    intros [H|(mid & [] & _)]. exact H.
  - destruct (@member_step mid cid label st Hc Hstamp)
      as (Hids1 & Hcl1 & Hst1 & Hcase).
    rewrite for_each_cons.
    destruct (bind (set_cluster_membership now mid cid)
                   (fun _ => update_item_cluster mid cid label) st)
      as [r1 st1] eqn:E1.
    cbn [fst snd] in Hids1, Hcl1, Hst1, Hcase.
    destruct Hcase as [(Hno & -> & _)|(Hyes & -> & Hmem1)].
    + cbn [fst snd]. split; [exact Hids1|]. split; [exact Hcl1|].
      split; [exact Hst1|]. left. split; [reflexivity|].
      exists mid. split; [left; reflexivity|exact Hno].
    + assert (Hc1 : existsb (fun r => ccol_id r =? cid) (clusters st1) = true)
        by (rewrite Hcl1; exact Hc).
      destruct (IH st1 Hc1 Hst1) as (Hids2 & Hcl2 & Hst2 & Hcase2).
      split; [rewrite Hids2; exact Hids1|].
      split; [rewrite Hcl2; exact Hcl1|]. split; [exact Hst2|].
      destruct Hcase2 as [(Hr & mid' & Hin & Hno)|(Hr & Hall & Hmem2)].
      * left. split; [exact Hr|]. exists mid'. split; [right; exact Hin|].
        rewrite <- (has_id_ids st st1 mid' Hids1). exact Hno.
      * right. split; [exact Hr|]. split.
        { intros mid' [<-|Hin]; [exact Hyes|].
          rewrite <- (has_id_ids st st1 mid' Hids1). exact (Hall _ Hin). }
        intros m. rewrite Hmem2, Hmem1. split.
        -- intros [[H|H]|(mid' & Hin & H)].
           ++ left. exact H.
           ++ right. exists mid. split; [left; reflexivity|exact H].
           ++ right. exists mid'. split; [right; exact Hin|exact H].
        -- intros [H|(mid' & [<-|Hin] & H)].
           ++ left. left. exact H.
           ++ left. right. exact H.
           ++ right. exists mid'. split; assumption.
Qed.

Lemma cluster_loop (news : list (NarrativeCluster F)) :
  forall st : Store F,
  (forall m, In m (cluster_membership st) ->
             mcol_assigned_at m = _dt_to_str now) ->
  let body := fun cluster : NarrativeCluster F =>
    bind (upsert_cluster cluster) (fun _ =>
      for_each (cl_member_ids cluster) (fun mid =>
        bind (set_cluster_membership now mid (cl_id cluster))
             (fun _ => update_item_cluster mid (cl_id cluster)
                         (cl_label cluster)))) in
  let r := fst (for_each news body st) in
  let st' := snd (for_each news body st) in
  map col_id (items st') = map col_id (items st)
  /\ (forall row, In row (clusters st) ->
                  ~ In (ccol_id row) (map (@cl_id F) news) ->
                  In row (clusters st'))
  /\ (forall row, In row (clusters st') ->
                  In row (clusters st)
                  \/ exists c, In c news /\ row = cluster_to_row c)
  /\ ((r = Raise IntegrityError
       /\ exists c mid, In c news /\ In mid (cl_member_ids c)
                        /\ has_id mid st = false)
      \/ (r = Ok tt
          /\ (forall c mid, In c news -> In mid (cl_member_ids c) ->
                            has_id mid st = true)
          /\ (forall m, In m (cluster_membership st')
                        <-> In m (cluster_membership st)
                            \/ exists c mid,
                                 In c news /\ In mid (cl_member_ids c)
                                 /\ m = mkMembershipRow mid (cl_id c)
                                          (_dt_to_str now))
          /\ (NoDup (map (@cl_id F) news) ->
              forall c, In c news -> In (cluster_to_row c) (clusters st')))).
Proof.
  induction news as [|c news IH]; intros st Hstamp body.
  - cbn [for_each ret fst snd]. split; [reflexivity|].
    split; [intros row H _; exact H|]. split; [intros row H; left; exact H|].
    right. split; [reflexivity|]. split; [intros ? ? []|].
    split; [|intros _ ? []].
    intros m. split; [intros H; left; exact H|].
    intros [H|(c & mid & [] & _)]. exact H.
  - subst body. rewrite for_each_cons. cbv beta.
    assert (Ebody : bind (upsert_cluster c) (fun _ =>
                      for_each (cl_member_ids c) (fun mid =>
                        bind (set_cluster_membership now mid (cl_id c))
                             (fun _ => update_item_cluster mid (cl_id c)
                                         (cl_label c)))) st
                    = for_each (cl_member_ids c)
                        (fun mid =>
                           bind (set_cluster_membership now mid (cl_id c))
                                (fun _ => update_item_cluster mid (cl_id c)
                                            (cl_label c)))
                        (set_clusters
                           (fun rows =>
                              (filter (fun r => negb (ccol_id r =? cl_id c))
                                      rows
                               ++ [cluster_to_row c])%list) st))
      by reflexivity.
    rewrite Ebody. clear Ebody.
    set (st0 := set_clusters
                  (fun rows =>
                     (filter (fun r => negb (ccol_id r =? cl_id c)) rows
                      ++ [cluster_to_row c])%list) st).
    assert (Hc0 : existsb (fun r => ccol_id r =? cl_id c) (clusters st0)
                  = true).
    { subst st0. cbn [set_clusters clusters]. rewrite existsb_app.
      cbn [existsb cluster_to_row ccol_id]. rewrite String.eqb_refl.
      rewrite orb_true_r. reflexivity. }
    assert (Hstamp0 : forall m, In m (cluster_membership st0) ->
                                mcol_assigned_at m = _dt_to_str now)
      by exact Hstamp.
    destruct (@member_loop (cl_id c) (cl_label c) (cl_member_ids c) st0
                Hc0 Hstamp0) as (Hids1 & Hcl1 & Hst1 & Hcase1).
    destruct (for_each (cl_member_ids c)
                (fun mid =>
                   bind (set_cluster_membership now mid (cl_id c))
                        (fun _ => update_item_cluster mid (cl_id c)
                                    (cl_label c))) st0)
      as [r1 st1] eqn:E1.
    cbn [fst snd] in Hids1, Hcl1, Hst1, Hcase1.
    assert (Hitems0 : map col_id (items st1) = map col_id (items st))
      by exact Hids1.
    assert (Hkeep1 : forall row, In row (clusters st) ->
                                 ccol_id row <> cl_id c ->
                                 In row (clusters st1)).
    { intros row Hin Hne. rewrite Hcl1. subst st0.
      cbn [set_clusters clusters]. apply in_or_app. left.
      apply filter_In. split; [exact Hin|]. apply negb_true_iff.
      apply String.eqb_neq. exact Hne. }
    assert (Hfrom1 : forall row, In row (clusters st1) ->
                                 In row (clusters st)
                                 \/ row = cluster_to_row c).
    { intros row Hin. rewrite Hcl1 in Hin. subst st0.
      cbn [set_clusters clusters] in Hin. apply in_app_or in Hin.
      destruct Hin as [Hin|[<-|[]]]; [|right; reflexivity].
      apply filter_In in Hin. left. exact (proj1 Hin). }
    destruct Hcase1 as [(-> & mid & Hin & Hno)|(-> & Hall1 & Hmem1)].
    + cbn [fst snd]. split; [exact Hitems0|].
      split.
      { intros row Hrow Hnot. apply Hkeep1; [exact Hrow|].
        intros E. apply Hnot. cbn [map]. left. symmetry. exact E. }
      split.
      { intros row Hrow. destruct (Hfrom1 row Hrow) as [H|H];
          [left; exact H|right; exists c; split; [left; reflexivity|exact H]]. }
      left. split; [reflexivity|]. exists c, mid.
      split; [left; reflexivity|]. split; [exact Hin|exact Hno].
    + destruct (IH st1 Hst1) as (Hids2 & Hkeep2 & Hfrom2 & Hcase2).
      cbn zeta in Hids2, Hkeep2, Hfrom2, Hcase2.
      split; [rewrite Hids2; exact Hitems0|].
      split.
      { intros row Hrow Hnot. cbn [map In] in Hnot.
        apply Hkeep2; [apply Hkeep1; [exact Hrow|]|];
          intros E; apply Hnot; [left; symmetry; exact E|right; exact E]. }
      split.
      { intros row Hrow. destruct (Hfrom2 row Hrow) as [H|(c' & Hc' & H)].
        - destruct (Hfrom1 row H) as [H'|H'];
            [left; exact H'
            |right; exists c; split; [left; reflexivity|exact H']].
        - right. exists c'. split; [right; exact Hc'|exact H]. }
      destruct Hcase2 as [(Hr & c' & mid & Hc' & Hin & Hno)
                         |(Hr & Hall2 & Hmem2 & Hrows2)].
      * left. split; [exact Hr|]. exists c', mid.
        split; [right; exact Hc'|]. split; [exact Hin|].
        rewrite <- (has_id_ids st st1 mid Hitems0). exact Hno.
      * right. split; [exact Hr|]. split.
        { intros c' mid [<-|Hc'] Hin.
          - exact (Hall1 mid Hin).
          - rewrite <- (has_id_ids st st1 mid Hitems0).
            exact (Hall2 c' mid Hc' Hin). }
        split.
        { intros m. rewrite Hmem2, Hmem1. split.
          - intros [[H|(mid & Hin & H)]|(c' & mid & Hc' & Hin & H)].
            + left. exact H.
            + right. exists c, mid. split; [left; reflexivity|].
              split; assumption.
            + right. exists c', mid. split; [right; exact Hc'|].
              split; assumption.
          - intros [H|(c' & mid & [<-|Hc'] & Hin & H)].
            + left. left. exact H.
            + left. right. exists mid. split; assumption.
            + right. exists c', mid. repeat split; assumption. }
        intros Hnd c' Hc'. cbn [map] in Hnd.
        inversion Hnd as [|? ? Hnotin Hnd']; subst.
        destruct Hc' as [<-|Hc']; [|exact (Hrows2 Hnd' c' Hc')].
        apply Hkeep2; [|exact Hnotin].
        rewrite Hcl1. unfold st0. cbn [set_clusters clusters].
        apply in_or_app. right. left. reflexivity.
Qed.

Lemma fading_loop (new_ids : list string)
    (prevs : list (NarrativeCluster F)) :
  forall st : Store F,
  let body := fun prev : NarrativeCluster F =>
    if mem (cl_id prev) new_ids then ret tt
    else update_cluster_status (cl_id prev) (ClusterStatus_value FADING) in
  let st' := snd (for_each prevs body st) in
  fst (for_each prevs body st) = Ok tt
  /\ items st' = items st
  /\ cluster_membership st' = cluster_membership st
  /\ (forall row, In row (clusters st) -> In (ccol_id row) new_ids ->
                  In row (clusters st'))
  /\ (forall row', In row' (clusters st') ->
        exists row, In row (clusters st) /\ ccol_id row' = ccol_id row
                    /\ (row' = row \/ ccol_status row' = "fading"))
  /\ (forall prev row', In prev prevs -> ~ In (cl_id prev) new_ids ->
                        In row' (clusters st') ->
                        ccol_id row' = cl_id prev ->
                        ccol_status row' = "fading").
Proof.
  induction prevs as [|prev prevs IH]; intros st body.
  - cbn [for_each ret fst snd]. repeat split; try (intros; assumption).
    + intros row' H. exists row'. repeat split; [exact H|left; reflexivity].
    + intros ? ? [].
  - rewrite for_each_cons.
    set (st1 := snd (body prev st)).
    assert (E1 : body prev st = (Ok tt, st1)).
    { subst st1. unfold body. destruct (mem (cl_id prev) new_ids);
        reflexivity. }
    rewrite E1.
    assert (Hitems : items st1 = items st
                     /\ cluster_membership st1 = cluster_membership st).
    { subst st1. unfold body. destruct (mem (cl_id prev) new_ids);
        split; reflexivity. }
    assert (Hrows : forall row1, In row1 (clusters st1) ->
              exists row, In row (clusters st)
                          /\ ccol_id row1 = ccol_id row
                          /\ (row1 = row
                              \/ (ccol_status row1 = "fading"
                                  /\ ccol_id row = cl_id prev
                                  /\ mem (cl_id prev) new_ids = false))).
    { subst st1. unfold body. intros row1 H.
      destruct (mem (cl_id prev) new_ids) eqn:Em.
      - exists row1. split; [exact H|]. split; [reflexivity|left; reflexivity].
      - unfold update_cluster_status, modify, set_clusters in H.
        cbn [snd clusters] in H. apply in_map_iff in H.
        destruct H as (row & <- & Hin). exists row. split; [exact Hin|].
        destruct (String.eqb_spec (ccol_id row) (cl_id prev)) as [E|E].
        + split; [reflexivity|]. right. repeat split. exact E.
        + split; [reflexivity|left; reflexivity]. }
    assert (Hfwd : forall row, In row (clusters st) ->
              In (if (ccol_id row =? cl_id prev)
                     && negb (mem (cl_id prev) new_ids)
                  then set_row_status (ClusterStatus_value FADING) row
                  else row) (clusters st1)).
    { subst st1. unfold body. intros row H.
      destruct (mem (cl_id prev) new_ids) eqn:Em.
      - rewrite andb_false_r. exact H.
      - rewrite andb_true_r.
        unfold update_cluster_status, modify, set_clusters.
        cbn [snd clusters]. apply in_map_iff. exists row.
        split; [reflexivity|exact H]. }
    assert (Hhead : forall row1, In row1 (clusters st1) ->
              ccol_id row1 = cl_id prev ->
              mem (cl_id prev) new_ids = false ->
              ccol_status row1 = "fading").
    { subst st1. unfold body. intros row1 H Hid Hm. rewrite Hm in H.
      unfold update_cluster_status, modify, set_clusters in H.
      cbn [snd clusters] in H. apply in_map_iff in H.
      destruct H as (row & <- & _).
      destruct (String.eqb_spec (ccol_id row) (cl_id prev)) as [E|E];
        [reflexivity|].
      exfalso. exact (E Hid). }
    destruct (IH st1) as (Hr & Hit & Hmb & Hkeep & Hprov & Hfade).
    cbn zeta in Hit, Hmb, Hkeep, Hprov, Hfade.
    cbv zeta. fold body in Hr, Hit, Hmb, Hkeep, Hprov, Hfade.
    split; [exact Hr|].
    split; [rewrite Hit; exact (proj1 Hitems)|].
    split; [rewrite Hmb; exact (proj2 Hitems)|].
    split.
    { intros row Hrow Hnew. specialize (Hfwd row Hrow).
      apply MatchFacts.mem_In in Hnew.
      destruct (String.eqb_spec (ccol_id row) (cl_id prev)) as [E|E];
        cbn [andb] in Hfwd.
      - rewrite <- E, Hnew in Hfwd. cbn [negb] in Hfwd.
        apply (Hkeep row Hfwd). apply MatchFacts.mem_In. exact Hnew.
      - apply (Hkeep row Hfwd). apply MatchFacts.mem_In. exact Hnew. }
    split.
    { intros row' Hrow'.
      destruct (Hprov row' Hrow') as (row1 & Hin1 & Hid1 & Hs1).
      destruct (Hrows row1 Hin1) as (row & Hin & Hid & Hs).
      exists row. split; [exact Hin|]. split; [congruence|].
      destruct Hs1 as [->|Hs1]; [|right; exact Hs1].
      destruct Hs as [->|(Hs & _)]; [left; reflexivity|right; exact Hs]. }
    intros p row' [<-|Hp] Hnot Hrow' Hid.
    + destruct (Hprov row' Hrow') as (row1 & Hin1 & Hid1 & Hs1).
      destruct Hs1 as [->|Hs1]; [|exact Hs1].
      apply (Hhead row1 Hin1 Hid).
      apply MatchFacts.mem_false. exact Hnot.
    + exact (Hfade p row' Hp Hnot Hrow' Hid).
Qed.

End Persist.

(** X19. Step 7 of [run] succeeds exactly when every member id of every
    new cluster is the id of a stored item; otherwise the foreign key of
    the membership table makes it raise [IntegrityError].  When it
    succeeds, the membership table holds exactly the pairs of a member
    and its cluster, stamped with the clock of the run, every new
    cluster (their ids being distinct) has its row, and every previous
    cluster whose id was not inherited is marked fading.  No item id
    changes in either case. *)
Theorem persist_outcome
    (F : Type) (now : datetime)
    (news prevs : list (NarrativeCluster F)) (st : Store F) :
  let r := fst (persist now news prevs st) in
  let st' := snd (persist now news prevs st) in
  map col_id (items st') = map col_id (items st)
  /\ ((r = Raise IntegrityError
       /\ exists c mid, In c news /\ In mid (cl_member_ids c)
                        /\ has_id mid st = false)
      \/ (r = Ok tt
          /\ (forall c mid, In c news -> In mid (cl_member_ids c) ->
                            has_id mid st = true)
          /\ (forall m, In m (cluster_membership st')
                        <-> exists c mid,
                              In c news /\ In mid (cl_member_ids c)
                              /\ m = mkMembershipRow mid (cl_id c)
                                       (_dt_to_str now))
          /\ (NoDup (map (@cl_id F) news) ->
              forall c, In c news -> In (cluster_to_row c) (clusters st'))
          /\ (forall prev row,
                In prev prevs ->
                ~ In (cl_id prev) (map (@cl_id F) news) ->
                In row (clusters st') -> ccol_id row = cl_id prev ->
                ccol_status row = "fading"))).
Proof.
  intros r st'. subst r st'.
  set (st0 := set_membership (fun _ => []) st).
  assert (Hstamp0 : forall m, In m (cluster_membership st0) ->
                              mcol_assigned_at m = _dt_to_str now)
    by (intros m []).
  assert (Epersist :
    persist now news prevs st
    = match for_each news (fun cluster : NarrativeCluster F =>
              bind (upsert_cluster cluster) (fun _ =>
                for_each (cl_member_ids cluster) (fun mid =>
                  bind (set_cluster_membership now mid (cl_id cluster))
                       (fun _ => update_item_cluster mid (cl_id cluster)
                                   (cl_label cluster))))) st0 with
      | (Ok _, st1) =>
          for_each prevs (fun prev : NarrativeCluster F =>
            if mem (cl_id prev) (map (@cl_id F) news) then ret tt
            else update_cluster_status (cl_id prev)
                   (ClusterStatus_value FADING)) st1
      | (Raise e, st1) => (Raise e, st1)
      end) by reflexivity.
  rewrite Epersist. clear Epersist.
  destruct (@cluster_loop F now news st0 Hstamp0)
    as (Hids & _ & _ & Hcase).
  cbn zeta in Hids, Hcase.
  destruct (for_each news _ st0) as [r1 st1].
  cbn [fst snd] in Hids, Hcase.
  destruct Hcase as [(-> & Hex)|(-> & Hall & Hmem & Hrows)].
  - cbn [fst snd]. split; [exact Hids|]. left. split; [reflexivity|exact Hex].
  - destruct (@fading_loop F (map (@cl_id F) news) prevs st1)
      as (Hr & Hit & Hmb & Hkeep & _ & Hfade).
    cbn zeta in Hit, Hmb, Hkeep, Hfade.
    split; [rewrite Hit; exact Hids|].
    right. split; [exact Hr|]. split; [exact Hall|].
    split.
    { intros m. rewrite Hmb, Hmem. split.
      - intros [[]|H]. exact H.
      - intros H. right. exact H. }
    split.
    { intros Hnd c Hc. apply Hkeep; [exact (Hrows Hnd c Hc)|].
      cbn [cluster_to_row ccol_id]. apply in_map. exact Hc. }
    exact Hfade.
Qed.


End RunFacts.

(* ===================================================================== *)
(** ** What the divergence detector can report                            *)
(* ===================================================================== *)

Module DetectorFacts.
Import Datetime Models SQLiteStore VectorStore Divergence Spec.
Local Open Scope string_scope.

(** *** Source groups *)

Lemma keys_group_append (key v k : string) (d : list (string * list string)) :
  In k (map fst (group_append key v d)) <-> k = key \/ In k (map fst d).
Proof.
  induction d as [|[k' vs] d IH]; cbn [group_append map fst In].
  - intuition congruence.
  - destruct (String.eqb_spec k' key) as [->|Hne]; cbn [map fst In].
    + intuition congruence.
    + rewrite IH. tauto.
Qed.

Lemma NoDup_group_append (key v : string) (d : list (string * list string)) :
  NoDup (map fst d) -> NoDup (map fst (group_append key v d)).
Proof.
  induction d as [|[k vs] d IH]; cbn [group_append map fst]; intros Hnd.
  - constructor; [intros []|constructor].
  - inversion Hnd as [|? ? Hk Hd]; subst.
    destruct (String.eqb_spec k key) as [->|Hne]; cbn [map fst].
    + constructor; assumption.
    + constructor; [|exact (IH Hd)].
      intros Hin. apply keys_group_append in Hin.
      destruct Hin as [E|Hin]; [exact (Hne E)|exact (Hk Hin)].
Qed.

Lemma source_groups_keys (its : list EnrichedItem) :
  NoDup (map fst (source_groups its))
  /\ forall k, In k (map fst (source_groups its))
               <-> In k (map (fun it => SourceType_value (item_source_type it))
                             its).
Proof.
  unfold source_groups.
  assert (H : forall d : list (string * list string),
    NoDup (map fst d) ->
    let d' := fold_left
                (fun d it =>
                   group_append (SourceType_value (item_source_type it))
                                (item_embedding_id it) d) its d in
    NoDup (map fst d')
    /\ forall k, In k (map fst d')
                 <-> In k (map fst d)
                     \/ In k (map (fun it =>
                                     SourceType_value (item_source_type it))
                                  its)).
  { induction its as [|it its IH]; intros d Hnd; cbn [fold_left map].
    - split; [exact Hnd|]. intros k. cbn [In]. tauto.
    - destruct (IH _ (@NoDup_group_append
                        (SourceType_value (item_source_type it))
                        (item_embedding_id it) d Hnd)) as [H1 H2].
      split; [exact H1|]. intros k. cbn zeta in H2. rewrite H2.
      rewrite keys_group_append. cbn [In]. intuition congruence. }
  destruct (H [] (NoDup_nil _)) as [H1 H2].
  split; [exact H1|]. intros k. cbn zeta in H2. rewrite H2. cbn [map In].
  tauto.
Qed.

Lemma sub_centroids_keys (groups : list (string * list string))
    (vectors_map : list (string * list R)) :
  NoDup (map fst groups) ->
  NoDup (map fst (sub_centroids_of groups vectors_map))
  /\ forall k, In k (map fst (sub_centroids_of groups vectors_map)) ->
               In k (map fst groups).
Proof.
  induction groups as [|[k ids] groups IH]; intros Hnd.
  - split; [constructor|intros k []].
  - cbn [map fst] in Hnd. inversion Hnd as [|? ? Hk Hd]; subst.
    destruct (IH Hd) as [H1 H2].
    unfold sub_centroids_of. cbn [flat_map fst snd].
    fold (sub_centroids_of groups vectors_map).
    destruct (flat_map _ ids) as [|first others]; cbn [app map fst].
    + split; [exact H1|]. intros k' H. right. exact (H2 k' H).
    + split.
      * constructor; [|exact H1]. intros H. exact (Hk (H2 k H)).
      * intros k' [<-|H]; [left; reflexivity|right; exact (H2 k' H)].
Qed.

Lemma unordered_pairs_keys {A B} (l : list (A * B)) (p : (A * B) * (A * B)) :
  NoDup (map fst l) ->
  In p (unordered_pairs l) ->
  In (fst p) l /\ In (snd p) l /\ fst (fst p) <> fst (snd p).
Proof.
  induction l as [|a l IH]; intros Hnd Hin; [destruct Hin|].
  cbn [unordered_pairs] in Hin. cbn [map] in Hnd.
  inversion Hnd as [|? ? Ha Hl]; subst.
  apply in_app_or in Hin. destruct Hin as [Hin|Hin].
  - apply in_map_iff in Hin. destruct Hin as (b & <- & Hb).
    cbn [fst snd]. split; [left; reflexivity|].
    split; [right; exact Hb|].
    intros E. apply Ha. rewrite E. apply in_map. exact Hb.
  - destruct (IH Hl Hin) as (H1 & H2 & H3).
    split; [right; exact H1|]. split; [right; exact H2|exact H3].
Qed.

(** *** The range of the cosine distance *)

Local Open Scope R_scope.

Lemma dot_self_nonneg (a : list R) : 0 <= dot a a.
Proof.
  induction a as [|x a IH]; cbn [dot]; [lra|].
  pose proof (Rle_0_sqr x) as H. unfold Rsqr in H. lra.
Qed.

Lemma dot_cauchy_schwarz (a b : list R) :
  dot a b * dot a b <= dot a a * dot b b.
Proof.
  revert b. induction a as [|x a IH]; intros [|y b]; cbn [dot].
  - lra.
  - lra.
  - pose proof (dot_self_nonneg (x :: a)) as H. cbn [dot] in H. lra.
  - specialize (IH b).
    pose proof (dot_self_nonneg a) as HA.
    pose proof (dot_self_nonneg b) as HB.
    set (d := dot a b) in *. set (A := dot a a) in *.
    set (B := dot b b) in *.
    assert (Hmix : 2 * (x * y * d) <= x * x * B + y * y * A).
    { destruct (Req_dec B 0) as [E|E].
      - assert (Hd : d = 0).
        { rewrite E, Rmult_0_r in IH.
          pose proof (Rle_0_sqr d) as Hs. unfold Rsqr in Hs.
          assert (Hz : d * d = 0) by lra.
          apply Rmult_integral in Hz. tauto. }
        rewrite Hd, E. pose proof (Rle_0_sqr y) as Hy. unfold Rsqr in Hy.
        nra.
      - assert (Bpos : 0 < B) by lra.
        pose proof (Rle_0_sqr (x * B - y * d)) as Hs. unfold Rsqr in Hs.
        pose proof (Rle_0_sqr y) as Hy. unfold Rsqr in Hy.
        assert (Hprod : 0 <= B * (x * x * B + y * y * A - 2 * (x * y * d))).
        { assert (Hyy : y * y * (d * d) <= y * y * (A * B))
            by (apply Rmult_le_compat_l; assumption).
          nra. }
        assert (Hq : 0 <= x * x * B + y * y * A - 2 * (x * y * d)).
        { set (q := x * x * B + y * y * A - 2 * (x * y * d)) in *.
          destruct (Rle_or_lt 0 q) as [H|H]; [exact H|].
          exfalso.
          assert (Hneg : B * q < B * 0)
            by (apply Rmult_lt_compat_l; assumption).
          lra. }
        lra. }
    nra.
Qed.

Lemma dot_le_norms (a b : list R) : Rabs (dot a b) <= norm a * norm b.
Proof.
  unfold norm.
  rewrite <- sqrt_mult by apply dot_self_nonneg.
  rewrite <- (sqrt_Rsqr_abs (dot a b)).
  apply sqrt_le_1_alt. unfold Rsqr. apply dot_cauchy_schwarz.
Qed.

Lemma cos_dist_range (va vb : list R) :
  0 < cos_dist va vb < 2.
Proof.
  unfold cos_dist. cbv zeta.
  pose proof (dot_le_norms va vb) as Habs.
  assert (Hn : 0 <= norm va * norm vb).
  { unfold norm. apply Rmult_le_pos; apply sqrt_pos. }
  set (n := norm va * norm vb) in *. set (p := dot va vb) in *.
  assert (Heps : 0 < / 10000000000) by (apply Rinv_0_lt_compat; lra).
  assert (HD : 0 < n + / 10000000000) by lra.
  set (D := n + / 10000000000) in *.
  assert (Hp : - D < p < D).
  { assert (Hlt : Rabs p < D) by (unfold D; lra).
    destruct (Rabs_def2 _ _ Hlt) as [Hp1 Hp2]. split; assumption. }
  assert (Hi : 0 < / D) by (apply Rinv_0_lt_compat; exact HD).
  assert (HDi : D * / D = 1) by (apply Rinv_r; lra).
  unfold Rdiv.
  assert (H1 : p * / D < D * / D)
    by (apply Rmult_lt_compat_r; [exact Hi|apply Hp]).
  assert (H2 : (- D) * / D < p * / D)
    by (apply Rmult_lt_compat_r; [exact Hi|apply Hp]).
  rewrite Ropp_mult_distr_l_reverse in H2. lra.
Qed.

Lemma round4_range (x : R) : 0 < x < 2 -> 0 <= round4 x <= 2.
Proof.
  intros [H0 H2]. unfold round4, round_half_even.
  destruct (base_Int_part (x * 10000)) as [Hlo Hhi].
  set (n := Int_part (x * 10000)) in *.
  assert (Hn0 : (0 <= n)%Z).
  { apply Z.lt_succ_r. apply lt_IZR. rewrite succ_IZR. lra. }
  assert (Hn1 : (n <= 19999)%Z).
  { apply Z.lt_succ_r. apply lt_IZR. change (Z.succ 19999) with 20000%Z.
    lra. }
  assert (Ha : 0 <= IZR n <= 19999).
  { split; [apply (IZR_le 0); exact Hn0|apply (IZR_le n 19999); exact Hn1]. }
  assert (Hb : 0 <= IZR (n + 1) <= 20000).
  { rewrite plus_IZR. lra. }
  destruct (Rlt_dec _ _); [lra|].
  destruct (Rlt_dec _ _); [lra|].
  destruct (Z.even n); lra.
Qed.

Section Detector.

Variable threshold : R.
Variable format_3f : R -> string.

(** Any record of a cluster comes from two sub-centroids with different
    source types whose distance is above the threshold. *)
Lemma detect_cluster_In (cluster : NarrativeCluster R)
    (its : list EnrichedItem) (vectors : Collection R) (rec : Record_) :
  In rec (detect_cluster threshold format_3f cluster its vectors) ->
  (3 <= List.length its)%nat
  /\ exists a b : string * list R,
       In (fst a) (map (fun it => SourceType_value (item_source_type it)) its)
       /\ In (fst b)
             (map (fun it => SourceType_value (item_source_type it)) its)
       /\ fst a <> fst b
       /\ threshold < cos_dist (snd a) (snd b)
       /\ rec = make_record format_3f cluster (fst a) (fst b)
                  (cos_dist (snd a) (snd b)).
Proof.
  intros Hin.
  destruct (Nat.ltb_spec (List.length its) 3) as [H3|H3].
  { unfold detect_cluster in Hin.
    destruct (Nat.ltb_spec (List.length its) 3); [destruct Hin|lia]. }
  destruct (Nat.ltb_spec (List.length (source_groups its)) 2) as [H2|H2].
  { unfold detect_cluster in Hin.
    destruct (Nat.ltb_spec (List.length its) 3); [destruct Hin|].
    destruct (Nat.ltb_spec (List.length (source_groups its)) 2);
      [destruct Hin|lia]. }
  split; [exact H3|].
  rewrite (@DivergenceFacts.detect_cluster_pairs threshold format_3f cluster
             its vectors H3 H2) in Hin.
  apply in_flat_map in Hin. destruct Hin as ([a b] & Hp & Hrec).
  cbn [fst snd] in Hrec.
  destruct (source_groups_keys its) as [Hnd Hkeys].
  destruct (@sub_centroids_keys (source_groups its)
              (get_vectors_by_ids (flat_map snd (source_groups its)) vectors)
              Hnd) as [Hnd' Hsub].
  destruct (@unordered_pairs_keys _ _ _ (a, b) Hnd' Hp) as (Ha & Hb & Hne).
  cbn [fst snd] in Ha, Hb, Hne.
  unfold compare_pair in Hrec.
  destruct (Rlt_dec threshold (cos_dist (snd a) (snd b))) as [Hlt|_];
    [|destruct Hrec].
  destruct Hrec as [<-|[]].
  exists a, b.
  split; [apply Hkeys, Hsub, in_map; exact Ha|].
  split; [apply Hkeys, Hsub, in_map; exact Hb|].
  split; [exact Hne|]. split; [exact Hlt|reflexivity].
Qed.

(** X20. The cosine distance the detector computes is always strictly
    between 0 and 2, the small constant added to the denominator keeping
    it off both ends: every distance recorded is between 0 and 2 once
    rounded, and a threshold of 2 or more silences the detector.
    Arithmetic is on real numbers. *)
Theorem cosine_distance_range :
  (forall va vb : list R, 0 < cos_dist va vb < 2)
  /\ (forall (cluster : NarrativeCluster R) (its : list EnrichedItem)
             (vectors : Collection R) (rec : Record_),
        In rec (detect_cluster threshold format_3f cluster its vectors) ->
        0 <= d_cosine_distance rec <= 2)
  /\ (2 <= threshold ->
      forall (cluster : NarrativeCluster R) (its : list EnrichedItem)
             (vectors : Collection R),
        detect_cluster threshold format_3f cluster its vectors = []).
Proof.
  split; [exact cos_dist_range|]. split.
  - intros cluster its vectors rec Hin.
    destruct (@detect_cluster_In cluster its vectors rec Hin)
      as (_ & a & b & _ & _ & _ & _ & ->).
    cbn [make_record d_cosine_distance].
    apply round4_range, cos_dist_range.
  - intros Hth cluster its vectors.
    destruct (detect_cluster threshold format_3f cluster its vectors)
      as [|rec l] eqn:E; [reflexivity|].
    exfalso.
    assert (Hin : In rec (detect_cluster threshold format_3f cluster its
                            vectors)) by (rewrite E; left; reflexivity).
    destruct (@detect_cluster_In cluster its vectors rec Hin)
      as (_ & a & b & _ & _ & _ & Hlt & _).
    pose proof (cos_dist_range (snd a) (snd b)). lra.
Qed.


End Detector.




End DetectorFacts.

(* ===================================================================== *)
(** ** The Anthropic provider                                             *)
(* ===================================================================== *)

Module ProviderFacts.
Import Datetime Models Json LLM Providers Spec.
Local Open Scope string_scope.

Section Anthropic.

Variable float_of_str : string -> result Q.
Variable loads_cleaned : string -> result json.
Variable format_prompt : string -> string.
Variable model : string.
Variable messages_create : list (string * string) -> result Response.
Variable utcnow : datetime.

Lemma parse_sentiment_range (raw : string) (r : EnrichmentResult) :
  _parse_enrichment_json float_of_str loads_cleaned raw = Ok r ->
  (-1 <= er_sentiment r <= 1)%Q.
Proof.
  unfold _parse_enrichment_json, parse_data.
  destruct (loads_cleaned raw) as [data|e]; cbn [rbind]; [|discriminate].
  destruct data as [| | | | |kvs]; try discriminate.
  destruct (iterate _) as [es|e]; cbn [rbind]; [|discriminate].
  destruct (entity_loop es []) as [ents|e]; cbn [rbind]; [|discriminate].
  destruct (py_float float_of_str _) as [s|e]; cbn [rbind]; [|discriminate].
  destruct (as_str _) as [summary|e]; cbn [rbind]; [|discriminate].
  destruct (as_str_list _) as [claims|e]; cbn [rbind]; [|discriminate].
  destruct (as_str _) as [framing|e]; cbn [rbind]; [|discriminate].
  destruct (as_str_list _) as [tags|e]; cbn [rbind]; [|discriminate].
  intros H. injection H as <-. cbn [er_sentiment].
  pose proof (LLMFacts.py_clamp s) as E.
  pose proof (LLMFacts.clamp_range s) as [L U].
  split.
  - apply (Qle_trans _ (clamp s)); [exact L|].
    rewrite E. apply Qle_refl.
  - apply (Qle_trans _ (clamp s)); [|exact U].
    rewrite E. apply Qle_refl.
Qed.

Lemma token_cost_plus (i1 o1 i2 o2 : Z) :
  (token_cost i1 o1 + token_cost i2 o2 == token_cost (i1 + i2) (o1 + o2))%Q.
Proof.
  unfold token_cost. rewrite !inject_Z_plus. ring.
Qed.

(** X22. Whatever the service answers, when [AnthropicProvider.enrich]
    returns, the cost entry is for this item and this model, its cost is
    its token counts at the two per-token rates, and the sentiment of the
    result is between -1 and 1.  The result is the parse of the first
    answer, with the tokens of that call, or, the first answer having
    failed to parse with a [KeyError] or a [ValueError], the parse of the
    answer to the one retry, with the tokens of both calls. *)
Theorem anthropic_enrich_accounts
    (item : RawItem) (result : EnrichmentResult) (entry : CostLogEntry) :
  anthropic_enrich float_of_str loads_cleaned format_prompt model
    messages_create utcnow item = Ok (result, entry) ->
  let prompt :=
    format_prompt (substring 0 MAX_CONTENT_CHARS (raw_content_text item)) in
  cost_item_id entry = raw_id item
  /\ cost_model entry = model
  /\ (cost_usd entry
      == inject_Z (cost_input_tokens entry) * INPUT_COST_PER_TOKEN
         + inject_Z (cost_output_tokens entry) * OUTPUT_COST_PER_TOKEN)%Q
  /\ (-1 <= er_sentiment result <= 1)%Q
  /\ exists first,
       messages_create [("user", prompt)] = Ok first
       /\ ((_parse_enrichment_json float_of_str loads_cleaned
              (resp_text first) = Ok result
            /\ cost_input_tokens entry = resp_input_tokens first
            /\ cost_output_tokens entry = resp_output_tokens first)
           \/ exists e retry,
                _parse_enrichment_json float_of_str loads_cleaned
                  (resp_text first) = Raise e
                /\ (e = KeyError \/ e = ValueError)
                /\ messages_create
                     [("user", prompt); ("assistant", resp_text first);
                      ("user",
                       "Your response was not valid JSON. "
                       ++ "Please respond with ONLY a valid JSON object.")]
                   = Ok retry
                /\ _parse_enrichment_json float_of_str loads_cleaned
                     (resp_text retry) = Ok result
                /\ cost_input_tokens entry
                   = (resp_input_tokens first + resp_input_tokens retry)%Z
                /\ cost_output_tokens entry
                   = (resp_output_tokens first
                      + resp_output_tokens retry)%Z).
Proof.
  intros H prompt. unfold anthropic_enrich in H. fold prompt in H.
  destruct (messages_create [("user", prompt)]) as [first|e] eqn:E1;
    cbn [rbind] in H; [|discriminate].
  destruct (_parse_enrichment_json float_of_str loads_cleaned
              (resp_text first)) as [r1|e] eqn:P1.
  - injection H as <- <-.
    cbn [cost_item_id cost_model cost_usd cost_input_tokens
         cost_output_tokens].
    split; [reflexivity|]. split; [reflexivity|].
    split; [unfold token_cost; reflexivity|].
    split; [exact (parse_sentiment_range _ P1)|].
    exists first. split; [reflexivity|]. left. repeat split. exact P1.
  - assert (Hretry :
      (e = KeyError \/ e = ValueError)
      /\ rbind (messages_create
                  [("user", prompt); ("assistant", resp_text first);
                   ("user",
                    "Your response was not valid JSON. "
                    ++ "Please respond with ONLY a valid JSON object.")])
           (fun retry_response =>
              rbind (_parse_enrichment_json float_of_str loads_cleaned
                       (resp_text retry_response))
                (fun result0 =>
                   Ok (result0,
                       mkCostLogEntry (raw_id item) model
                         (resp_input_tokens first
                          + resp_input_tokens retry_response)%Z
                         (resp_output_tokens first
                          + resp_output_tokens retry_response)%Z
                         (token_cost (resp_input_tokens first)
                                     (resp_output_tokens first)
                          + token_cost (resp_input_tokens retry_response)
                                       (resp_output_tokens retry_response))%Q
                         utcnow)))
         = Ok (result, entry)).
    { destruct e; try discriminate; (split; [tauto|exact H]). }
    destruct Hretry as [He Hrun]. clear H.
    destruct (messages_create _) as [retry|e2] eqn:E2 in Hrun;
      cbn [rbind] in Hrun; [|discriminate].
    destruct (_parse_enrichment_json float_of_str loads_cleaned
                (resp_text retry)) as [r2|e3] eqn:P2;
      cbn [rbind] in Hrun; [|discriminate].
    injection Hrun as <- <-.
    cbn [cost_item_id cost_model cost_usd cost_input_tokens
         cost_output_tokens].
    split; [reflexivity|]. split; [reflexivity|].
    split; [apply token_cost_plus|].
    split; [exact (parse_sentiment_range _ P2)|].
    exists first. split; [reflexivity|]. right. exists e, retry.
    repeat split; assumption.
Qed.

(** X23. An answer that is valid JSON but not an object is not retried:
    reading it raises [AttributeError], which the retry clause does not
    catch, so [enrich] raises it after the first call. *)
Theorem non_object_answer_not_retried
    (item : RawItem) (first : Response) (data : json) :
  messages_create
    [("user",
      format_prompt
        (substring 0 MAX_CONTENT_CHARS (raw_content_text item)))]
  = Ok first ->
  loads_cleaned (resp_text first) = Ok data ->
  (forall kvs, data <> JObject kvs) ->
  anthropic_enrich float_of_str loads_cleaned format_prompt model
    messages_create utcnow item = Raise AttributeError.
Proof.
  intros E1 Hload Hno. unfold anthropic_enrich. rewrite E1. cbn [rbind].
  unfold _parse_enrichment_json. rewrite Hload. cbn [rbind].
  unfold parse_data. destruct data as [| | | | |kvs]; try reflexivity.
  exfalso. exact (Hno kvs eq_refl).
Qed.

End Anthropic.

Lemma anthropic_enrich_accounts_witness :
  exists result entry,
    anthropic_enrich (fun _ => Raise ValueError) Scenario.loads_good_only
      (fun content => content) "claude-haiku"
      Scenario.second_time_right Scenario.now Scenario.raw_new_1
    = Ok (result, entry)
    /\ cost_input_tokens entry = 250%Z
    /\ cost_output_tokens entry = 50%Z
    /\ (cost_usd entry == 4 # 10000)%Q
    /\ (er_sentiment result == 1)%Q.
Proof.
  eexists. eexists. split; [vm_compute; reflexivity|].
  split; [reflexivity|]. split; [reflexivity|].
  match goal with
  | |- (cost_usd ?en == _)%Q /\ (er_sentiment ?res == _)%Q =>
      destruct (@anthropic_enrich_accounts (fun _ => Raise ValueError)
                  Scenario.loads_good_only (fun content => content)
                  "claude-haiku" Scenario.second_time_right Scenario.now
                  Scenario.raw_new_1 res en eq_refl)
        as (_ & _ & Hcost & _)
  end.
  split; [rewrite Hcost; vm_compute; reflexivity|vm_compute; reflexivity].
Defined.

Lemma non_object_answer_not_retried_witness :
  anthropic_enrich (fun _ => Raise ValueError) Scenario.loads_good_only
    (fun content => content) "claude-haiku"
    Scenario.answers_a_list Scenario.now Scenario.raw_new_1
  = Raise AttributeError.
Proof.
  apply (@non_object_answer_not_retried (fun _ => Raise ValueError)
           Scenario.loads_good_only (fun content => content) "claude-haiku"
           Scenario.answers_a_list Scenario.now Scenario.raw_new_1
           (mkResponse "list" 100 20) (JList [])).
  - reflexivity.
  - reflexivity.
  - intros kvs H. discriminate.
Defined.

End ProviderFacts.

(* ===================================================================== *)
(** ** The anomaly detector                                               *)
(* ===================================================================== *)

Module AnomalyFacts.
Import Datetime Models SQLiteStore VectorStore Clustering Anomalies Spec.
Local Open Scope string_scope.

(** *** Counters *)

Lemma dict_get_count_up (k k' : string) (d : list (string * Z)) :
  dict_get k (count_up k' d)
  = if k =? k'
    then Some (match dict_get k d with
               | Some n => (n + 1)%Z
               | None => 1%Z
               end)
    else dict_get k d.
Proof.
  induction d as [|[k0 n] d IH]; cbn [count_up dict_get].
  - destruct (k =? k'); reflexivity.
  - destruct (String.eqb_spec k' k0) as [->|Hne]; cbn [dict_get].
    + destruct (String.eqb_spec k k0) as [->|Hk]; reflexivity.
    + destruct (String.eqb_spec k k0) as [->|Hk].
      * destruct (String.eqb_spec k0 k') as [E|_]; [congruence|reflexivity].
      * exact IH.
Qed.

Lemma keys_count_up (k' k : string) (d : list (string * Z)) :
  In k (map fst (count_up k' d)) <-> k = k' \/ In k (map fst d).
Proof.
  induction d as [|[k0 n] d IH]; cbn [count_up map fst In].
  - intuition congruence.
  - destruct (String.eqb_spec k' k0) as [->|Hne]; cbn [map fst In].
    + intuition congruence.
    + rewrite IH. tauto.
Qed.

Lemma NoDup_count_up (k' : string) (d : list (string * Z)) :
  NoDup (map fst d) -> NoDup (map fst (count_up k' d)).
Proof.
  induction d as [|[k0 n] d IH]; cbn [count_up map fst]; intros Hnd.
  - constructor; [intros []|constructor].
  - inversion Hnd as [|? ? Hk Hd]; subst.
    destruct (String.eqb_spec k' k0) as [->|Hne]; cbn [map fst].
    + constructor; assumption.
    + constructor; [|exact (IH Hd)].
      intros Hin. apply keys_count_up in Hin.
      destruct Hin as [E|Hin]; [exact (Hne (eq_sym E))|exact (Hk Hin)].
Qed.

Lemma count_fold (names : list string) (k : string) :
  forall d : list (string * Z),
    NoDup (map fst d) ->
    let d' := fold_left (fun d n => count_up n d) names d in
    NoDup (map fst d')
    /\ dict_get k d'
       = match dict_get k d, count_occ string_dec names k with
         | Some n, c => Some (n + Z.of_nat c)%Z
         | None, O => None
         | None, c => Some (Z.of_nat c)
         end.
Proof.
  induction names as [|n names IH]; intros d Hnd; cbn [fold_left count_occ].
  - split; [exact Hnd|].
    destruct (dict_get k d); [rewrite Z.add_0_r|]; reflexivity.
  - destruct (IH (count_up n d) (@NoDup_count_up n d Hnd)) as [H1 H2].
    split; [exact H1|]. cbn zeta in H2. rewrite H2, dict_get_count_up.
    destruct (string_dec n k) as [->|Hne].
    + rewrite String.eqb_refl.
      destruct (dict_get k d) as [m|].
      * f_equal. lia.
      * destruct (count_occ string_dec names k);
          f_equal; lia.
    + destruct (String.eqb_spec k n) as [E|_]; [congruence|].
      reflexivity.
Qed.

Lemma dict_get_In {V} (d : list (string * V)) (k : string) (v : V) :
  NoDup (map fst d) -> (In (k, v) d <-> dict_get k d = Some v).
Proof.
  induction d as [|[k0 v0] d IH]; cbn [map fst dict_get In]; intros Hnd.
  - split; [intros []|discriminate].
  - inversion Hnd as [|? ? Hk Hd]; subst.
    destruct (String.eqb_spec k k0) as [->|Hne].
    + split.
      * intros [E|Hin]; [congruence|].
        exfalso. apply Hk. apply (in_map fst) in Hin. exact Hin.
      * intros E. left. congruence.
    + rewrite <- (IH Hd). split.
      * intros [E|Hin]; [congruence|exact Hin].
      * intros Hin. right. exact Hin.
Qed.

Lemma fold_nested {A B C} (f : C -> B -> C) (g : A -> list B)
    (l : list A) (c : C) :
  fold_left (fun c a => fold_left f (g a) c) l c
  = fold_left f (flat_map g l) c.
Proof.
  revert c. induction l as [|a l IH]; intros c; cbn [fold_left flat_map];
    [reflexivity|].
  rewrite fold_left_app. apply IH.
Qed.

Lemma fold_mapped {A B C} (f : C -> B -> C) (h : A -> B)
    (l : list A) (c : C) :
  fold_left (fun c a => f c (h a)) l c = fold_left f (map h l) c.
Proof.
  revert c. induction l as [|a l IH]; intros c; cbn [fold_left map];
    [reflexivity|apply IH].
Qed.

(** The counter of [detect_entity_surges] holds, for every name, the
    number of times the items mention it. *)
Lemma entity_items_counts (recent_items : list EnrichedItem) :
  NoDup (map fst (entity_items_of recent_items))
  /\ forall name count,
       In (name, count) (entity_items_of recent_items)
       <-> count = Z.of_nat
                     (count_occ string_dec
                        (flat_map (fun it => map ent_name (item_entities it))
                                  recent_items) name)
           /\ (0 < count)%Z.
Proof.
  unfold entity_items_of.
  assert (E : forall d,
    fold_left (fun d it =>
                 fold_left (fun d e => count_up (ent_name e) d)
                           (item_entities it) d) recent_items d
    = fold_left (fun d n => count_up n d)
        (flat_map (fun it => map ent_name (item_entities it)) recent_items)
        d).
  { intros d.
    rewrite (fold_nested (fun d e => count_up (ent_name e) d)
               item_entities).
    rewrite (fold_mapped (fun d n => count_up n d) ent_name).
    f_equal. clear.
    induction recent_items as [|it l IH]; [reflexivity|].
    cbn [flat_map]. rewrite map_app, IH. reflexivity. }
  rewrite E. clear E.
  set (mentions := flat_map _ recent_items).
  split; [exact (proj1 (@count_fold mentions "" [] (NoDup_nil _)))|].
  intros name count.
  destruct (@count_fold mentions name [] (NoDup_nil _)) as [Hnd Hget].
  cbn zeta in Hnd, Hget. cbn [dict_get] in Hget.
  rewrite (@dict_get_In Z _ name count Hnd), Hget.
  destruct (count_occ string_dec mentions name) as [|c].
  - split; [discriminate|]. intros [-> H]. cbn in H. lia.
  - split.
    + intros H. injection H as <-. split; [reflexivity|lia].
    + intros [-> _]. reflexivity.
Qed.

(** *** Volume spikes *)

Lemma spike_test (recent week : Z) :
  LLM.Qltb 0 (if (0 <? week)%Z then (inject_Z week / 168)%Q else 0%Q)
  && LLM.Qltb (3 * (if (0 <? week)%Z then (inject_Z week / 168)%Q else 0%Q))
              (inject_Z recent / 6) = true
  <-> (0 < week /\ 3 * week < 28 * recent)%Z.
Proof.
  destruct (Z.ltb_spec 0 week) as [Hw|Hw].
  - rewrite andb_true_iff, !LLMFacts.Qltb_true.
    unfold Qlt, Qdiv, Qmult, Qinv, inject_Z. cbn [Qnum Qden].
    rewrite ?Z.mul_1_r, ?Pos.mul_1_l. lia.
  - split; [|lia]. intros H. apply andb_prop in H. destruct H as [H _].
    apply LLMFacts.Qltb_true in H. exfalso. exact (Qlt_irrefl 0 H).
Qed.

Lemma count_since_all (t : datetime) (its : list EnrichedItem) :
  (forall i, In i its -> Datetime.leb t (item_published_at i) = true) ->
  count_since t its = Z.of_nat (List.length its).
Proof.
  intros H. unfold count_since. rewrite MatchFacts.filter_all; [reflexivity|].
  exact H.
Qed.

Section Detector.

Variable F : Type.
Variable minus_hours : datetime -> Z -> datetime.
Variable minus_days : datetime -> Z -> datetime.
Variable str_int : Z -> string.
Variable format_1f : Q -> string.

(** X24. A cluster is reported as a volume spike exactly when it has
    items of the last seven days and 28 times its count of the last six
    hours exceeds 3 times its count of the last seven days (the rate
    test, in whole numbers); at most one record is written for it, with
    its id and the six-hour count.  So a cluster all of whose items are
    from the last six hours is always reported, a single item being
    enough. *)
Theorem volume_spike_criterion
    (now : datetime) (cluster : NarrativeCluster F)
    (its : list EnrichedItem) :
  let recent := count_since (minus_hours now 6) its in
  let week := count_since (minus_days now 7) its in
  (volume_spike_of minus_hours minus_days str_int format_1f now cluster its
   <> []
   <-> (0 < week /\ 3 * week < 28 * recent)%Z)
  /\ (forall rec,
        In rec (volume_spike_of minus_hours minus_days str_int format_1f
                  now cluster its) ->
        volume_spike_of minus_hours minus_days str_int format_1f
          now cluster its = [rec]
        /\ vs_cluster_id rec = cl_id cluster
        /\ vs_cluster_label rec = cl_label cluster
        /\ vs_recent_6h_count rec = recent)
  /\ (its <> [] ->
      (forall i, In i its ->
         Datetime.leb (minus_hours now 6) (item_published_at i) = true
         /\ Datetime.leb (minus_days now 7) (item_published_at i) = true) ->
      volume_spike_of minus_hours minus_days str_int format_1f
        now cluster its <> []).
Proof.
  intros recent week. subst recent week.
  assert (Hcrit :
    volume_spike_of minus_hours minus_days str_int format_1f now cluster its
    <> []
    <-> (0 < count_since (minus_days now 7) its
         /\ 3 * count_since (minus_days now 7) its
            < 28 * count_since (minus_hours now 6) its)%Z).
  { unfold volume_spike_of. destruct its as [|i its'].
    - split; [intros H; exfalso; exact (H eq_refl)|]. cbn. lia.
    - set (l := i :: its'). cbv zeta.
      rewrite <- (spike_test (count_since (minus_hours now 6) l)
                             (count_since (minus_days now 7) l)).
      destruct (LLM.Qltb 0 _ && LLM.Qltb _ _).
      + split; [reflexivity|discriminate].
      + split; [intros H; exfalso; exact (H eq_refl)|discriminate]. }
  split; [exact Hcrit|]. split.
  - intros rec Hin. unfold volume_spike_of in *.
    destruct its as [|i its']; [destruct Hin|].
    set (l := i :: its') in *. cbv zeta in Hin |- *.
    destruct (LLM.Qltb 0 _ && LLM.Qltb _ _); [|destruct Hin].
    destruct Hin as [<-|[]]. repeat split.
  - intros Hne Hall. apply Hcrit.
    rewrite (@count_since_all (minus_hours now 6) its)
      by (intros i Hi; exact (proj1 (Hall i Hi))).
    rewrite (@count_since_all (minus_days now 7) its)
      by (intros i Hi; exact (proj2 (Hall i Hi))).
    destruct its as [|i its']; [congruence|].
    cbn [List.length]. lia.
Qed.

Lemma surge_names (d : list (string * Z)) :
  NoDup (map fst d) ->
  NoDup (map es_entity_name
           (flat_map
              (fun kv =>
                 if (10 <? snd kv)%Z
                 then [ {| es_entity_name := fst kv;
                           es_count_6h := snd kv;
                           es_description :=
                             "Entity surge: '" ++ fst kv ++ "' in "
                             ++ str_int (snd kv) ++ " items in 6h" |} ]
                 else []) d))
  /\ forall rec,
       In rec (flat_map
                 (fun kv =>
                    if (10 <? snd kv)%Z
                    then [ {| es_entity_name := fst kv;
                              es_count_6h := snd kv;
                              es_description :=
                                "Entity surge: '" ++ fst kv ++ "' in "
                                ++ str_int (snd kv) ++ " items in 6h" |} ]
                    else []) d) ->
       In (es_entity_name rec, es_count_6h rec) d
       /\ (10 < es_count_6h rec)%Z.
Proof.
  induction d as [|[k n] d IH]; intros Hnd.
  - split; [constructor|intros rec []].
  - cbn [map fst] in Hnd. inversion Hnd as [|? ? Hk Hd]; subst.
    destruct (IH Hd) as [H1 H2]. cbn [flat_map fst snd].
    destruct (Z.ltb_spec 10 n) as [Hn|Hn]; cbn [app map es_entity_name].
    + split.
      * constructor; [|exact H1]. intros Hin. apply in_map_iff in Hin.
        destruct Hin as (rec & E & Hin). destruct (H2 rec Hin) as [Hd' _].
        apply Hk. rewrite <- E. apply (in_map fst) in Hd'. exact Hd'.
      * intros rec [<-|Hin].
        -- cbn. split; [left; reflexivity|exact Hn].
        -- destruct (H2 rec Hin) as [A B]. split; [right; exact A|exact B].
    + split; [exact H1|]. intros rec Hin.
      destruct (H2 rec Hin) as [A B]. split; [right; exact A|exact B].
Qed.

(** X25. [detect_entity_surges] counts mentions, not items: the names
    it reports are distinct, and a name is reported with a count exactly
    when that count is the number of times the entities of the items
    read carry the name and it is above 10.  An item that names an
    entity eleven times is enough. *)
Theorem entity_surges_count_mentions
    (now : datetime) (st : Store F) (recs : list EntitySurge) :
  detect_entity_surges minus_hours str_int now st = Ok recs ->
  exists recent_items,
    fst (get_items (Some (minus_hours now 6)) 1000 None st) = Ok recent_items
    /\ NoDup (map es_entity_name recs)
    /\ forall name count,
         (exists rec, In rec recs /\ es_entity_name rec = name
                      /\ es_count_6h rec = count)
         <-> count = Z.of_nat
                       (count_occ string_dec
                          (flat_map
                             (fun it => map ent_name (item_entities it))
                             recent_items) name)
             /\ (10 < count)%Z.
Proof.
  unfold detect_entity_surges. intros H.
  destruct (fst (get_items (Some (minus_hours now 6)) 1000 None st))
    as [recent_items|e]; cbn [rbind] in H; [|discriminate].
  injection H as <-. exists recent_items. split; [reflexivity|].
  destruct (entity_items_counts recent_items) as [Hnd Hcount].
  destruct (@surge_names (entity_items_of recent_items) Hnd) as [Hn1 Hn2].
  split; [exact Hn1|]. intros name count. split.
  - intros (rec & Hin & <- & <-).
    destruct (Hn2 rec Hin) as [A B]. apply Hcount in A.
    split; [exact (proj1 A)|exact B].
  - intros [Hc H10].
    assert (Hin : In (name, count) (entity_items_of recent_items))
      by (apply Hcount; split; [exact Hc|lia]).
    exists {| es_entity_name := name;
              es_count_6h := count;
              es_description :=
                "Entity surge: '" ++ name ++ "' in "
                ++ str_int count ++ " items in 6h" |}.
    split; [|split; reflexivity].
    apply in_flat_map. exists (name, count). split; [exact Hin|].
    cbn [fst snd]. apply Z.ltb_lt in H10. rewrite H10. left. reflexivity.
Qed.

End Detector.

Lemma entity_surges_count_mentions_witness :
  List.length (items Scenario.echo_store) = 1%nat
  /\ exists recent_items,
       fst (get_items (Some Scenario.now) 1000 None Scenario.echo_store)
       = Ok recent_items
       /\ 11%Z = Z.of_nat
                   (count_occ string_dec
                      (flat_map (fun it => map ent_name (item_entities it))
                                recent_items) "NATO")
       /\ (10 < 11)%Z.
Proof.
  split; [reflexivity|].
  assert (Hrun :
    detect_entity_surges (fun d _ => d) (fun _ => "11") Scenario.now
      Scenario.echo_store
    = Ok [ {| es_entity_name := "NATO";
              es_count_6h := 11;
              es_description :=
                "Entity surge: 'NATO' in 11 items in 6h" |} ])
    by (vm_compute; reflexivity).
  destruct (@entity_surges_count_mentions Q (fun d _ => d)
              (fun _ => "11") Scenario.now Scenario.echo_store _ Hrun)
    as (its & Hget & _ & Hiff).
  exists its. split; [exact Hget|]. apply Hiff.
  eexists. split; [left; reflexivity|]. split; reflexivity.
Defined.

Lemma volume_spike_criterion_single_item :
  volume_spike_of (fun d _ => d) (fun d _ => d) (fun _ => "1")
    (fun _ => "0.0") Scenario.now Scenario.prev_1 [Scenario.echo_item]
  <> [].
Proof.
  apply (@volume_spike_criterion Q (fun d _ => d) (fun d _ => d)
           (fun _ => "1") (fun _ => "0.0") Scenario.now Scenario.prev_1
           [Scenario.echo_item]).
  - discriminate.
  - intros i [<-|[]]. split; reflexivity.
Defined.

End AnomalyFacts.
